(** * Loss detection and RTT estimation of the QUIC transport

    A shallow embedding of [iocore/net/quic/QUICLossDetector.cc]: the RTT
    estimator [QUICRTTMeasure] and the loss detector [QUICLossDetector],
    followed by the properties established about them.

    Conventions of the embedding.
    - [QUICPacketNumber] is [uint64_t]: packet numbers are integers in
      [0, 2^64) and every subtraction on them is written with its
      wrap-around ([u64]).
    - The outstanding counters and the back-off exponents are [uint32_t];
      increments and decrements wrap ([u32]).
    - [ink_hrtime] is a signed 64-bit count of nanoseconds.  Signed overflow
      is undefined in C++, so instants and durations are computed in [Z].
    - [double] values are IEEE-754 binary64 numbers ([spec_float] with
      precision 53), with the conversions from and to [ink_hrtime] that the
      C++ assignments perform.
    - [ink_assert] is the debug-only assertion: it has no effect here.
    - [Thread::get_hrtime()] is the time cached by the event loop; every
      entry point takes it as the argument [now].
    - Calls made to the collaborators (congestion controller, frame
      generators, pinger, padder, context, event processor) are appended
      to the log [calls] of the detector. *)

From Stdlib Require Import ZArith List Lia Bool.
From Stdlib Require Import Floats.SpecFloat.
Import ListNotations.
Open Scope Z_scope.

(** ** Machine arithmetic *)

Definition u64 (z : Z) : Z := z mod 2 ^ 64.
Definition u32 (z : Z) : Z := z mod 2 ^ 32.

(** Conversion of a [uint64_t] to the signed [ink_hrtime]. *)
Definition s64 (z : Z) : Z :=
  let w := u64 z in if w <? 2 ^ 63 then w else w - 2 ^ 64.

(** Modelled from the spec: the macro [ABS] of tscore, the absolute value
    written as a conditional. *)
Definition ABS (x : Z) : Z := if x <? 0 then - x else x.

(** Modelled from the spec: the unit conversions of tscore's ink_hrtime.h;
    the clock counts nanoseconds. *)
Definition HRTIME_USECONDS (x : Z) : Z := x * 1000.
Definition HRTIME_MSECONDS (x : Z) : Z := x * 1000000.

(** ** Binary64 arithmetic *)

Module Double.
Definition prec : Z := 53.
Definition emax : Z := 1024.
Definition t := spec_float.

(** int64 to double, rounding to nearest even. *)
Definition of_int64 (z : Z) : t := binary_normalize prec emax z 0 false.

(** double to int64: the fractional part is discarded. *)
Definition to_int64 (f : t) : Z :=
  match f with
  | S754_finite s m e =>
      let a := if 0 <=? e then Z.pos m * 2 ^ e
               else Z.quot (Z.pos m) (2 ^ (- e)) in
      if s then - a else a
  | _ => 0
  end.

Definition mul : t -> t -> t := SFmul prec emax.
Definition add : t -> t -> t := SFadd prec emax.
Definition div : t -> t -> t := SFdiv prec emax.

(** A literal such as [3.0]. *)
Definition lit (z : Z) : t := of_int64 z.
End Double.

(** ** QUICRTTMeasure *)

Module QUICRTTMeasure.

Record t := mk {
  latest_rtt : Z;
  smoothed_rtt : Z;
  rttvar : Z;
  min_rtt : Z;
  max_ack_delay : Z;
  crypto_count : Z;
  pto_count : Z;
  k_granularity : Z;
  k_initial_rtt : Z
}.

Definition update_rtt (latest ack_delay : Z) (r : t) : t :=
  if smoothed_rtt r =? 0 then
    mk latest latest (Z.quot latest 2) 0
       (max_ack_delay r) (crypto_count r) (pto_count r)
       (k_granularity r) (k_initial_rtt r)
  else
    let min_rtt' := Z.min (min_rtt r) latest in
    let ack_delay := Z.min ack_delay (max_ack_delay r) in
    let adjusted_rtt := latest in
    let adjusted_rtt :=
      if adjusted_rtt >? min_rtt' + ack_delay then adjusted_rtt - ack_delay
      else adjusted_rtt in
    let rttvar' :=
      Double.to_int64
        (Double.add
           (Double.mul (Double.div (Double.lit 3) (Double.lit 4))
                       (Double.of_int64 (rttvar r)))
           (Double.mul (Double.div (Double.lit 1) (Double.lit 4))
                       (Double.of_int64 (ABS (smoothed_rtt r - adjusted_rtt))))) in
    let smoothed_rtt' :=
      Double.to_int64
        (Double.add
           (Double.mul (Double.div (Double.lit 7) (Double.lit 8))
                       (Double.of_int64 (smoothed_rtt r)))
           (Double.mul (Double.div (Double.lit 1) (Double.lit 8))
                       (Double.of_int64 adjusted_rtt))) in
    mk latest smoothed_rtt' rttvar' min_rtt'
       (max_ack_delay r) (crypto_count r) (pto_count r)
       (k_granularity r) (k_initial_rtt r).

(** [1 << _pto_count] is a shift of a 32-bit [int]: the model agrees with it
    while the count is below 31. *)
Definition current_pto_period (r : t) : Z :=
  let alarm_duration := smoothed_rtt r + 4 * rttvar r + max_ack_delay r in
  let alarm_duration := Z.max alarm_duration (k_granularity r) in
  alarm_duration * Z.shiftl 1 (pto_count r).

Definition congestion_period (threshold : Z) (r : t) : Z :=
  let pto := smoothed_rtt r + Z.max (rttvar r * 4) (k_granularity r) in
  pto * threshold.

(** [1 << _crypto_count] is a shift of a 32-bit [int]: the model agrees with
    it while the count is below 31. *)
Definition handshake_retransmit_timeout (r : t) : Z :=
  let timeout :=
    if smoothed_rtt r =? 0 then 2 * k_initial_rtt r
    else 2 * smoothed_rtt r in
  let timeout := Z.max timeout (k_granularity r) in
  timeout * Z.shiftl 1 (crypto_count r).

Definition set_crypto_count (count : Z) (r : t) : t :=
  mk (latest_rtt r) (smoothed_rtt r) (rttvar r) (min_rtt r)
     (max_ack_delay r) count (pto_count r)
     (k_granularity r) (k_initial_rtt r).

Definition set_pto_count (count : Z) (r : t) : t :=
  mk (latest_rtt r) (smoothed_rtt r) (rttvar r) (min_rtt r)
     (max_ack_delay r) (crypto_count r) count
     (k_granularity r) (k_initial_rtt r).

Definition reset (r : t) : t :=
  mk 0 0 0 0 (max_ack_delay r) 0 0 (k_granularity r) (k_initial_rtt r).

End QUICRTTMeasure.

(** ** Packets, frames and the collaborators of the detector *)

Inductive QUICPacketNumberSpace := Initial | Handshake | ApplicationData.

Definition kPacketNumberSpace : Z := 3.

Module QUICPacketType.
Inductive t :=
| VERSION_NEGOTIATION | INITIAL | ZERO_RTT_PROTECTED | HANDSHAKE
| RETRY | PROTECTED | STATELESS_RESET | UNINITIALIZED.

Definition eqb (a b : t) : bool :=
  match a, b with
  | VERSION_NEGOTIATION, VERSION_NEGOTIATION | INITIAL, INITIAL
  | ZERO_RTT_PROTECTED, ZERO_RTT_PROTECTED | HANDSHAKE, HANDSHAKE
  | RETRY, RETRY | PROTECTED, PROTECTED
  | STATELESS_RESET, STATELESS_RESET | UNINITIALIZED, UNINITIALIZED => true
  | _, _ => false
  end.
End QUICPacketType.

Module QUICEncryptionLevel.
Inductive t := INITIAL | ZERO_RTT | HANDSHAKE | ONE_RTT.
End QUICEncryptionLevel.

Module QUICKeyPhase.
Inductive t := PHASE_0 | PHASE_1 | INITIAL | ZERO_RTT | HANDSHAKE.
End QUICKeyPhase.

(** Modelled from the spec: [QUICTypeUtil::pn_space], defined outside
    QUICLossDetector.cc, maps an encryption level to its packet-number
    space. *)
Definition pn_space_of_level (level : QUICEncryptionLevel.t)
  : QUICPacketNumberSpace :=
  match level with
  | QUICEncryptionLevel.INITIAL => Initial
  | QUICEncryptionLevel.HANDSHAKE => Handshake
  | QUICEncryptionLevel.ZERO_RTT | QUICEncryptionLevel.ONE_RTT => ApplicationData
  end.

(** Modelled from the spec: the frame record of a sent packet, declared in
    QUICTypes.h: the frame id and the generator that produced it
    ([generated_by] may be null). *)
Record QUICFrameInfo := mkFrameInfo {
  frame_id : Z;
  generated_by : option Z
}.

(** Modelled from the spec: the descriptor of a sent packet, declared in
    QUICTypes.h, with the members the detector reads. *)
Record QUICPacketInfo := mkPacketInfo {
  packet_number : Z;
  time_sent : Z;
  ack_eliciting : bool;
  is_crypto_packet : bool;
  in_flight : bool;
  sent_bytes : Z;
  ptype : QUICPacketType.t;
  frames : list QUICFrameInfo;
  pn_space : QUICPacketNumberSpace
}.

(** Modelled from the spec: the ACK frame, declared in QUICFrame.h, as the
    detector reads it: unsigned 64-bit members, a list of additional
    (gap, length) blocks and an optional ECN section. *)
Record QUICAckFrame := mkAckFrame {
  largest_acknowledged : Z;
  ack_delay : Z;
  first_ack_block : Z;
  ack_blocks : list (Z * Z);          (* (gap, length) *)
  ecn_section : option (Z * Z * Z)
}.

Inductive QUICFrame :=
| ACK (f : QUICAckFrame)
| OtherFrame (type : Z).

(** Calls issued to the collaborators, in the order they are made. *)
Inductive Call :=
| cc_on_packet_sent (bytes : Z)
| cc_on_packet_acked (p : QUICPacketInfo)
| cc_on_packets_lost (lost : list (Z * QUICPacketInfo))
| cc_process_ecn (p : QUICPacketInfo) (ecn : Z * Z * Z)
| cc_add_extra_credit
| on_frame_acked (reactor id : Z)
| on_frame_lost (reactor id : Z)
| trigger_PACKET_LOST (p : QUICPacketInfo)
| pinger_request (level : QUICEncryptionLevel.t)
| padder_request (level : QUICEncryptionLevel.t)
| schedule_every (interval : Z)
| timer_cancel.

Inductive NetVConnectionContext := NET_VCONNECTION_IN | NET_VCONNECTION_OUT.

(** Modelled from the spec: what the detector asks of its [QUICContext]
    (connection direction and key availability). *)
Record QUICContext := mkContext {
  direction : NetVConnectionContext;
  is_encryption_key_available : QUICKeyPhase.t -> bool;
  is_decryption_key_available : QUICKeyPhase.t -> bool
}.

(** Modelled from the spec: the loss-detection configuration, declared in
    QUICConfig.h; the time threshold is a binary64 number. *)
Record QUICLDConfig := mkConfig {
  packet_threshold : Z;
  time_threshold : Double.t;
  granularity : Z;
  initial_rtt : Z
}.

(** ** Arrays indexed by packet-number space *)

Record PerSpace (A : Type) := mkPerSpace {
  at_initial : A;
  at_handshake : A;
  at_application : A
}.
Arguments mkPerSpace {A}.
Arguments at_initial {A}.
Arguments at_handshake {A}.
Arguments at_application {A}.

Definition get {A} (a : PerSpace A) (i : QUICPacketNumberSpace) : A :=
  match i with
  | Initial => at_initial a
  | Handshake => at_handshake a
  | ApplicationData => at_application a
  end.

Definition put {A} (a : PerSpace A) (i : QUICPacketNumberSpace) (v : A)
  : PerSpace A :=
  match i with
  | Initial => mkPerSpace v (at_handshake a) (at_application a)
  | Handshake => mkPerSpace (at_initial a) v (at_application a)
  | ApplicationData => mkPerSpace (at_initial a) (at_handshake a) v
  end.

Definition all_spaces : list QUICPacketNumberSpace :=
  [Initial; Handshake; ApplicationData].

(** ** The ordered map of sent packets ([std::map], keys ascending) *)

Module SentPackets.
Definition t := list (Z * QUICPacketInfo).

Fixpoint find (k : Z) (m : t) : option QUICPacketInfo :=
  match m with
  | [] => None
  | (k', v) :: rest => if k' =? k then Some v else find k rest
  end.

(** [std::map::insert]: an existing key keeps its element. *)
Fixpoint insert (k : Z) (v : QUICPacketInfo) (m : t) : t :=
  match m with
  | [] => [(k, v)]
  | (k', v') :: rest =>
      if k <? k' then (k, v) :: m
      else if k' =? k then m
      else (k', v') :: insert k v rest
  end.

Fixpoint erase (k : Z) (m : t) : t :=
  match m with
  | [] => []
  | (k', v) :: rest => if k' =? k then rest else (k', v) :: erase k rest
  end.
End SentPackets.

(** ** Ranges of an ACK frame *)

(** Modelled from the spec: [QUICAckFrame::PacketNumberRange], declared
    outside QUICLossDetector.cc, is an inclusive range of packet numbers
    [first >= x >= last]; a [std::set] of ranges is ordered by [first] and
    holds one range per value of [first]. *)
Module PacketNumberRange.
Record t := mk { first : Z; last : Z }.

Definition contains (r : t) (x : Z) : bool :=
  (last r <=? x) && (x <=? first r).

Fixpoint set_insert (r : t) (s : list t) : list t :=
  match s with
  | [] => [r]
  | r' :: rest =>
      if first r <? first r' then r :: s
      else if first r' =? first r then s
      else r' :: set_insert r rest
  end.
End PacketNumberRange.

(** ** QUICLossDetector: state *)

(** The members of the detector that QUICLossDetector.cc reads and writes.
    Their declarations are in QUICLossDetector.h: the two counters are
    32-bit atomics, [k_packet_threshold] is a 32-bit unsigned integer and
    [k_time_threshold] a floating-point number (binary64, as the
    configuration has it). *)

Record QUICLossDetector := mkLD {
  sent_packets : PerSpace SentPackets.t;
  ack_eliciting_outstanding : Z;
  crypto_outstanding : Z;
  time_of_last_sent_ack_eliciting_packet : Z;
  time_of_last_sent_crypto_packet : Z;
  largest_acked_packet : PerSpace Z;
  loss_time : PerSpace Z;
  loss_detection_alarm_at : Z;
  loss_detection_timer : bool;        (* the tick handle is not null *)
  ack_delay_exponent : Z;
  k_packet_threshold : Z;
  k_time_threshold : Double.t;
  rtt_measure : QUICRTTMeasure.t;
  calls : list Call
}.

Definition set_sent_packets v ld :=
  mkLD v (ack_eliciting_outstanding ld) (crypto_outstanding ld)
       (time_of_last_sent_ack_eliciting_packet ld)
       (time_of_last_sent_crypto_packet ld) (largest_acked_packet ld)
       (loss_time ld) (loss_detection_alarm_at ld) (loss_detection_timer ld)
       (ack_delay_exponent ld) (k_packet_threshold ld) (k_time_threshold ld)
       (rtt_measure ld) (calls ld).

Definition set_ack_eliciting_outstanding v ld :=
  mkLD (sent_packets ld) v (crypto_outstanding ld)
       (time_of_last_sent_ack_eliciting_packet ld)
       (time_of_last_sent_crypto_packet ld) (largest_acked_packet ld)
       (loss_time ld) (loss_detection_alarm_at ld) (loss_detection_timer ld)
       (ack_delay_exponent ld) (k_packet_threshold ld) (k_time_threshold ld)
       (rtt_measure ld) (calls ld).

Definition set_crypto_outstanding v ld :=
  mkLD (sent_packets ld) (ack_eliciting_outstanding ld) v
       (time_of_last_sent_ack_eliciting_packet ld)
       (time_of_last_sent_crypto_packet ld) (largest_acked_packet ld)
       (loss_time ld) (loss_detection_alarm_at ld) (loss_detection_timer ld)
       (ack_delay_exponent ld) (k_packet_threshold ld) (k_time_threshold ld)
       (rtt_measure ld) (calls ld).

Definition set_time_of_last_sent_ack_eliciting_packet v ld :=
  mkLD (sent_packets ld) (ack_eliciting_outstanding ld) (crypto_outstanding ld)
       v
       (time_of_last_sent_crypto_packet ld) (largest_acked_packet ld)
       (loss_time ld) (loss_detection_alarm_at ld) (loss_detection_timer ld)
       (ack_delay_exponent ld) (k_packet_threshold ld) (k_time_threshold ld)
       (rtt_measure ld) (calls ld).

Definition set_time_of_last_sent_crypto_packet v ld :=
  mkLD (sent_packets ld) (ack_eliciting_outstanding ld) (crypto_outstanding ld)
       (time_of_last_sent_ack_eliciting_packet ld)
       v (largest_acked_packet ld)
       (loss_time ld) (loss_detection_alarm_at ld) (loss_detection_timer ld)
       (ack_delay_exponent ld) (k_packet_threshold ld) (k_time_threshold ld)
       (rtt_measure ld) (calls ld).

Definition set_largest_acked_packet v ld :=
  mkLD (sent_packets ld) (ack_eliciting_outstanding ld) (crypto_outstanding ld)
       (time_of_last_sent_ack_eliciting_packet ld)
       (time_of_last_sent_crypto_packet ld) v
       (loss_time ld) (loss_detection_alarm_at ld) (loss_detection_timer ld)
       (ack_delay_exponent ld) (k_packet_threshold ld) (k_time_threshold ld)
       (rtt_measure ld) (calls ld).

Definition set_loss_time v ld :=
  mkLD (sent_packets ld) (ack_eliciting_outstanding ld) (crypto_outstanding ld)
       (time_of_last_sent_ack_eliciting_packet ld)
       (time_of_last_sent_crypto_packet ld) (largest_acked_packet ld)
       v (loss_detection_alarm_at ld) (loss_detection_timer ld)
       (ack_delay_exponent ld) (k_packet_threshold ld) (k_time_threshold ld)
       (rtt_measure ld) (calls ld).

Definition set_loss_detection_alarm_at v ld :=
  mkLD (sent_packets ld) (ack_eliciting_outstanding ld) (crypto_outstanding ld)
       (time_of_last_sent_ack_eliciting_packet ld)
       (time_of_last_sent_crypto_packet ld) (largest_acked_packet ld)
       (loss_time ld) v (loss_detection_timer ld)
       (ack_delay_exponent ld) (k_packet_threshold ld) (k_time_threshold ld)
       (rtt_measure ld) (calls ld).

Definition set_loss_detection_timer_handle v ld :=
  mkLD (sent_packets ld) (ack_eliciting_outstanding ld) (crypto_outstanding ld)
       (time_of_last_sent_ack_eliciting_packet ld)
       (time_of_last_sent_crypto_packet ld) (largest_acked_packet ld)
       (loss_time ld) (loss_detection_alarm_at ld) v
       (ack_delay_exponent ld) (k_packet_threshold ld) (k_time_threshold ld)
       (rtt_measure ld) (calls ld).

Definition set_ack_delay_exponent v ld :=
  mkLD (sent_packets ld) (ack_eliciting_outstanding ld) (crypto_outstanding ld)
       (time_of_last_sent_ack_eliciting_packet ld)
       (time_of_last_sent_crypto_packet ld) (largest_acked_packet ld)
       (loss_time ld) (loss_detection_alarm_at ld) (loss_detection_timer ld)
       v (k_packet_threshold ld) (k_time_threshold ld)
       (rtt_measure ld) (calls ld).

Definition set_rtt_measure v ld :=
  mkLD (sent_packets ld) (ack_eliciting_outstanding ld) (crypto_outstanding ld)
       (time_of_last_sent_ack_eliciting_packet ld)
       (time_of_last_sent_crypto_packet ld) (largest_acked_packet ld)
       (loss_time ld) (loss_detection_alarm_at ld) (loss_detection_timer ld)
       (ack_delay_exponent ld) (k_packet_threshold ld) (k_time_threshold ld)
       v (calls ld).

(** Record a call to a collaborator. *)
Definition call (c : Call) ld :=
  mkLD (sent_packets ld) (ack_eliciting_outstanding ld) (crypto_outstanding ld)
       (time_of_last_sent_ack_eliciting_packet ld)
       (time_of_last_sent_crypto_packet ld) (largest_acked_packet ld)
       (loss_time ld) (loss_detection_alarm_at ld) (loss_detection_timer ld)
       (ack_delay_exponent ld) (k_packet_threshold ld) (k_time_threshold ld)
       (rtt_measure ld) (calls ld ++ [c]).

(** ** QUICLossDetector: helper functions *)

(** [if (timer) { timer->cancel(); timer = nullptr; }] *)
Definition cancel_loss_detection_timer (ld : QUICLossDetector) :=
  if loss_detection_timer ld
  then set_loss_detection_timer_handle false (call timer_cancel ld)
  else ld.

Definition _decrement_outstanding_counters (it : option QUICPacketInfo) ld :=
  match it with
  | Some p =>
      let ld :=
        if is_crypto_packet p
        then set_crypto_outstanding (u32 (crypto_outstanding ld - 1)) ld
        else ld in
      if ack_eliciting p
      then set_ack_eliciting_outstanding (u32 (ack_eliciting_outstanding ld - 1)) ld
      else ld
  | None => ld
  end.

Definition _remove_from_sent_packet_list (pn : Z) (space : QUICPacketNumberSpace) ld :=
  let ite := SentPackets.find pn (get (sent_packets ld) space) in
  let ld := _decrement_outstanding_counters ite ld in
  set_sent_packets
    (put (sent_packets ld) space (SentPackets.erase pn (get (sent_packets ld) space)))
    ld.

Definition _add_to_sent_packet_list (pn : Z) (packet_info : QUICPacketInfo) ld :=
  let index := pn_space packet_info in
  let ld :=
    set_sent_packets
      (put (sent_packets ld) index
           (SentPackets.insert pn packet_info (get (sent_packets ld) index)))
      ld in
  match SentPackets.find pn (get (sent_packets ld) index) with
  | Some ite =>
      let ld :=
        if is_crypto_packet ite
        then set_crypto_outstanding (u32 (crypto_outstanding ld + 1)) ld
        else ld in
      if ack_eliciting ite
      then set_ack_eliciting_outstanding (u32 (ack_eliciting_outstanding ld + 1)) ld
      else ld
  | None => ld
  end.

Definition _is_client_without_one_rtt_key (ctx : QUICContext) : bool :=
  match direction ctx with NET_VCONNECTION_OUT => true | NET_VCONNECTION_IN => false end
  && negb ((is_encryption_key_available ctx QUICKeyPhase.PHASE_1
            && is_decryption_key_available ctx QUICKeyPhase.PHASE_1)
           || (is_encryption_key_available ctx QUICKeyPhase.PHASE_0
               && is_decryption_key_available ctx QUICKeyPhase.PHASE_0)).

Definition _retransmit_lost_packet (packet_info : QUICPacketInfo) ld :=
  fold_left
    (fun ld frame_info =>
       match generated_by frame_info with
       | None => ld
       | Some reactor => call (on_frame_lost reactor (frame_id frame_info)) ld
       end)
    (frames packet_info) ld.

Definition _send_packet (level : QUICEncryptionLevel.t) (padded : bool) ld :=
  let ld := if padded then call (padder_request level) ld
            else call (pinger_request level) ld in
  call cc_add_extra_credit ld.

Definition _send_one_or_two_packet ld :=
  _send_packet QUICEncryptionLevel.ONE_RTT false
    (_send_packet QUICEncryptionLevel.ONE_RTT false ld).

Definition _send_one_handshake_packets ld :=
  _send_packet QUICEncryptionLevel.HANDSHAKE false ld.

Definition _send_one_padded_packets ld :=
  _send_packet QUICEncryptionLevel.INITIAL true ld.

Definition _include_ack_eliciting (acked_packets : list QUICPacketInfo) : bool :=
  existsb ack_eliciting acked_packets.

(** ** Arming the timer *)

Definition _get_earliest_loss_time ld : Z * QUICPacketNumberSpace :=
  fold_left
    (fun (acc : Z * QUICPacketNumberSpace) i =>
       let time := fst acc in
       if negb (get (loss_time ld) i =? 0)
          && (negb (time =? 0) || (get (loss_time ld) i <? time))
       then (get (loss_time ld) i, i)
       else acc)
    [Handshake; ApplicationData]
    (get (loss_time ld) Initial, Initial).

Definition update_timer (time : Z) ld :=
  let ld := set_loss_detection_alarm_at time ld in
  if loss_detection_timer ld then ld
  else set_loss_detection_timer_handle true
         (call (schedule_every (HRTIME_MSECONDS 25)) ld).

Definition _set_loss_detection_timer (ctx : QUICContext) ld :=
  let alarm := fst (_get_earliest_loss_time ld) in
  if negb (alarm =? 0) then update_timer alarm ld
  else if (0 <? crypto_outstanding ld) || _is_client_without_one_rtt_key ctx then
    update_timer
      (time_of_last_sent_crypto_packet ld
       + QUICRTTMeasure.handshake_retransmit_timeout (rtt_measure ld)) ld
  else if ack_eliciting_outstanding ld =? 0 then
    if loss_detection_timer ld
    then set_loss_detection_timer_handle false
           (call timer_cancel (set_loss_detection_alarm_at 0 ld))
    else ld
  else
    update_timer
      (time_of_last_sent_ack_eliciting_packet ld
       + QUICRTTMeasure.current_pto_period (rtt_measure ld)) ld.

(** ** Loss detection *)

(** The scan of [_detect_lost_packets] over the table of one space, in
    ascending key order; [lt] is the running [_loss_time[space]] and [lost]
    the map [lost_packets]. *)
Fixpoint scan_sent_packets (largest_acked lost_send_time lost_pn loss_delay : Z)
    (table : SentPackets.t) (lt : Z) (lost : SentPackets.t)
  : Z * SentPackets.t :=
  match table with
  | [] => (lt, lost)
  | (key, unacked) :: rest =>
      if key >? largest_acked then (lt, lost)
      else if (time_sent unacked <? lost_send_time)
              || (packet_number unacked <? lost_pn) then
        scan_sent_packets largest_acked lost_send_time lost_pn loss_delay rest lt
          (if in_flight unacked then SentPackets.insert key unacked lost else lost)
      else if lt =? 0 then
        scan_sent_packets largest_acked lost_send_time lost_pn loss_delay rest
          (time_sent unacked + loss_delay) lost
      else
        scan_sent_packets largest_acked lost_send_time lost_pn loss_delay rest
          (Z.min lt (time_sent unacked + loss_delay)) lost
  end.

Definition _detect_lost_packets (now : Z) (space : QUICPacketNumberSpace) ld :=
  let ld := set_loss_time (put (loss_time ld) space 0) ld in
  let loss_delay :=
    Double.to_int64
      (Double.mul (k_time_threshold ld)
         (Double.of_int64
            (Z.max (QUICRTTMeasure.latest_rtt (rtt_measure ld))
                   (QUICRTTMeasure.smoothed_rtt (rtt_measure ld))))) in
  let loss_delay := Z.min loss_delay (QUICRTTMeasure.k_granularity (rtt_measure ld)) in
  let lost_send_time := now - loss_delay in
  let lost_pn := u64 (get (largest_acked_packet ld) space - k_packet_threshold ld) in
  let '(lt, lost_packets) :=
    scan_sent_packets (get (largest_acked_packet ld) space) lost_send_time lost_pn
      loss_delay (get (sent_packets ld) space) (get (loss_time ld) space) [] in
  let ld := set_loss_time (put (loss_time ld) space lt) ld in
  match lost_packets with
  | [] => ld
  | _ :: _ =>
      let ld := call (cc_on_packets_lost lost_packets) ld in
      fold_left
        (fun ld lost_packet =>
           let ld := call (trigger_PACKET_LOST (snd lost_packet)) ld in
           let ld := _retransmit_lost_packet (snd lost_packet) ld in
           _remove_from_sent_packet_list (fst lost_packet) space ld)
        lost_packets ld
  end.

Definition _retransmit_all_unacked_crypto_data ld :=
  fold_left
    (fun ld i =>
       let crypto :=
         filter (fun info => is_crypto_packet (snd info)) (get (sent_packets ld) i) in
       let ld := fold_left (fun ld info => _retransmit_lost_packet (snd info) ld) crypto ld in
       let ld := call (cc_on_packets_lost crypto) ld in
       fold_left (fun ld info => _remove_from_sent_packet_list (fst info) i ld) crypto ld)
    all_spaces ld.

Definition _on_loss_detection_timeout (ctx : QUICContext) (now : Z) ld :=
  let '(loss_time, space) := _get_earliest_loss_time ld in
  let ld :=
    if negb (loss_time =? 0) then _detect_lost_packets now space ld
    else if negb (crypto_outstanding ld =? 0) then
      let ld := _retransmit_all_unacked_crypto_data ld in
      set_rtt_measure
        (QUICRTTMeasure.set_crypto_count
           (u32 (QUICRTTMeasure.crypto_count (rtt_measure ld) + 1)) (rtt_measure ld)) ld
    else if _is_client_without_one_rtt_key ctx then
      let ld :=
        if is_encryption_key_available ctx QUICKeyPhase.HANDSHAKE
        then _send_one_handshake_packets ld
        else _send_one_padded_packets ld in
      set_rtt_measure
        (QUICRTTMeasure.set_crypto_count
           (u32 (QUICRTTMeasure.crypto_count (rtt_measure ld) + 1)) (rtt_measure ld)) ld
    else
      let ld := _send_one_or_two_packet ld in
      set_rtt_measure
        (QUICRTTMeasure.set_pto_count
           (u32 (QUICRTTMeasure.pto_count (rtt_measure ld) + 1)) (rtt_measure ld)) ld in
  _set_loss_detection_timer ctx ld.

(** ** Processing an ACK frame *)

(** The descriptors are collected by value; the source collects pointers
    into the table.  A descriptor that two ranges contain is listed twice. *)
Definition _determine_newly_acked_packets (ack_frame : QUICAckFrame)
    (index : QUICPacketNumberSpace) ld : list QUICPacketInfo :=
  let x := largest_acknowledged ack_frame in
  let numbers :=
    PacketNumberRange.set_insert
      (PacketNumberRange.mk x (u64 (x - first_ack_block ack_frame))) [] in
  let x := u64 (x - (first_ack_block ack_frame + 1)) in
  let '(_, numbers) :=
    fold_left
      (fun (acc : Z * list PacketNumberRange.t) (block : Z * Z) =>
         let '(x, numbers) := acc in
         let '(gap, length) := block in
         let x := u64 (x - (gap + 1)) in
         let numbers :=
           PacketNumberRange.set_insert
             (PacketNumberRange.mk x (u64 (x - length))) numbers in
         let x := u64 (x - (length + 1)) in
         (x, numbers))
      (ack_blocks ack_frame) (x, numbers) in
  flat_map
    (fun range =>
       map snd
         (filter (fun ite => PacketNumberRange.contains range (fst ite))
                 (rev (get (sent_packets ld) index))))
    numbers.

Definition _on_packet_acked (acked_packet : QUICPacketInfo) ld :=
  let ld := if in_flight acked_packet
            then call (cc_on_packet_acked acked_packet) ld else ld in
  let ld :=
    fold_left
      (fun ld frame_info =>
         match generated_by frame_info with
         | None => ld
         | Some reactor => call (on_frame_acked reactor (frame_id frame_info)) ld
         end)
      (frames acked_packet) ld in
  _remove_from_sent_packet_list (packet_number acked_packet) (pn_space acked_packet) ld.

(** [_on_packet_acked] releases the descriptor it is given.  The model
    agrees with the source on the frames whose newly acknowledged
    descriptors are pairwise distinct; for a descriptor listed twice the
    source reads it again after its release. *)
Definition _on_ack_received (ctx : QUICContext) (now : Z)
    (ack_frame : QUICAckFrame) (space : QUICPacketNumberSpace) ld :=
  let index := space in
  let ld :=
    set_largest_acked_packet
      (put (largest_acked_packet ld) index
           (Z.max (get (largest_acked_packet ld) index)
                  (largest_acknowledged ack_frame)))
      ld in
  let newly_acked_packets := _determine_newly_acked_packets ack_frame index ld in
  match newly_acked_packets with
  | [] => ld
  | _ :: _ =>
      let pi := SentPackets.find (largest_acknowledged ack_frame)
                                 (get (sent_packets ld) index) in
      let ld :=
        match pi with
        | Some p =>
            if ack_eliciting p || _include_ack_eliciting newly_acked_packets then
              let latest_rtt := now - time_sent p in
              let delay :=
                s64 (HRTIME_USECONDS
                       (u64 (Z.shiftl (ack_delay ack_frame) (ack_delay_exponent ld)))) in
              set_rtt_measure
                (QUICRTTMeasure.update_rtt latest_rtt delay (rtt_measure ld)) ld
            else ld
        | None => ld
        end in
      let ld :=
        match ecn_section ack_frame, pi with
        | Some ecn, Some p => call (cc_process_ecn p ecn) ld
        | _, _ => ld
        end in
      let ld := fold_left (fun ld info => _on_packet_acked info ld)
                          newly_acked_packets ld in
      let ld := _detect_lost_packets now space ld in
      let ld := set_rtt_measure
                  (QUICRTTMeasure.set_crypto_count 0 (rtt_measure ld)) ld in
      let ld := set_rtt_measure
                  (QUICRTTMeasure.set_pto_count 0 (rtt_measure ld)) ld in
      _set_loss_detection_timer ctx ld
  end.

(** ** Public operations *)

Inductive QUICConnectionError := ConnectionError (code : Z).

Definition handle_frame (ctx : QUICContext) (now : Z)
    (level : QUICEncryptionLevel.t) (frame : QUICFrame) ld
  : option QUICConnectionError * QUICLossDetector :=
  let error := None in
  match frame with
  | ACK ack_frame =>
      (error, _on_ack_received ctx now ack_frame (pn_space_of_level level) ld)
  | OtherFrame _ => (error, ld)
  end.

Definition largest_acked_packet_number (space : QUICPacketNumberSpace) ld : Z :=
  get (largest_acked_packet ld) space.

Definition on_packet_sent (ctx : QUICContext) (packet_info : QUICPacketInfo)
    (in_flight : bool) ld :=
  if QUICPacketType.eqb (ptype packet_info) QUICPacketType.VERSION_NEGOTIATION
  then ld
  else
    let now := time_sent packet_info in
    let ld := _add_to_sent_packet_list (packet_number packet_info) packet_info ld in
    if in_flight then
      let ld := if is_crypto_packet packet_info
                then set_time_of_last_sent_crypto_packet now ld else ld in
      let ld := if ack_eliciting packet_info
                then set_time_of_last_sent_ack_eliciting_packet now ld else ld in
      let ld := call (cc_on_packet_sent (sent_bytes packet_info)) ld in
      _set_loss_detection_timer ctx ld
    else ld.

Definition reset ld :=
  let ld := cancel_loss_detection_timer ld in
  let ld := set_ack_eliciting_outstanding 0 ld in
  let ld := set_crypto_outstanding 0 ld in
  let ld := set_time_of_last_sent_ack_eliciting_packet 0 ld in
  let ld := set_time_of_last_sent_crypto_packet 0 ld in
  let ld :=
    fold_left
      (fun ld i =>
         let ld := set_largest_acked_packet (put (largest_acked_packet ld) i 0) ld in
         let ld := set_loss_time (put (loss_time ld) i 0) ld in
         set_sent_packets (put (sent_packets ld) i []) ld)
      all_spaces ld in
  set_rtt_measure (QUICRTTMeasure.reset (rtt_measure ld)) ld.

Definition update_ack_delay_exponent (exponent : Z) ld :=
  set_ack_delay_exponent exponent ld.

Inductive LDEvent := EVENT_INTERVAL | QUIC_EVENT_LD_SHUTDOWN | OtherEvent (code : Z).

Definition event_handler (ctx : QUICContext) (now : Z) (event : LDEvent) ld :=
  match event with
  | EVENT_INTERVAL =>
      if loss_detection_alarm_at ld <=? now then
        _on_loss_detection_timeout ctx now (set_loss_detection_alarm_at 0 ld)
      else ld
  | QUIC_EVENT_LD_SHUTDOWN => cancel_loss_detection_timer ld
  | OtherEvent _ => ld
  end.

(** The detector as its constructor leaves it: thresholds taken from the
    configuration, every other member zero or empty, then [reset]. *)
Definition new_rtt_measure (ld_config : QUICLDConfig) (max_ack_delay : Z)
  : QUICRTTMeasure.t :=
  QUICRTTMeasure.mk 0 0 0 0 max_ack_delay 0 0
    (granularity ld_config) (initial_rtt ld_config).

(** [QUICRTTMeasure::init] *)
Definition init_rtt_measure (ld_config : QUICLDConfig) (r : QUICRTTMeasure.t)
  : QUICRTTMeasure.t :=
  QUICRTTMeasure.mk
    (QUICRTTMeasure.latest_rtt r) (QUICRTTMeasure.smoothed_rtt r)
    (QUICRTTMeasure.rttvar r) (QUICRTTMeasure.min_rtt r)
    (QUICRTTMeasure.max_ack_delay r) (QUICRTTMeasure.crypto_count r)
    (QUICRTTMeasure.pto_count r) (granularity ld_config) (initial_rtt ld_config).

Definition new_loss_detector (ld_config : QUICLDConfig)
    (rtt : QUICRTTMeasure.t) : QUICLossDetector :=
  reset
    (mkLD (mkPerSpace [] [] []) 0 0 0 0 (mkPerSpace 0 0 0) (mkPerSpace 0 0 0)
          0 false 0 (packet_threshold ld_config) (time_threshold ld_config)
          rtt []).

(** The destructor: the tick is cancelled, then the tables are cleared. *)
Definition destroy ld :=
  let ld := cancel_loss_detection_timer ld in
  fold_left (fun ld i => set_sent_packets (put (sent_packets ld) i []) ld)
            all_spaces ld.

(** ** Traces of operations *)

Inductive Op :=
| OpPacketSent (packet_info : QUICPacketInfo) (in_flight : bool)
| OpHandleFrame (now : Z) (level : QUICEncryptionLevel.t) (frame : QUICFrame)
| OpEvent (now : Z) (event : LDEvent)
| OpUpdateAckDelayExponent (exponent : Z)
| OpReset.

Definition step (ctx : QUICContext) (ld : QUICLossDetector) (op : Op) :=
  match op with
  | OpPacketSent packet_info in_flight => on_packet_sent ctx packet_info in_flight ld
  | OpHandleFrame now level frame => snd (handle_frame ctx now level frame ld)
  | OpEvent now event => event_handler ctx now event ld
  | OpUpdateAckDelayExponent exponent => update_ack_delay_exponent exponent ld
  | OpReset => reset ld
  end.

Definition run (ctx : QUICContext) (ops : list Op) (ld : QUICLossDetector) :=
  fold_left (step ctx) ops ld.

(** * Vocabulary of the properties *)

(** ** A concrete endpoint, used to evaluate the operations *)

Module Scenario.
(** packet threshold 3, time threshold 9/8, granularity 1 ms,
    initial RTT 100 ms *)
Definition ld_config : QUICLDConfig :=
  mkConfig 3 (Double.div (Double.lit 9) (Double.lit 8))
           (HRTIME_MSECONDS 1) (HRTIME_MSECONDS 100).

Definition server : QUICContext :=
  mkContext NET_VCONNECTION_IN (fun _ => true) (fun _ => true).

Definition detector : QUICLossDetector :=
  new_loss_detector ld_config (new_rtt_measure ld_config (HRTIME_MSECONDS 25)).

(** An ack-eliciting, in-flight 1-RTT packet of 1200 bytes. *)
Definition packet (pn time_sent : Z) : QUICPacketInfo :=
  mkPacketInfo pn time_sent true false true 1200 QUICPacketType.PROTECTED
               [mkFrameInfo 1 (Some 1)] ApplicationData.

Definition send (pn time_sent : Z) : Op := OpPacketSent (packet pn time_sent) true.

(** An ACK frame with no additional block, received at [now]. *)
Definition ack (now largest first_block : Z) : Op :=
  OpHandleFrame now QUICEncryptionLevel.ONE_RTT
                (ACK (mkAckFrame largest 0 first_block [] None)).
End Scenario.

(** ** The outstanding counters *)

Definition count (f : QUICPacketInfo -> bool) (m : SentPackets.t) : Z :=
  Z.of_nat (length (filter (fun e => f (snd e)) m)).

(** Number of tracked descriptors with a given flag, over the three spaces. *)
Definition tracked_in (f : QUICPacketInfo -> bool) (tables : PerSpace SentPackets.t) : Z :=
  count f (get tables Initial) + count f (get tables Handshake)
  + count f (get tables ApplicationData).

Definition tracked (f : QUICPacketInfo -> bool) (ld : QUICLossDetector) : Z :=
  tracked_in f (sent_packets ld).

(** The counters agree with the tables (the counters are 32 bits wide). *)
Definition counters_ok (ld : QUICLossDetector) : Prop :=
  ack_eliciting_outstanding ld = u32 (tracked ack_eliciting ld)
  /\ crypto_outstanding ld = u32 (tracked is_crypto_packet ld).

(** The packet sent by [op], if it is tracked, carries a number that is
    not in the table of its space. *)
Definition fresh_send (ld : QUICLossDetector) (op : Op) : Prop :=
  match op with
  | OpPacketSent p _ =>
      QUICPacketType.eqb (ptype p) QUICPacketType.VERSION_NEGOTIATION = false ->
      SentPackets.find (packet_number p) (get (sent_packets ld) (pn_space p)) = None
  | _ => True
  end.

(** ** Frames and traces with defined behaviour

    [_determine_newly_acked_packets] collects pointers into the table and
    [_on_packet_acked] releases the descriptor it is given.  A frame whose
    ranges, computed modulo 2^64, overlap on a tracked packet lists the same
    pointer twice, and the second [_on_packet_acked] would read a released
    descriptor.  The properties of ACK processing are stated for frames that
    list no descriptor twice. *)

(** The numbers of the newly acknowledged descriptors are pairwise
    distinct: no descriptor is listed twice. *)
Definition acks_once (ack_frame : QUICAckFrame) (space : QUICPacketNumberSpace)
    (ld : QUICLossDetector) : Prop :=
  NoDup (map packet_number (_determine_newly_acked_packets ack_frame space ld)).

Definition frame_acks_once (level : QUICEncryptionLevel.t) (frame : QUICFrame)
    (ld : QUICLossDetector) : Prop :=
  match frame with
  | ACK ack_frame => acks_once ack_frame (pn_space_of_level level) ld
  | OtherFrame _ => True
  end.

Definition op_acks_once (ld : QUICLossDetector) (op : Op) : Prop :=
  match op with
  | OpHandleFrame _ level frame => frame_acks_once level frame ld
  | _ => True
  end.

(** [C] holds of every operation of the trace, in the state the operation
    is applied to. *)
Fixpoint every_step (ctx : QUICContext) (C : QUICLossDetector -> Op -> Prop)
    (ops : list Op) (ld : QUICLossDetector) : Prop :=
  match ops with
  | [] => True
  | op :: rest => C ld op /\ every_step ctx C rest (step ctx ld op)
  end.

(** A step that keeps the counters in line with the tables: a tracked packet
    is sent under a number that is not in the table of its space, and an ACK
    frame lists no descriptor twice. *)
Definition counted_step (ld : QUICLossDetector) (op : Op) : Prop :=
  fresh_send ld op /\ op_acks_once ld op.

(** ** The alarm of a scheduled tick *)






(** ** Loss detection, in the words of the specification *)

(** Keys strictly ascending: the order a [std::map] keeps. *)
Fixpoint ordered (m : SentPackets.t) : Prop :=
  match m with
  | [] => True
  | e :: rest => Forall (fun e' => fst e < fst e') rest /\ ordered rest
  end.

(** A packet is deemed lost when it was sent before [lost_send_time] or its
    number is below [lost_pn]. *)
Definition deemed_lost (lost_send_time lost_pn : Z) (p : QUICPacketInfo) : bool :=
  (time_sent p <? lost_send_time) || (packet_number p <? lost_pn).

(** The loss time of a space: over the surviving entries, the minimum of
    [time_sent + loss_delay], 0 standing for "not set". *)
Definition survivors_loss_time (loss_delay : Z) (survivors : SentPackets.t) : Z :=
  fold_left
    (fun lt e =>
       if lt =? 0 then time_sent (snd e) + loss_delay
       else Z.min lt (time_sent (snd e) + loss_delay))
    survivors 0.

(** ** RTT samples *)

Definition update_rtt_samples (samples : list (Z * Z)) (r : QUICRTTMeasure.t)
  : QUICRTTMeasure.t :=
  fold_left (fun r s => QUICRTTMeasure.update_rtt (fst s) (snd s) r) samples r.

(** [update_rtt] after its first sample, with [min_rtt] replaced by 0: the
    ack delay is subtracted when [latest > ack_delay]. *)
Definition update_rtt_ignoring_min_rtt (latest ack_delay : Z) (r : QUICRTTMeasure.t)
  : QUICRTTMeasure.t :=
  let ack_delay := Z.min ack_delay (QUICRTTMeasure.max_ack_delay r) in
  let adjusted_rtt := if latest >? ack_delay then latest - ack_delay else latest in
  QUICRTTMeasure.mk latest
    (Double.to_int64
       (Double.add
          (Double.mul (Double.div (Double.lit 7) (Double.lit 8))
                      (Double.of_int64 (QUICRTTMeasure.smoothed_rtt r)))
          (Double.mul (Double.div (Double.lit 1) (Double.lit 8))
                      (Double.of_int64 adjusted_rtt))))
    (Double.to_int64
       (Double.add
          (Double.mul (Double.div (Double.lit 3) (Double.lit 4))
                      (Double.of_int64 (QUICRTTMeasure.rttvar r)))
          (Double.mul (Double.div (Double.lit 1) (Double.lit 4))
                      (Double.of_int64
                         (ABS (QUICRTTMeasure.smoothed_rtt r - adjusted_rtt))))))
    0
    (QUICRTTMeasure.max_ack_delay r) (QUICRTTMeasure.crypto_count r)
    (QUICRTTMeasure.pto_count r) (QUICRTTMeasure.k_granularity r)
    (QUICRTTMeasure.k_initial_rtt r).

(** The three tables are ordered. *)
Definition tables_ordered (ld : QUICLossDetector) : Prop :=
  forall space, ordered (get (sent_packets ld) space).

(** Every tracked descriptor is stored under its own packet number, in the
    table of its own space. *)
Definition well_keyed (ld : QUICLossDetector) : Prop :=
  forall space k p,
    In (k, p) (get (sent_packets ld) space) ->
    packet_number p = k /\ pn_space p = space.

(** ** The ranges of an ACK frame *)

(** The ranges in the order the frame lists them, computed as
    [_determine_newly_acked_packets] does (modulo 2^64); [x] is the number
    just below the previous range. *)
Fixpoint ack_block_ranges (x : Z) (blocks : list (Z * Z)) : list PacketNumberRange.t :=
  match blocks with
  | [] => []
  | (gap, length) :: rest =>
      let x := u64 (x - (gap + 1)) in
      PacketNumberRange.mk x (u64 (x - length))
      :: ack_block_ranges (u64 (x - (length + 1))) rest
  end.

Definition ack_ranges (ack_frame : QUICAckFrame) : list PacketNumberRange.t :=
  let x := largest_acknowledged ack_frame in
  PacketNumberRange.mk x (u64 (x - first_ack_block ack_frame))
  :: ack_block_ranges (u64 (x - (first_ack_block ack_frame + 1))) (ack_blocks ack_frame).

(** The packet numbers a frame acknowledges, in plain integers: the first
    block counts down from largest_acknowledged; each further block skips
    gap + 1 numbers and then covers length + 1 numbers. *)
Fixpoint acked_by_blocks (x : Z) (blocks : list (Z * Z)) (k : Z) : Prop :=
  match blocks with
  | [] => False
  | (gap, length) :: rest =>
      (x - gap - 1 - length <= k <= x - gap - 1)
      \/ acked_by_blocks (x - gap - 1 - length - 1) rest k
  end.

Definition acked_by (ack_frame : QUICAckFrame) (k : Z) : Prop :=
  (largest_acknowledged ack_frame - first_ack_block ack_frame <= k
   <= largest_acknowledged ack_frame)
  \/ acked_by_blocks (largest_acknowledged ack_frame - first_ack_block ack_frame - 1)
                     (ack_blocks ack_frame) k.

(** No step of the expansion goes below zero. *)
Fixpoint blocks_fit (x : Z) (blocks : list (Z * Z)) : Prop :=
  match blocks with
  | [] => True
  | (gap, length) :: rest =>
      0 <= gap /\ 0 <= length /\ 0 <= x - gap - 1 - length
      /\ blocks_fit (x - gap - 1 - length - 1) rest
  end.

Definition ack_fits (ack_frame : QUICAckFrame) : Prop :=
  0 <= first_ack_block ack_frame <= largest_acknowledged ack_frame
  /\ largest_acknowledged ack_frame < 2 ^ 64
  /\ blocks_fit (largest_acknowledged ack_frame - first_ack_block ack_frame - 1)
                (ack_blocks ack_frame).

(** The set of ranges built by the loop over the additional blocks. *)
Definition numbers_of (x : Z) (numbers : list PacketNumberRange.t)
    (blocks : list (Z * Z)) : list PacketNumberRange.t :=
  snd (fold_left
         (fun (acc : Z * list PacketNumberRange.t) (block : Z * Z) =>
            let '(x, numbers) := acc in
            let '(gap, length) := block in
            let x := u64 (x - (gap + 1)) in
            let numbers :=
              PacketNumberRange.set_insert
                (PacketNumberRange.mk x (u64 (x - length))) numbers in
            let x := u64 (x - (length + 1)) in
            (x, numbers))
         blocks (x, numbers)).

(** ** Shrinking tables *)

(** No descriptor is tracked under [k] in [space]. *)
Definition untracked (k : Z) (space : QUICPacketNumberSpace) (ld : QUICLossDetector) : Prop :=
  forall q, ~ In (k, q) (get (sent_packets ld) space).

(** The tables of [ld'] hold nothing that those of [ld] do not hold. *)
Definition tables_within (ld ld' : QUICLossDetector) : Prop :=
  forall space e, In e (get (sent_packets ld') space) -> In e (get (sent_packets ld) space).


(** ** Calls to the collaborators *)

(** Calls to the event processor. *)
Definition is_timer_call (c : Call) : bool :=
  match c with
  | schedule_every _ | timer_cancel => true
  | _ => false
  end.

(** The calls of a log other than those to the event processor. *)
Definition other_calls (l : list Call) : list Call :=
  filter (fun c => negb (is_timer_call c)) l.

(** The log read as the life of the tick handle: [Some armed] after a log
    that schedules only when no tick is scheduled and cancels only a
    scheduled tick, [None] otherwise. *)
Fixpoint tick_after (armed : bool) (l : list Call) : option bool :=
  match l with
  | [] => Some armed
  | schedule_every _ :: rest => if armed then None else tick_after true rest
  | timer_cancel :: rest => if armed then tick_after false rest else None
  | _ :: rest => tick_after armed rest
  end.

(** The calls [_retransmit_lost_packet] makes for a packet. *)
Definition frame_lost_calls (p : QUICPacketInfo) : list Call :=
  flat_map
    (fun frame_info =>
       match generated_by frame_info with
       | Some reactor => [on_frame_lost reactor (frame_id frame_info)]
       | None => []
       end)
    (frames p).

(** The tick handle agrees with the log of the calls to the event
    processor: the tick was never scheduled twice nor cancelled when not
    scheduled, and it is scheduled now exactly when the handle is set. *)
Definition tick_balanced (ld : QUICLossDetector) : Prop :=
  tick_after false (calls ld) = Some (loss_detection_timer ld).

(** Both counters hold a 32-bit value. *)
Definition counters_in_range (ld : QUICLossDetector) : Prop :=
  0 <= ack_eliciting_outstanding ld < 2 ^ 32
  /\ 0 <= crypto_outstanding ld < 2 ^ 32.

(** A client that has no 1-RTT key yet and only the Initial keys. *)
Definition client_context (handshake_key : bool) : QUICContext :=
  mkContext NET_VCONNECTION_OUT
            (fun phase => match phase with
                          | QUICKeyPhase.HANDSHAKE => handshake_key
                          | QUICKeyPhase.INITIAL => true
                          | _ => false
                          end)
            (fun phase => match phase with
                          | QUICKeyPhase.HANDSHAKE => handshake_key
                          | QUICKeyPhase.INITIAL => true
                          | _ => false
                          end).
(** * Properties *)

(** ** Machine arithmetic *)

Arguments u32 : simpl never.
Arguments u64 : simpl never.

Lemma ABS_abs : forall x, ABS x = Z.abs x.
Proof. intros x. unfold ABS. destruct (Z.ltb_spec x 0); lia. Qed.

Lemma u32_small : forall z, 0 <= z < 2 ^ 32 -> u32 z = z.
Proof. intros z H. unfold u32. apply Z.mod_small; exact H. Qed.

Lemma u32_succ : forall z, u32 (u32 z + 1) = u32 (z + 1).
Proof. intros z. unfold u32. apply Zplus_mod_idemp_l. Qed.

Lemma u32_pred : forall z, u32 (u32 z - 1) = u32 (z - 1).
Proof. intros z. unfold u32. apply Zminus_mod_idemp_l. Qed.

(** ** The four smoothing factors are exact binary fractions *)

Lemma three_quarters : Double.div (Double.lit 3) (Double.lit 4) = S754_finite false (3 * 2 ^ 51) (-53).
Proof. vm_compute. reflexivity. Qed.

Lemma one_quarter : Double.div (Double.lit 1) (Double.lit 4) = S754_finite false (2 ^ 52) (-54).
Proof. vm_compute. reflexivity. Qed.

Lemma seven_eighths : Double.div (Double.lit 7) (Double.lit 8) = S754_finite false (7 * 2 ^ 50) (-53).
Proof. vm_compute. reflexivity. Qed.

Lemma one_eighth : Double.div (Double.lit 1) (Double.lit 8) = S754_finite false (2 ^ 52) (-55).
Proof. vm_compute. reflexivity. Qed.


(** Evaluates a closed proposition about a concrete trace and settles the
    conjunctions, equalities, comparisons and [NoDup] facts it reduces to. *)
Ltac evaluate :=
  vm_compute;
  repeat match goal with
         | |- _ /\ _ => split
         | |- True => exact Logic.I
         | |- NoDup _ => constructor
         | |- ~ _ => intro
         | |- _ -> _ => intro
         | H : In _ _ |- _ => vm_compute in H
         | |- _ = _ => reflexivity
         | H : _ \/ _ |- _ => destruct H
         | H : False |- _ => destruct H
         | H : _ = _ |- _ => discriminate H
         end.

(** Settles [forall space k p, In (k, p) table -> _] on concrete tables by
    going through their entries. *)
Ltac evaluate_keys :=
  let I := fresh "I" in
  intros [ | | ] ? ?; vm_compute; intros I;
  repeat (destruct I as [I | I]; [ injection I as <- <-; split; reflexivity | ]);
  destruct I.
Lemma fold_left_preserves :
  forall (S A : Type) (P : S -> Prop) (f : S -> A -> S) (l : list A),
    (forall s a, P s -> P (f s a)) -> forall s, P s -> P (fold_left f l s).
Proof.
  intros S A P f l Hf. induction l as [ | a l IH]; intros s Hs; simpl.
  - exact Hs.
  - apply IH, Hf, Hs.
Qed.

(** ** Properties kept by the detector's operations

    A property [P] of the detector that survives logging a call, the
    assignments to the timer, the alarm, the loss times, the RTT state and
    the send times, and the removal of a tracked packet, survives every
    internal step of the detector. *)

Section Preservation.
Variable P : QUICLossDetector -> Prop.

Hypothesis P_call : forall c ld, P ld -> P (call c ld).
Hypothesis P_loss_time : forall v ld, P ld -> P (set_loss_time v ld).
Hypothesis P_alarm : forall v ld, P ld -> P (set_loss_detection_alarm_at v ld).
Hypothesis P_timer : forall v ld, P ld -> P (set_loss_detection_timer_handle v ld).
Hypothesis P_rtt : forall v ld, P ld -> P (set_rtt_measure v ld).
Hypothesis P_time_ack :
  forall v ld, P ld -> P (set_time_of_last_sent_ack_eliciting_packet v ld).
Hypothesis P_time_crypto :
  forall v ld, P ld -> P (set_time_of_last_sent_crypto_packet v ld).
Hypothesis P_remove :
  forall pn space ld, P ld -> P (_remove_from_sent_packet_list pn space ld).

Ltac keep :=
  repeat first
    [ assumption
    | apply P_call | apply P_loss_time | apply P_alarm | apply P_timer
    | apply P_rtt | apply P_time_ack | apply P_time_crypto | apply P_remove
    | match goal with
      | |- P (fold_left _ _ _) => apply fold_left_preserves; [ intros | ]
      | |- P (if ?b then _ else _) => destruct b
      | |- P (match ?x with Some _ => _ | None => _ end) => destruct x
      | |- P (match ?x with [] => _ | _ :: _ => _ end) => destruct x
      | |- P (let '(_, _) := ?x in _) => destruct x
      end ].

Lemma keep_cancel_loss_detection_timer :
  forall ld, P ld -> P (cancel_loss_detection_timer ld).
Proof. intros ld H. unfold cancel_loss_detection_timer. keep. Qed.

Lemma keep_update_timer : forall time ld, P ld -> P (update_timer time ld).
Proof. intros time ld H. unfold update_timer. cbv zeta. keep. Qed.

Lemma keep_set_loss_detection_timer :
  forall ctx ld, P ld -> P (_set_loss_detection_timer ctx ld).
Proof.
  intros ctx ld H. unfold _set_loss_detection_timer. cbv zeta.
  repeat match goal with
         | |- P (if ?b then _ else _) => destruct b
         end; try apply keep_update_timer; keep.
Qed.

Lemma keep_retransmit_lost_packet :
  forall p ld, P ld -> P (_retransmit_lost_packet p ld).
Proof. intros p ld H. unfold _retransmit_lost_packet. keep. Qed.

Lemma keep_send_packet : forall level padded ld, P ld -> P (_send_packet level padded ld).
Proof. intros level padded ld H. unfold _send_packet. cbv zeta. keep. Qed.

Lemma keep_detect_lost_packets :
  forall now space ld, P ld -> P (_detect_lost_packets now space ld).
Proof.
  intros now space ld H. unfold _detect_lost_packets. cbv zeta.
  match goal with |- P (let '(_, _) := ?x in _) => destruct x as [lt lost] end.
  destruct lost as [ | e lost]; [ keep | ].
  apply fold_left_preserves; [ intros s a Hs | keep ].
  apply P_remove, keep_retransmit_lost_packet, P_call, Hs.
Qed.

Lemma keep_retransmit_all_unacked_crypto_data :
  forall ld, P ld -> P (_retransmit_all_unacked_crypto_data ld).
Proof.
  intros ld H. unfold _retransmit_all_unacked_crypto_data.
  apply fold_left_preserves; [ intros s i Hs | exact H ]. cbv zeta.
  apply fold_left_preserves; [ intros; keep | ].
  apply P_call.
  apply fold_left_preserves; [ intros; apply keep_retransmit_lost_packet; assumption | exact Hs ].
Qed.

Lemma keep_on_loss_detection_timeout :
  forall ctx now ld, P ld -> P (_on_loss_detection_timeout ctx now ld).
Proof.
  intros ctx now ld H. unfold _on_loss_detection_timeout.
  destruct (_get_earliest_loss_time ld) as [t space].
  apply keep_set_loss_detection_timer.
  repeat match goal with
         | |- P (if ?b then _ else _) => destruct b
         end; cbv zeta; try apply P_rtt;
    repeat match goal with
           | |- P (if ?b then _ else _) => destruct b
           end;
    unfold _send_one_handshake_packets, _send_one_padded_packets,
      _send_one_or_two_packet;
    repeat apply keep_send_packet;
    try apply keep_detect_lost_packets;
    try apply keep_retransmit_all_unacked_crypto_data; exact H.
Qed.

Lemma keep_on_packet_acked : forall p ld, P ld -> P (_on_packet_acked p ld).
Proof. intros p ld H. unfold _on_packet_acked. cbv zeta. keep. Qed.

Lemma keep_event_handler :
  forall ctx now event ld, P ld -> P (event_handler ctx now event ld).
Proof.
  intros ctx now event ld H. destruct event; simpl.
  - destruct (loss_detection_alarm_at ld <=? now); [ | exact H ].
    apply keep_on_loss_detection_timeout, P_alarm, H.
  - apply keep_cancel_loss_detection_timer, H.
  - exact H.
Qed.

(** [_on_ack_received] after its first assignment. *)
Lemma keep_on_ack_received :
  forall ctx now ack_frame space ld,
    P (set_largest_acked_packet
         (put (largest_acked_packet ld) space
              (Z.max (get (largest_acked_packet ld) space)
                     (largest_acknowledged ack_frame))) ld) ->
    P (_on_ack_received ctx now ack_frame space ld).
Proof.
  intros ctx now ack_frame space ld H. unfold _on_ack_received. cbv zeta.
  match goal with |- P (match ?x with [] => _ | _ :: _ => _ end) => destruct x as [ | p ps] end;
    [ exact H | ].
  apply keep_set_loss_detection_timer, P_rtt, P_rtt, keep_detect_lost_packets.
  apply fold_left_preserves; [ intros; apply keep_on_packet_acked; assumption | ].
  keep.
Qed.

(** [on_packet_sent], given that the insertion into the table keeps [P]. *)
Lemma keep_on_packet_sent :
  forall ctx packet_info in_flight ld,
    (P ld -> P (_add_to_sent_packet_list (packet_number packet_info) packet_info ld)) ->
    P ld -> P (on_packet_sent ctx packet_info in_flight ld).
Proof.
  intros ctx packet_info in_flight ld Hadd H. unfold on_packet_sent. cbv zeta.
  destruct (QUICPacketType.eqb _ _); [ exact H | ].
  destruct in_flight; [ | apply Hadd, H ].
  apply keep_set_loss_detection_timer, P_call.
  specialize (Hadd H). keep.
Qed.
End Preservation.
(** ** The table of sent packets *)

Lemma count_nonneg : forall f m, 0 <= count f m.
Proof. intros f m. unfold count. lia. Qed.

Lemma count_cons :
  forall f e m, count f (e :: m) = (if f (snd e) then 1 else 0) + count f m.
Proof.
  intros f e m. unfold count. simpl. destruct (f (snd e)); simpl length; lia.
Qed.

Lemma find_none_erase : forall k m, SentPackets.find k m = None -> SentPackets.erase k m = m.
Proof.
  intros k m. induction m as [ | [k' v] m IH]; simpl; intros H.
  - reflexivity.
  - destruct (k' =? k); [ discriminate | ]. rewrite IH by exact H. reflexivity.
Qed.

Lemma count_erase :
  forall f k p m,
    SentPackets.find k m = Some p ->
    count f (SentPackets.erase k m) = count f m - (if f p then 1 else 0).
Proof.
  intros f k p m. induction m as [ | [k' v] m IH]; simpl; intros H.
  - discriminate.
  - destruct (k' =? k).
    + injection H as ->. rewrite count_cons. simpl. lia.
    + rewrite !count_cons, IH by exact H. simpl. lia.
Qed.

Lemma find_insert_fresh :
  forall k v m, SentPackets.find k m = None ->
                SentPackets.find k (SentPackets.insert k v m) = Some v.
Proof.
  intros k v m. induction m as [ | [k' v'] m IH]; simpl; intros H.
  - rewrite Z.eqb_refl. reflexivity.
  - destruct (k' =? k) eqn:E; [ discriminate | ].
    destruct (k <? k'); simpl.
    + rewrite Z.eqb_refl. reflexivity.
    + rewrite E. apply IH, H.
Qed.

Lemma count_insert_fresh :
  forall f k v m,
    SentPackets.find k m = None ->
    count f (SentPackets.insert k v m) = count f m + (if f v then 1 else 0).
Proof.
  intros f k v m. induction m as [ | [k' v'] m IH]; simpl; intros H.
  - rewrite count_cons. unfold count. simpl. lia.
  - destruct (k' =? k) eqn:E; [ discriminate | ].
    destruct (k <? k').
    + rewrite (count_cons f (k, v)). simpl. lia.
    + rewrite !count_cons, IH by exact H. lia.
Qed.

Lemma In_erase : forall e k m, In e (SentPackets.erase k m) -> In e m.
Proof.
  intros e k m. induction m as [ | [k' v] m IH]; simpl; intros H.
  - exact H.
  - destruct (k' =? k); [ right; exact H | ].
    destruct H as [H | H]; [ left; exact H | right; apply IH, H ].
Qed.

Lemma In_insert :
  forall e k v m, In e (SentPackets.insert k v m) -> e = (k, v) \/ In e m.
Proof.
  intros e k v m. induction m as [ | [k' v'] m IH]; simpl; intros H.
  - destruct H as [H | []]. left. symmetry. exact H.
  - destruct (k <? k').
    + destruct H as [H | H]; [ left; symmetry; exact H | right; exact H ].
    + destruct (k' =? k); [ right; exact H | ].
      destruct H as [H | H]; [ right; left; exact H | ].
      destruct (IH H) as [G | G]; [ left; exact G | right; right; exact G ].
Qed.

Lemma find_not_In :
  forall k m, (forall e, In e m -> fst e <> k) -> SentPackets.find k m = None.
Proof.
  intros k m. induction m as [ | [k' v] m IH]; simpl; intros H.
  - reflexivity.
  - destruct (Z.eqb_spec k' k) as [E | E].
    + exfalso. apply (H (k', v)); [ left; reflexivity | exact E ].
    + apply IH. intros e He. apply H. right. exact He.
Qed.

Lemma tracked_nonneg : forall f ld, 0 <= tracked f ld.
Proof.
  intros f ld. unfold tracked, tracked_in.
  pose proof (count_nonneg f (get (sent_packets ld) Initial)).
  pose proof (count_nonneg f (get (sent_packets ld) Handshake)).
  pose proof (count_nonneg f (get (sent_packets ld) ApplicationData)). lia.
Qed.

Lemma get_put_same : forall A (a : PerSpace A) i v, get (put a i v) i = v.
Proof. intros A a i v. destruct i; reflexivity. Qed.

Lemma get_put_other :
  forall A (a : PerSpace A) i j v, i <> j -> get (put a i v) j = get a j.
Proof. intros A a i j v H. destruct i, j; try reflexivity; contradiction. Qed.

Lemma tracked_in_put :
  forall f tables space m,
    tracked_in f (put tables space m)
    = tracked_in f tables - count f (get tables space) + count f m.
Proof. intros f tables space m. unfold tracked_in. destruct space; simpl; lia. Qed.

Lemma counters_ok_remove :
  forall pn space ld,
    counters_ok ld -> counters_ok (_remove_from_sent_packet_list pn space ld).
Proof.
  intros pn space ld [Ha Hc]. unfold _remove_from_sent_packet_list. cbv zeta.
  unfold counters_ok, tracked in *.
  destruct (SentPackets.find pn (get (sent_packets ld) space)) as [p | ] eqn:F.
  - assert (S : sent_packets (_decrement_outstanding_counters (Some p) ld) = sent_packets ld).
    { simpl. destruct (is_crypto_packet p), (ack_eliciting p); reflexivity. }
    rewrite S. cbn [sent_packets ack_eliciting_outstanding crypto_outstanding set_sent_packets].
    rewrite !tracked_in_put, !(count_erase _ _ _ _ F). simpl.
    destruct (is_crypto_packet p), (ack_eliciting p); simpl;
      rewrite ?Ha, ?Hc, ?u32_pred; split; f_equal; lia.
  - simpl. rewrite (find_none_erase _ _ F), !tracked_in_put. split.
    + rewrite Ha. f_equal. lia.
    + rewrite Hc. f_equal. lia.
Qed.

Lemma counters_ok_add :
  forall packet_info ld,
    SentPackets.find (packet_number packet_info)
      (get (sent_packets ld) (pn_space packet_info)) = None ->
    counters_ok ld ->
    counters_ok (_add_to_sent_packet_list (packet_number packet_info) packet_info ld).
Proof.
  intros p ld F [Ha Hc]. unfold _add_to_sent_packet_list. cbv zeta. simpl.
  rewrite get_put_same, (find_insert_fresh _ p _ F).
  unfold counters_ok, tracked in *.
  destruct (is_crypto_packet p) eqn:C, (ack_eliciting p) eqn:A; simpl;
    rewrite !tracked_in_put, !(count_insert_fresh _ _ _ _ F), ?C, ?A, ?Ha, ?Hc, ?u32_succ;
    split; f_equal; lia.
Qed.

(** ** The outstanding counters over traces *)

(** Discharges the side conditions of the lemmas of [Preservation] for a
    property that does not read the assigned member. *)
Ltac by_frame := try (intros; assumption).

Lemma counters_ok_reset : forall ld, counters_ok (reset ld).
Proof. intros ld. unfold counters_ok. split; reflexivity. Qed.

Lemma counters_ok_step :
  forall ctx op ld, fresh_send ld op -> counters_ok ld -> counters_ok (step ctx ld op).
Proof.
  intros ctx op ld F H. destruct op as [p fl | now level frame | now event | e | ]; simpl.
  - destruct (QUICPacketType.eqb (ptype p) QUICPacketType.VERSION_NEGOTIATION) eqn:V.
    + unfold on_packet_sent. rewrite V. exact H.
    + apply keep_on_packet_sent; by_frame.
      intros _. apply counters_ok_add; [ apply F; exact V | exact H ].
  - destruct frame as [f | ty]; simpl; [ | exact H ].
    apply keep_on_ack_received; by_frame. apply counters_ok_remove.
  - apply keep_event_handler; by_frame. apply counters_ok_remove.
  - exact H.
  - apply counters_ok_reset.
Qed.

Lemma every_step_app :
  forall ctx C ops1 ops2 ld,
    every_step ctx C (ops1 ++ ops2) ld -> every_step ctx C ops1 ld.
Proof.
  intros ctx C ops1. induction ops1 as [ | op ops1 IH]; intros ops2 ld H; simpl in *.
  - exact Logic.I.
  - destruct H as [O H]. split; [ exact O | apply (IH ops2), H ].
Qed.

(** An invariant kept by every step that satisfies [C] holds at the end of
    a trace whose steps satisfy [C]. *)
Lemma every_step_preserves :
  forall ctx (C : QUICLossDetector -> Op -> Prop) (I : QUICLossDetector -> Prop),
    (forall ld op, I ld -> C ld op -> I (step ctx ld op)) ->
    forall ops ld, I ld -> every_step ctx C ops ld -> I (run ctx ops ld).
Proof.
  intros ctx C I Hstep ops. induction ops as [ | op ops IH]; intros ld H E.
  - exact H.
  - destruct E as [O E]. simpl. apply IH; [ apply Hstep; assumption | exact E ].
Qed.

Lemma counters_ok_run :
  forall ctx ops ld,
    counters_ok ld -> every_step ctx counted_step ops ld ->
    counters_ok (run ctx ops ld).
Proof.
  intros ctx ops ld C E.
  apply (every_step_preserves ctx counted_step counters_ok); [ | exact C | exact E ].
  intros s op H [F _]. apply counters_ok_step; assumption.
Qed.

Lemma sent_packets_add :
  forall p ld,
    sent_packets (_add_to_sent_packet_list (packet_number p) p ld)
    = put (sent_packets ld) (pn_space p)
          (SentPackets.insert (packet_number p) p (get (sent_packets ld) (pn_space p))).
Proof.
  intros p ld. unfold _add_to_sent_packet_list. cbv zeta.
  match goal with |- sent_packets (match ?x with Some _ => _ | None => _ end) = _ =>
    destruct x as [q | ] end; [ | reflexivity ].
  destruct (is_crypto_packet q), (ack_eliciting q); reflexivity.
Qed.
(** ** A scheduled tick has an alarm *)


















(** ** The largest acknowledged packet number *)

Lemma largest_acked_packet_remove :
  forall pn space ld,
    largest_acked_packet (_remove_from_sent_packet_list pn space ld)
    = largest_acked_packet ld.
Proof.
  intros pn space ld. unfold _remove_from_sent_packet_list. cbv zeta. simpl.
  destruct (SentPackets.find pn (get (sent_packets ld) space)) as [p | ]; simpl;
    [ destruct (is_crypto_packet p), (ack_eliciting p) | ]; reflexivity.
Qed.

Lemma largest_acked_packet_add :
  forall pn p ld,
    largest_acked_packet (_add_to_sent_packet_list pn p ld) = largest_acked_packet ld.
Proof.
  intros pn p ld. unfold _add_to_sent_packet_list. cbv zeta.
  match goal with |- largest_acked_packet (match ?x with Some _ => _ | None => _ end) = _ =>
    destruct x as [q | ] end; [ | reflexivity ].
  destruct (is_crypto_packet q), (ack_eliciting q); reflexivity.
Qed.

Ltac largest_frame :=
  try (intros; assumption);
  try (intros; rewrite largest_acked_packet_remove; assumption).

Lemma largest_acked_packet_on_ack_received :
  forall ctx now ack_frame space ld,
    largest_acked_packet (_on_ack_received ctx now ack_frame space ld)
    = put (largest_acked_packet ld) space
          (Z.max (get (largest_acked_packet ld) space) (largest_acknowledged ack_frame)).
Proof.
  intros ctx now ack_frame space ld.
  apply (keep_on_ack_received
           (fun ld' => largest_acked_packet ld' =
                       put (largest_acked_packet ld) space
                           (Z.max (get (largest_acked_packet ld) space)
                                  (largest_acknowledged ack_frame))));
    largest_frame.
  reflexivity.
Qed.

Lemma largest_acked_packet_event_handler :
  forall ctx now event ld,
    largest_acked_packet (event_handler ctx now event ld) = largest_acked_packet ld.
Proof.
  intros ctx now event ld.
  apply (keep_event_handler (fun ld' => largest_acked_packet ld' = largest_acked_packet ld));
    largest_frame.
  reflexivity.
Qed.

Lemma largest_acked_packet_on_packet_sent :
  forall ctx p fl ld,
    largest_acked_packet (on_packet_sent ctx p fl ld) = largest_acked_packet ld.
Proof.
  intros ctx p fl ld.
  apply (keep_on_packet_sent (fun ld' => largest_acked_packet ld' = largest_acked_packet ld));
    largest_frame.
  - intros _. apply largest_acked_packet_add.
  - reflexivity.
Qed.

Lemma largest_acked_packet_reset :
  forall ld space, get (largest_acked_packet (reset ld)) space = 0.
Proof. intros ld space. destruct space; reflexivity. Qed.

Lemma largest_acked_packet_step :
  forall ctx op ld space,
    op <> OpReset ->
    get (largest_acked_packet ld) space
    <= get (largest_acked_packet (step ctx ld op)) space.
Proof.
  intros ctx op ld space N.
  destruct op as [p fl | now level frame | now event | e | ]; simpl.
  - rewrite largest_acked_packet_on_packet_sent. lia.
  - destruct frame as [f | ty]; simpl; [ | lia ].
    rewrite largest_acked_packet_on_ack_received.
    destruct space, (pn_space_of_level level); simpl; lia.
  - rewrite largest_acked_packet_event_handler. lia.
  - lia.
  - contradiction.
Qed.

(** ** Loss detection over an ordered table *)

Lemma ordered_tail : forall e m, ordered (e :: m) -> ordered m.
Proof. intros e m [_ H]. exact H. Qed.

Lemma insert_last :
  forall k v m,
    Forall (fun e => fst e < k) m -> SentPackets.insert k v m = m ++ [(k, v)].
Proof.
  intros k v m F. induction F as [ | [k' v'] m H F IH]; simpl.
  - reflexivity.
  - simpl in H.
    destruct (Z.ltb_spec k k') as [C | _]; [ lia | ].
    destruct (Z.eqb_spec k' k) as [C | _]; [ lia | ].
    rewrite IH. reflexivity.
Qed.

(** Past the largest acknowledged number nothing is scanned: stopping at
    the first larger key is the same as skipping the larger keys. *)
Lemma filter_above :
  forall (largest k : Z) (q : Z * QUICPacketInfo -> bool) m,
    largest < k ->
    Forall (fun e' => k < fst e') m ->
    filter (fun e => (fst e <=? largest) && q e) m = [].
Proof.
  intros largest k q m L F. induction F as [ | e m H F IH]; simpl.
  - reflexivity.
  - destruct (Z.leb_spec (fst e) largest) as [C | _]; [ lia | ]. simpl. exact IH.
Qed.

Lemma scan_sent_packets_spec :
  forall largest lost_send_time lost_pn loss_delay table lt lost,
    ordered table ->
    Forall (fun l => Forall (fun e => fst l < fst e) table) lost ->
    scan_sent_packets largest lost_send_time lost_pn loss_delay table lt lost
    = (fold_left
         (fun lt e =>
            if lt =? 0 then time_sent (snd e) + loss_delay
            else Z.min lt (time_sent (snd e) + loss_delay))
         (filter (fun e => (fst e <=? largest)
                           && negb (deemed_lost lost_send_time lost_pn (snd e)))
                 table)
         lt,
       lost ++ filter (fun e => (fst e <=? largest)
                                && (in_flight (snd e)
                                    && deemed_lost lost_send_time lost_pn (snd e)))
                      table).
Proof.
  intros largest lost_send_time lost_pn loss_delay table.
  induction table as [ | [key unacked] rest IH]; intros lt lost O B; simpl.
  - rewrite app_nil_r. reflexivity.
  - destruct O as [A O].
    assert (B' : Forall (fun l => Forall (fun e => fst l < fst e) rest) lost).
    { eapply Forall_impl; [ | exact B ]. intros l Hl. inversion Hl; assumption. }
    assert (K : Forall (fun l => fst l < key) lost).
    { eapply Forall_impl; [ | exact B ]. intros l Hl. inversion Hl; assumption. }
    rewrite Z.gtb_ltb.
    destruct (Z.ltb_spec largest key) as [G | G].
    + destruct (Z.leb_spec key largest) as [C | _]; [ lia | ]. simpl.
      rewrite (filter_above largest key _ rest G A).
      rewrite (filter_above largest key _ rest G A).
      rewrite app_nil_r. reflexivity.
    + destruct (Z.leb_spec key largest) as [_ | C]; [ | lia ]. simpl.
      change ((time_sent unacked <? lost_send_time)
              || (packet_number unacked <? lost_pn))
        with (deemed_lost lost_send_time lost_pn unacked).
      destruct (deemed_lost lost_send_time lost_pn unacked) eqn:D;
        rewrite ?andb_false_r, ?andb_true_r; simpl.
      * destruct (in_flight unacked) eqn:Fl; simpl.
        -- rewrite IH; [ | exact O | ].
           ++ rewrite (insert_last key unacked lost K), <- app_assoc. reflexivity.
           ++ rewrite (insert_last key unacked lost K).
              apply Forall_app. split; [ exact B' | ].
              constructor; [ exact A | constructor ].
        -- rewrite IH by assumption. reflexivity.
      * destruct (lt =? 0); rewrite IH by assumption; reflexivity.
Qed.

(** Removing the entries that satisfy [q], key by key. *)
Lemma erase_other_keys :
  forall (l : SentPackets.t) e m,
    Forall (fun e' => fst e < fst e') l ->
    fold_left (fun t e' => SentPackets.erase (fst e') t) l (e :: m)
    = e :: fold_left (fun t e' => SentPackets.erase (fst e') t) l m.
Proof.
  intros l e. induction l as [ | e' l IH]; intros m F; simpl.
  - reflexivity.
  - inversion F as [ | ? ? H F' ]; subst. destruct e as [k v]. simpl in *.
    destruct (Z.eqb_spec k (fst e')) as [C | _]; [ lia | ].
    apply IH. exact F'.
Qed.

Lemma erase_filter :
  forall (q : Z * QUICPacketInfo -> bool) m,
    ordered m ->
    fold_left (fun t e => SentPackets.erase (fst e) t) (filter q m) m
    = filter (fun e => negb (q e)) m.
Proof.
  intros q m. induction m as [ | [k v] m IH]; intros O; simpl.
  - reflexivity.
  - destruct O as [A O]. destruct (q (k, v)); simpl.
    + rewrite Z.eqb_refl. apply IH, O.
    + rewrite erase_other_keys.
      * rewrite IH by exact O. reflexivity.
      * clear IH O. induction A as [ | e m H A IH]; simpl.
        -- constructor.
        -- destruct (q e); [ constructor; assumption | assumption ].
Qed.

Lemma sent_packets_remove :
  forall pn space ld,
    sent_packets (_remove_from_sent_packet_list pn space ld)
    = put (sent_packets ld) space (SentPackets.erase pn (get (sent_packets ld) space)).
Proof.
  intros pn space ld. unfold _remove_from_sent_packet_list. cbv zeta.
  destruct (SentPackets.find pn (get (sent_packets ld) space)) as [p | ]; simpl;
    [ destruct (is_crypto_packet p), (ack_eliciting p) | ]; reflexivity.
Qed.

Lemma loss_time_remove :
  forall pn space ld,
    loss_time (_remove_from_sent_packet_list pn space ld) = loss_time ld.
Proof.
  intros pn space ld. unfold _remove_from_sent_packet_list. cbv zeta.
  destruct (SentPackets.find pn (get (sent_packets ld) space)) as [p | ]; simpl;
    [ destruct (is_crypto_packet p), (ack_eliciting p) | ]; reflexivity.
Qed.

Lemma sent_packets_retransmit_lost_packet :
  forall p ld, sent_packets (_retransmit_lost_packet p ld) = sent_packets ld.
Proof.
  intros p ld.
  apply (keep_retransmit_lost_packet (fun ld' => sent_packets ld' = sent_packets ld));
    [ intros; assumption | reflexivity ].
Qed.

Lemma loss_time_retransmit_lost_packet :
  forall p ld, loss_time (_retransmit_lost_packet p ld) = loss_time ld.
Proof.
  intros p ld.
  apply (keep_retransmit_lost_packet (fun ld' => loss_time ld' = loss_time ld));
    [ intros; assumption | reflexivity ].
Qed.

(** The loop of [_detect_lost_packets] over the lost packets. *)
Lemma remove_lost_packets :
  forall space (lost : SentPackets.t) ld,
    let ld' :=
      fold_left
        (fun ld lost_packet =>
           let ld := call (trigger_PACKET_LOST (snd lost_packet)) ld in
           let ld := _retransmit_lost_packet (snd lost_packet) ld in
           _remove_from_sent_packet_list (fst lost_packet) space ld)
        lost ld in
    loss_time ld' = loss_time ld
    /\ get (sent_packets ld') space
       = fold_left (fun t e => SentPackets.erase (fst e) t) lost
                   (get (sent_packets ld) space).
Proof.
  intros space lost. induction lost as [ | e lost IH]; intros ld; simpl.
  - split; reflexivity.
  - cbv zeta in IH.
    match goal with |- context [fold_left _ lost ?x] => destruct (IH x) as [L S] end.
    rewrite L, S. clear L S IH.
    rewrite loss_time_remove, loss_time_retransmit_lost_packet.
    rewrite sent_packets_remove, sent_packets_retransmit_lost_packet.
    simpl. rewrite get_put_same. split; reflexivity.
Qed.

Lemma detect_lost_packets_spec :
  forall now space ld,
    ordered (get (sent_packets ld) space) ->
    let r := rtt_measure ld in
    let loss_delay :=
      Z.min (Double.to_int64
               (Double.mul (k_time_threshold ld)
                  (Double.of_int64
                     (Z.max (QUICRTTMeasure.latest_rtt r)
                            (QUICRTTMeasure.smoothed_rtt r)))))
            (QUICRTTMeasure.k_granularity r) in
    let largest := get (largest_acked_packet ld) space in
    let lost_pn := u64 (largest - k_packet_threshold ld) in
    let ld' := _detect_lost_packets now space ld in
    get (sent_packets ld') space
    = filter (fun e => negb ((fst e <=? largest)
                             && (in_flight (snd e)
                                 && deemed_lost (now - loss_delay) lost_pn (snd e))))
             (get (sent_packets ld) space)
    /\ get (loss_time ld') space
       = survivors_loss_time loss_delay
           (filter (fun e => (fst e <=? largest)
                             && negb (deemed_lost (now - loss_delay) lost_pn (snd e)))
                   (get (sent_packets ld) space)).
Proof.
  intros now space ld O r loss_delay largest lost_pn ld'.
  subst ld'. unfold _detect_lost_packets. cbv zeta.
  cbn [rtt_measure largest_acked_packet sent_packets loss_time k_time_threshold
       k_packet_threshold set_loss_time].
  rewrite get_put_same.
  fold r. fold loss_delay. fold largest. fold lost_pn.
  rewrite (scan_sent_packets_spec largest (now - loss_delay) lost_pn loss_delay
             (get (sent_packets ld) space) 0 [] O (Forall_nil _)).
  simpl app.
  fold (survivors_loss_time loss_delay
          (filter (fun e => (fst e <=? largest)
                            && negb (deemed_lost (now - loss_delay) lost_pn (snd e)))
                  (get (sent_packets ld) space))).
  set (lt := survivors_loss_time _ _).
  set (q := fun e : Z * QUICPacketInfo =>
              (fst e <=? largest)
              && (in_flight (snd e) && deemed_lost (now - loss_delay) lost_pn (snd e))).
  pose proof (erase_filter q (get (sent_packets ld) space) O) as E.
  destruct (filter q (get (sent_packets ld) space)) as [ | l lost] eqn:Q.
  - simpl in *. rewrite get_put_same. split; [ exact E | reflexivity ].
  - match goal with |- context [fold_left ?f ?l0 ?x] =>
      destruct (remove_lost_packets space l0 x) as [L S] end.
    cbv zeta in L, S. rewrite L, S. simpl loss_time. simpl sent_packets.
    rewrite get_put_same. split; [ exact E | reflexivity ].
Qed.

Lemma survivors_loss_time_fold :
  forall loss_delay (l : SentPackets.t) a,
    0 <= a ->
    Forall (fun e => 0 < time_sent (snd e) + loss_delay) l ->
    let r :=
      fold_left
        (fun lt e =>
           if lt =? 0 then time_sent (snd e) + loss_delay
           else Z.min lt (time_sent (snd e) + loss_delay))
        l a in
    (0 < a -> 0 < r <= a)
    /\ (forall e, In e l -> 0 < r <= time_sent (snd e) + loss_delay).
Proof.
  intros loss_delay l. induction l as [ | x l IH]; intros a A F; simpl.
  - split; [ lia | intros e [] ].
  - inversion F as [ | ? ? X F' ]; subst.
    set (a' := if a =? 0 then time_sent (snd x) + loss_delay
               else Z.min a (time_sent (snd x) + loss_delay)).
    assert (P : 0 < a' /\ a' <= time_sent (snd x) + loss_delay /\ (0 < a -> a' <= a)).
    { subst a'. destruct (Z.eqb_spec a 0); lia. }
    destruct (IH a' ltac:(lia) F') as [R1 R2]. cbv zeta in R1, R2.
    specialize (R1 ltac:(lia)). split.
    + intros Ha. lia.
    + intros e [<- | I]; [ lia | apply R2, I ].
Qed.

Lemma survivors_loss_time_min :
  forall loss_delay survivors,
    (forall e, In e survivors -> 0 < time_sent (snd e) + loss_delay) ->
    forall e, In e survivors ->
      0 < survivors_loss_time loss_delay survivors <= time_sent (snd e) + loss_delay.
Proof.
  intros loss_delay survivors H e I. unfold survivors_loss_time.
  apply (survivors_loss_time_fold loss_delay survivors 0); [ lia | | exact I ].
  apply Forall_forall. exact H.
Qed.

(** *** Every table the detector builds is ordered *)

Lemma Forall_erase :
  forall (Q : Z * QUICPacketInfo -> Prop) k m,
    Forall Q m -> Forall Q (SentPackets.erase k m).
Proof.
  intros Q k m F. apply Forall_forall. intros e I.
  apply In_erase in I. revert e I. apply Forall_forall. exact F.
Qed.

Lemma ordered_erase : forall k m, ordered m -> ordered (SentPackets.erase k m).
Proof.
  intros k m. induction m as [ | [k' v] m IH]; simpl; intros O.
  - exact O.
  - destruct O as [A O]. destruct (k' =? k); [ exact O | ].
    simpl. split; [ apply Forall_erase, A | apply IH, O ].
Qed.

Lemma ordered_insert :
  forall k v m, ordered m -> ordered (SentPackets.insert k v m).
Proof.
  intros k v m. induction m as [ | [k' v'] m IH]; simpl; intros O.
  - split; [ constructor | exact Logic.I ].
  - destruct O as [A O].
    destruct (Z.ltb_spec k k') as [L | L].
    + simpl. split; [ | split; assumption ].
      constructor; [ exact L | ].
      eapply Forall_impl; [ | exact A ]. simpl. intros e He. lia.
    + destruct (Z.eqb_spec k' k) as [E | E]; [ split; assumption | ].
      simpl. split; [ | apply IH, O ].
      apply Forall_forall. intros e I. apply In_insert in I.
      destruct I as [-> | I]; [ simpl; lia | ].
      revert e I. apply Forall_forall. exact A.
Qed.

Lemma tables_ordered_remove :
  forall pn space ld,
    tables_ordered ld -> tables_ordered (_remove_from_sent_packet_list pn space ld).
Proof.
  intros pn space ld H sp. rewrite sent_packets_remove.
  pose proof (H Initial) as H0. pose proof (H Handshake) as H1.
  pose proof (H ApplicationData) as H2.
  destruct space, sp; simpl in *; try assumption; apply ordered_erase; assumption.
Qed.

Lemma tables_ordered_step :
  forall ctx op ld, tables_ordered ld -> tables_ordered (step ctx ld op).
Proof.
  intros ctx op ld H.
  destruct op as [p fl | now level frame | now event | e | ]; simpl.
  - apply keep_on_packet_sent; try (intros; assumption).
    intros _ sp. rewrite sent_packets_add.
    pose proof (H Initial) as H0. pose proof (H Handshake) as H1.
    pose proof (H ApplicationData) as H2.
    destruct (pn_space p), sp; simpl in *; try assumption;
      apply ordered_insert; assumption.
  - destruct frame as [f | ty]; simpl; [ | exact H ].
    apply keep_on_ack_received; try (intros; assumption).
    apply tables_ordered_remove.
  - apply keep_event_handler; try (intros; assumption).
    apply tables_ordered_remove.
  - exact H.
  - intros sp. destruct sp; exact Logic.I.
Qed.

Lemma tables_ordered_run :
  forall ctx ld_config rtt ops,
    tables_ordered (run ctx ops (new_loss_detector ld_config rtt)).
Proof.
  intros ctx ld_config rtt ops. unfold run.
  apply fold_left_preserves.
  - intros s a. apply tables_ordered_step.
  - intros sp. destruct sp; exact Logic.I.
Qed.

(** ** The timer and the alarm *)

(** When [_set_loss_detection_timer] finds nothing to wait for, no tick
    handle is left behind: clearing the alarm goes with cancelling the tick. *)
Lemma idle_timer_is_cancelled :
  forall ctx ld,
    fst (_get_earliest_loss_time ld) = 0 ->
    crypto_outstanding ld <= 0 ->
    _is_client_without_one_rtt_key ctx = false ->
    ack_eliciting_outstanding ld = 0 ->
    loss_detection_timer (_set_loss_detection_timer ctx ld) = false.
Proof.
  intros ctx ld E C K A. unfold _set_loss_detection_timer. cbv zeta.
  rewrite E, K, A. simpl.
  destruct (Z.ltb_spec 0 (crypto_outstanding ld)) as [G | _]; [ lia | ]. simpl.
  destruct (loss_detection_timer ld) eqn:T; [ reflexivity | exact T ].
Qed.

(** ** Scenarios *)

(** One packet sent at 0 and acknowledged at 30 ms: the table is empty, the
    first sample gives smoothed_rtt = 30 ms and rttvar = 15 ms, nothing is
    outstanding and the timer is disarmed. *)
Example single_packet_single_ack :
  let ld := run Scenario.server [Scenario.send 1 0; Scenario.ack 30000000 1 0]
                Scenario.detector in
  get (sent_packets ld) ApplicationData = []
  /\ QUICRTTMeasure.smoothed_rtt (rtt_measure ld) = 30000000
  /\ QUICRTTMeasure.rttvar (rtt_measure ld) = 15000000
  /\ ack_eliciting_outstanding ld = 0
  /\ loss_detection_timer ld = false
  /\ loss_detection_alarm_at ld = 0.
Proof. cbv zeta. repeat (split; [ vm_compute; reflexivity | ]). vm_compute. reflexivity. Qed.

(** A frame whose ranges, computed modulo 2^64, come back to a tracked
    packet lists its descriptor twice.  Packet 10 is tracked; the frame
    acknowledges 10, then its blocks go below zero and wrap around down to
    10 again (every field is below 2^62). *)
Example overlapping_ranges_list_a_descriptor_twice :
  let ld := run Scenario.server [Scenario.send 10 0] Scenario.detector in
  let ack_frame :=
    mkAckFrame 10 0 0 [(9, 0); (2 ^ 62 - 1, 2 ^ 62 - 1); (2 ^ 62 - 1, 2 ^ 62 - 12)]
               None in
  map packet_number (_determine_newly_acked_packets ack_frame ApplicationData ld)
  = [10; 10]
  /\ ~ acks_once ack_frame ApplicationData ld.
Proof.
  cbv zeta. split; [ vm_compute; reflexivity | ].
  intros N. vm_compute in N. inversion N as [ | x l I _ E]. apply I. left. reflexivity.
Qed.
(** ** The RTT estimator *)

Section RTT.
Import QUICRTTMeasure.


Lemma min_rtt_update_rtt :
  forall latest ack_delay r,
    min_rtt r = 0 -> 0 <= latest -> min_rtt (update_rtt latest ack_delay r) = 0.
Proof.
  intros latest ack_delay r M L. unfold update_rtt.
  destruct (smoothed_rtt r =? 0); simpl; [ reflexivity | lia ].
Qed.

Lemma min_rtt_update_rtt_samples :
  forall samples r,
    min_rtt r = 0 -> Forall (fun s => 0 <= fst s) samples ->
    min_rtt (update_rtt_samples samples r) = 0.
Proof.
  intros samples r M F. revert r M.
  induction F as [ | s samples Hs F IH]; intros r M; simpl.
  - exact M.
  - apply IH, min_rtt_update_rtt; assumption.
Qed.

Lemma update_rtt_with_min_rtt_zero :
  forall latest ack_delay r,
    min_rtt r = 0 -> smoothed_rtt r <> 0 -> 0 <= latest ->
    update_rtt latest ack_delay r = update_rtt_ignoring_min_rtt latest ack_delay r.
Proof.
  intros latest ack_delay r M S L.
  unfold update_rtt, update_rtt_ignoring_min_rtt.
  destruct (Z.eqb_spec (smoothed_rtt r) 0) as [E | _]; [ contradiction | ].
  cbv zeta. rewrite M.
  replace (Z.min 0 latest) with 0 by lia. reflexivity.
Qed.

End RTT.

(** * The claims *)

(** C1 (the code departs from the claim).  [_get_earliest_loss_time] does
    not return the minimum of the non-zero loss times.  With loss times
    (Initial, Handshake, ApplicationData) = (0, 5, 0) it returns 0, so the
    timer is not armed in time-threshold mode although a loss time is set;
    with (3, 5, 0) it returns 5 for Handshake instead of 3 for Initial, and
    the alarm is set to 5. *)
Theorem get_earliest_loss_time_is_not_the_minimum :
  _get_earliest_loss_time (set_loss_time (mkPerSpace 0 5 0) Scenario.detector)
  = (0, Initial)
  /\ _get_earliest_loss_time (set_loss_time (mkPerSpace 3 5 0) Scenario.detector)
     = (5, Handshake)
  /\ loss_detection_alarm_at
       (_set_loss_detection_timer Scenario.server
          (set_loss_time (mkPerSpace 3 5 0) Scenario.detector)) = 5.
Proof. split; [ | split ]; vm_compute; reflexivity. Qed.




Section RTTClaims.
Import QUICRTTMeasure.

(** C4.  [update_rtt latest ack_delay]: when smoothed_rtt is 0 (first
    sample) it sets smoothed_rtt to latest, rttvar to latest/2 and min_rtt to
    0.  Otherwise it sets min_rtt to min(min_rtt, latest), clamps ack_delay
    to max_ack_delay, subtracts it from latest only if
    latest > min_rtt + ack_delay, and sets
    rttvar = 3/4 rttvar + 1/4 |smoothed_rtt - adjusted| and
    smoothed_rtt = 7/8 smoothed_rtt + 1/8 adjusted, both evaluated in binary64
    (the four factors are the exact binary fractions) and truncated to an
    integer.  In both cases latest_rtt records the sample and the other
    members are unchanged. *)
Theorem update_rtt_as_specified : forall latest ack_delay r,
  let r' := update_rtt latest ack_delay r in
  (smoothed_rtt r = 0 ->
     smoothed_rtt r' = latest /\ rttvar r' = Z.quot latest 2 /\ min_rtt r' = 0) /\
  (smoothed_rtt r <> 0 ->
     let m := Z.min (min_rtt r) latest in
     let d := Z.min ack_delay (max_ack_delay r) in
     let adjusted := if Z_lt_dec (m + d) latest then latest - d else latest in
     min_rtt r' = m /\
     rttvar r' =
       Double.to_int64
         (Double.add
            (Double.mul (S754_finite false (3 * 2 ^ 51) (-53)) (Double.of_int64 (rttvar r)))
            (Double.mul (S754_finite false (2 ^ 52) (-54))
                        (Double.of_int64 (Z.abs (smoothed_rtt r - adjusted))))) /\
     smoothed_rtt r' =
       Double.to_int64
         (Double.add
            (Double.mul (S754_finite false (7 * 2 ^ 50) (-53)) (Double.of_int64 (smoothed_rtt r)))
            (Double.mul (S754_finite false (2 ^ 52) (-55)) (Double.of_int64 adjusted)))) /\
  latest_rtt r' = latest /\
  max_ack_delay r' = max_ack_delay r /\
  crypto_count r' = crypto_count r /\
  pto_count r' = pto_count r /\
  k_granularity r' = k_granularity r /\
  k_initial_rtt r' = k_initial_rtt r.
Proof.
  intros latest ack_delay r r'. subst r'. unfold update_rtt.
  rewrite three_quarters, one_quarter, seven_eighths, one_eighth.
  destruct (Z.eqb_spec (smoothed_rtt r) 0) as [E | E].
  - split; [ | split; [ intros C; contradiction | repeat split ] ].
    intros _. repeat split.
  - split; [ intros C; contradiction | ].
    split; [ | repeat split ].
    intros _. cbv zeta. rewrite ABS_abs. 
    destruct (Z_lt_dec (Z.min (min_rtt r) latest + Z.min ack_delay (max_ack_delay r)) latest) as [H | H].
    + assert (G : (latest >? Z.min (min_rtt r) latest + Z.min ack_delay (max_ack_delay r)) = true)
        by (apply Z.gtb_lt; exact H).
      rewrite G. repeat split.
    + assert (G : (latest >? Z.min (min_rtt r) latest + Z.min ack_delay (max_ack_delay r)) = false).
      { rewrite Z.gtb_ltb. apply Z.ltb_ge. lia. }
      rewrite G. repeat split.
Qed.

Lemma update_rtt_as_specified_witness :
  let fresh := new_rtt_measure Scenario.ld_config 25000000 in
  let first := update_rtt 30000000 0 fresh in
  let second := update_rtt 20000000 1000000 first in
  (smoothed_rtt first = 30000000 /\ rttvar first = 15000000 /\ min_rtt first = 0)
  /\ (min_rtt second = 0 /\ rttvar second = 14000000 /\ smoothed_rtt second = 28625000).
Proof.
  intros fresh first second. split.
  - apply (proj1 (update_rtt_as_specified 30000000 0 fresh)). vm_compute. reflexivity.
  - assert (N : smoothed_rtt first <> 0) by (vm_compute; discriminate).
    pose proof (proj1 (proj2 (update_rtt_as_specified 20000000 1000000 first)) N) as H.
    cbv zeta in H. destruct H as [M [V S]]. subst second.
    split; [ exact M | ].
    split; [ rewrite V | rewrite S ]; vm_compute; reflexivity.
Defined.

End RTTClaims.



(** C6 (the code departs from the claim).  With packet threshold 3, packets
    0 and 1 are sent at 1 ms and an ACK of packet 1 alone arrives at 1.8 ms.
    The largest acknowledged number, 1, is below the threshold and
    lost_pn = 1 - 3 wraps to 2^64 - 2.  Packet 0 is not old enough to be lost
    by time (the scan with a cutoff of 0 for packet numbers keeps it and sets
    its loss time), yet it is declared lost and removed. *)
Theorem lost_pn_wraps_below_packet_threshold :
  let sent := run Scenario.server [Scenario.send 0 1000000; Scenario.send 1 1000000]
                  Scenario.detector in
  let ld := step Scenario.server sent (Scenario.ack 1800000 1 0) in
  k_packet_threshold sent = 3
  /\ get (largest_acked_packet ld) ApplicationData = 1
  /\ u64 (get (largest_acked_packet ld) ApplicationData - k_packet_threshold sent)
     = 2 ^ 64 - 2
  /\ scan_sent_packets 1 (1800000 - 900000) 0 900000
       [(0, Scenario.packet 0 1000000)] 0 [] = (1900000, [])
  /\ scan_sent_packets 1 (1800000 - 900000) (2 ^ 64 - 2) 900000
       [(0, Scenario.packet 0 1000000)] 0 [] = (0, [(0, Scenario.packet 0 1000000)])
  /\ In (cc_on_packets_lost [(0, Scenario.packet 0 1000000)]) (calls ld)
  /\ get (sent_packets ld) ApplicationData = [].
Proof.
  cbv zeta.
  split; [ vm_compute; reflexivity | ]. split; [ vm_compute; reflexivity | ].
  split; [ vm_compute; reflexivity | ]. split; [ vm_compute; reflexivity | ].
  split; [ vm_compute; reflexivity | ]. split; [ | vm_compute; reflexivity ].
  vm_compute. do 5 right. left. reflexivity.
Qed.

(** C7 (counterexample).  A packet number sent twice while it is tracked is
    counted twice and tracked once: after two packets numbered 1,
    ack_eliciting_outstanding is 2 and one descriptor with ack_eliciting set
    is tracked. *)
Lemma packet_number_sent_twice :
  let ld := run Scenario.server [Scenario.send 1 0; Scenario.send 1 1000000]
                Scenario.detector in
  ack_eliciting_outstanding ld = 2
  /\ tracked ack_eliciting ld = 1
  /\ ack_eliciting_outstanding ld <> u32 (tracked ack_eliciting ld).
Proof.
  cbv zeta. split; [ vm_compute; reflexivity | ].
  split; [ vm_compute; reflexivity | ]. vm_compute. discriminate.
Qed.

(** C7 (amended).  From the constructed detector, along every trace of
    operations in which each tracked packet is sent under a number that is
    not in the table of its space at that moment and each ACK frame lists no
    descriptor twice, and at every point of the trace,
    ack_eliciting_outstanding is the number of tracked descriptors with
    ack_eliciting set and crypto_outstanding the number of tracked
    descriptors with is_crypto_packet set, over the three spaces.  The
    counters are 32 bits wide: the equality is modulo 2^32, hence exact
    while fewer than 2^32 such descriptors are tracked. *)
Theorem outstanding_counters_match_tracked :
  forall ctx ld_config rtt ops ops',
    every_step ctx counted_step (ops ++ ops') (new_loss_detector ld_config rtt) ->
    let ld := run ctx ops (new_loss_detector ld_config rtt) in
    ack_eliciting_outstanding ld = u32 (tracked ack_eliciting ld)
    /\ crypto_outstanding ld = u32 (tracked is_crypto_packet ld)
    /\ (tracked ack_eliciting ld < 2 ^ 32 ->
        ack_eliciting_outstanding ld = tracked ack_eliciting ld)
    /\ (tracked is_crypto_packet ld < 2 ^ 32 ->
        crypto_outstanding ld = tracked is_crypto_packet ld).
Proof.
  intros ctx ld_config rtt ops ops' E ld.
  assert (C : counters_ok ld).
  { apply counters_ok_run.
    - apply counters_ok_reset.
    - apply (every_step_app ctx counted_step ops ops'), E. }
  destruct C as [Ca Cc]. repeat split; try assumption; intros B.
  - rewrite Ca. apply u32_small. pose proof (tracked_nonneg ack_eliciting ld). lia.
  - rewrite Cc. apply u32_small. pose proof (tracked_nonneg is_crypto_packet ld). lia.
Qed.

Lemma outstanding_counters_match_tracked_witness :
  let ops := [Scenario.send 5 0; OpReset; Scenario.send 1 1000000;
              Scenario.send 2 2000000; Scenario.ack 30000000 2 0;
              OpEvent 400000000 EVENT_INTERVAL] in
  let ld := run Scenario.server ops Scenario.detector in
  ack_eliciting_outstanding ld = u32 (tracked ack_eliciting ld)
  /\ crypto_outstanding ld = u32 (tracked is_crypto_packet ld)
  /\ (tracked ack_eliciting ld < 2 ^ 32 ->
      ack_eliciting_outstanding ld = tracked ack_eliciting ld)
  /\ (tracked is_crypto_packet ld < 2 ^ 32 ->
      crypto_outstanding ld = tracked is_crypto_packet ld).
Proof.
  intros ops ld.
  assert (E : every_step Scenario.server counted_step (ops ++ [OpReset])
                Scenario.detector) by evaluate.
  exact (outstanding_counters_match_tracked Scenario.server Scenario.ld_config
           (new_rtt_measure Scenario.ld_config (HRTIME_MSECONDS 25)) ops [OpReset] E).
Defined.

(** C8 (counterexample).  An ACK with largest_acknowledged = 5 raises the
    largest acknowledged packet of the application space to 5; a reset
    brings it back to 0. *)
Lemma largest_acked_packet_decreases_on_reset :
  let ops := [Scenario.ack 1000 5 0] in
  get (largest_acked_packet (run Scenario.server ops Scenario.detector))
      ApplicationData = 5
  /\ get (largest_acked_packet (run Scenario.server (ops ++ [OpReset]) Scenario.detector))
         ApplicationData = 0.
Proof. split; vm_compute; reflexivity. Qed.

(** C8 (amended).  For each space, from a well keyed detector,
    largest_acked_packet is non-decreasing along every trace of operations
    that contains no reset and whose ACK frames list no descriptor twice; a
    reset sets it back to 0. *)
Theorem largest_acked_packet_monotone_between_resets :
  forall ctx ops ld space,
    Forall (fun op => op <> OpReset) ops ->
    well_keyed ld ->
    every_step ctx op_acks_once ops ld ->
    get (largest_acked_packet ld) space
    <= get (largest_acked_packet (run ctx ops ld)) space
    /\ get (largest_acked_packet (run ctx (ops ++ [OpReset]) ld)) space = 0.
Proof.
  intros ctx ops ld space N _ _. split.
  - unfold run. revert ld. induction N as [ | op ops Hop N IH]; intros ld; simpl.
    + lia.
    + pose proof (largest_acked_packet_step ctx op ld space Hop).
      specialize (IH (step ctx ld op)). lia.
  - unfold run. rewrite fold_left_app. simpl.
    apply (largest_acked_packet_reset (fold_left (step ctx) ops ld) space).
Qed.

Lemma largest_acked_packet_monotone_between_resets_witness :
  let ops := [Scenario.send 1 0; Scenario.ack 30000000 1 0;
              OpEvent 60000000 EVENT_INTERVAL; Scenario.ack 70000000 0 0] in
  get (largest_acked_packet Scenario.detector) ApplicationData
  <= get (largest_acked_packet (run Scenario.server ops Scenario.detector))
         ApplicationData
  /\ get (largest_acked_packet
            (run Scenario.server (ops ++ [OpReset]) Scenario.detector))
         ApplicationData = 0.
Proof.
  intros ops.
  apply (largest_acked_packet_monotone_between_resets Scenario.server ops
           Scenario.detector ApplicationData).
  - repeat constructor; discriminate.
  - evaluate_keys.
  - evaluate.
Defined.

(** C10.  When the ranges of an ACK frame meet no tracked packet of the
    space, [_on_ack_received] sets largest_acked_packet of the space to the
    maximum of its value and the frame's largest_acknowledged and changes
    nothing else: the RTT state (samples, crypto and PTO counts), the
    tables, the counters, the loss times, the alarm and the timer are
    unchanged and no collaborator is called. *)
Theorem on_ack_received_without_newly_acked :
  forall ctx now ack_frame space ld,
    _determine_newly_acked_packets ack_frame space ld = [] ->
    let ld' := _on_ack_received ctx now ack_frame space ld in
    ld' = set_largest_acked_packet
            (put (largest_acked_packet ld) space
                 (Z.max (get (largest_acked_packet ld) space)
                        (largest_acknowledged ack_frame))) ld
    /\ get (largest_acked_packet ld') space
       = Z.max (get (largest_acked_packet ld) space) (largest_acknowledged ack_frame)
    /\ rtt_measure ld' = rtt_measure ld
    /\ calls ld' = calls ld
    /\ sent_packets ld' = sent_packets ld
    /\ ack_eliciting_outstanding ld' = ack_eliciting_outstanding ld
    /\ crypto_outstanding ld' = crypto_outstanding ld
    /\ loss_time ld' = loss_time ld
    /\ loss_detection_alarm_at ld' = loss_detection_alarm_at ld
    /\ loss_detection_timer ld' = loss_detection_timer ld.
Proof.
  intros ctx now ack_frame space ld H ld'.
  assert (E : ld' = set_largest_acked_packet
            (put (largest_acked_packet ld) space
                 (Z.max (get (largest_acked_packet ld) space)
                        (largest_acknowledged ack_frame))) ld).
  { subst ld'. unfold _on_ack_received. cbv zeta.
    change (_determine_newly_acked_packets ack_frame space
              (set_largest_acked_packet
                 (put (largest_acked_packet ld) space
                      (Z.max (get (largest_acked_packet ld) space)
                             (largest_acknowledged ack_frame))) ld))
      with (_determine_newly_acked_packets ack_frame space ld).
    rewrite H. reflexivity. }
  rewrite E. simpl. rewrite get_put_same. repeat split.
Qed.

Lemma on_ack_received_without_newly_acked_witness :
  let ld := run Scenario.server [Scenario.send 1 0] Scenario.detector in
  let ack_frame := mkAckFrame 7 0 2 [] None in
  let ld' := _on_ack_received Scenario.server 30000000 ack_frame ApplicationData ld in
  get (largest_acked_packet ld') ApplicationData = Z.max 0 7
  /\ rtt_measure ld' = rtt_measure ld
  /\ calls ld' = calls ld.
Proof.
  intros ld ack_frame ld'.
  assert (E : _determine_newly_acked_packets ack_frame ApplicationData ld = [])
    by (vm_compute; reflexivity).
  destruct (on_ack_received_without_newly_acked Scenario.server 30000000 ack_frame
              ApplicationData ld E) as [_ [L [R [C _]]]].
  split; [ exact L | ]. split; [ exact R | exact C ].
Defined.

(** C9.  Starting from an estimator without a sample (smoothed_rtt = 0),
    after the first call of update_rtt and after any number of further
    calls with non-negative latest RTT, min_rtt is 0; and from then on
    a call with a non-negative latest RTT on an estimator that holds a
    sample behaves as if the test of the ack delay were
    "latest > ack_delay" (the ack delay being the clamped one). *)
Theorem min_rtt_remains_zero :
  forall r latest ack_delay samples,
    QUICRTTMeasure.smoothed_rtt r = 0 ->
    Forall (fun s => 0 <= fst s) samples ->
    let r' := update_rtt_samples ((latest, ack_delay) :: samples) r in
    QUICRTTMeasure.min_rtt r' = 0
    /\ forall latest' ack_delay',
        0 <= latest' ->
        QUICRTTMeasure.min_rtt (QUICRTTMeasure.update_rtt latest' ack_delay' r') = 0
        /\ (QUICRTTMeasure.smoothed_rtt r' <> 0 ->
            QUICRTTMeasure.update_rtt latest' ack_delay' r'
            = update_rtt_ignoring_min_rtt latest' ack_delay' r').
Proof.
  intros r latest ack_delay samples S F r'.
  assert (M : QUICRTTMeasure.min_rtt r' = 0).
  { subst r'. simpl. apply min_rtt_update_rtt_samples; [ | exact F ].
    unfold QUICRTTMeasure.update_rtt. rewrite S. reflexivity. }
  split; [ exact M | ].
  intros latest' ack_delay' L'. split.
  - apply min_rtt_update_rtt; assumption.
  - intros S'. apply update_rtt_with_min_rtt_zero; assumption.
Qed.

Lemma min_rtt_remains_zero_witness :
  let r := new_rtt_measure Scenario.ld_config 25000000 in
  let r' := update_rtt_samples [(30000000, 0); (20000000, 1000000); (40000000, 0)] r in
  QUICRTTMeasure.min_rtt r' = 0
  /\ QUICRTTMeasure.update_rtt 50000000 2000000 r'
     = update_rtt_ignoring_min_rtt 50000000 2000000 r'.
Proof.
  intros r r'.
  assert (S : QUICRTTMeasure.smoothed_rtt r = 0) by (vm_compute; reflexivity).
  assert (F : Forall (fun s : Z * Z => 0 <= fst s) [(20000000, 1000000); (40000000, 0)])
    by (repeat constructor; simpl; lia).
  destruct (min_rtt_remains_zero r 30000000 0 _ S F) as [M N].
  split; [ exact M | ].
  apply (N 50000000 2000000); [ lia | ].
  vm_compute. discriminate.
Defined.

(** C2.  In loss detection for a space, over an ordered table, the loss
    delay is min(time_threshold * max(latest_rtt, smoothed_rtt),
    k_granularity): it never exceeds the granularity; the in-flight packets
    removed as lost are those, up to the largest acknowledged number, sent
    before now - loss_delay or numbered below lost_pn; and the loss time of
    the space is computed from time_sent + loss_delay over the surviving
    packets, being their minimum when these instants are positive. *)
Theorem loss_delay_is_min_with_granularity :
  forall now space ld,
    ordered (get (sent_packets ld) space) ->
    let r := rtt_measure ld in
    let loss_delay :=
      Z.min (Double.to_int64
               (Double.mul (k_time_threshold ld)
                  (Double.of_int64
                     (Z.max (QUICRTTMeasure.latest_rtt r)
                            (QUICRTTMeasure.smoothed_rtt r)))))
            (QUICRTTMeasure.k_granularity r) in
    let largest := get (largest_acked_packet ld) space in
    let lost_pn := u64 (largest - k_packet_threshold ld) in
    let ld' := _detect_lost_packets now space ld in
    let survivors :=
      filter (fun e => (fst e <=? largest)
                       && negb (deemed_lost (now - loss_delay) lost_pn (snd e)))
             (get (sent_packets ld) space) in
    loss_delay <= QUICRTTMeasure.k_granularity r
    /\ get (sent_packets ld') space
       = filter (fun e => negb ((fst e <=? largest)
                                && (in_flight (snd e)
                                    && deemed_lost (now - loss_delay) lost_pn (snd e))))
                (get (sent_packets ld) space)
    /\ get (loss_time ld') space = survivors_loss_time loss_delay survivors
    /\ ((forall e, In e survivors -> 0 < time_sent (snd e) + loss_delay) ->
        forall e, In e survivors ->
          0 < get (loss_time ld') space <= time_sent (snd e) + loss_delay).
Proof.
  intros now space ld O r loss_delay largest lost_pn ld' survivors.
  destruct (detect_lost_packets_spec now space ld O) as [T L].
  fold r loss_delay largest lost_pn ld' in T, L. fold survivors in L.
  split; [ subst loss_delay; lia | ].
  split; [ exact T | ]. split; [ exact L | ].
  intros P e I. rewrite L. apply survivors_loss_time_min; assumption.
Qed.

Lemma loss_delay_is_min_with_granularity_witness :
  let sent := run Scenario.server
                  [Scenario.send 1 0; Scenario.send 2 1000000; Scenario.send 3 25000000;
                   Scenario.send 4 25500000]
                  Scenario.detector in
  let ld :=
    set_rtt_measure (QUICRTTMeasure.update_rtt 20000000 0 (rtt_measure sent))
      (set_largest_acked_packet (mkPerSpace 0 0 4) sent) in
  let ld' := _detect_lost_packets 26000000 ApplicationData ld in
  ordered (get (sent_packets ld) ApplicationData)
  /\ map fst (get (sent_packets ld') ApplicationData) = [3; 4]
  /\ get (loss_time ld') ApplicationData = 26000000.
Proof.
  intros sent ld ld'.
  assert (O : ordered (get (sent_packets ld) ApplicationData)).
  { vm_compute. repeat split; repeat constructor. }
  split; [ exact O | ].
  destruct (loss_delay_is_min_with_granularity 26000000 ApplicationData ld O)
    as [_ [T [L _]]].
  fold ld' in T, L. rewrite T, L. split; vm_compute; reflexivity.
Defined.

(** * Further properties of the estimator and of the detector *)

(** ** Back-off of the timeouts *)

Lemma shiftl_1_succ : forall n, 0 <= n -> Z.shiftl 1 (n + 1) = 2 * Z.shiftl 1 n.
Proof.
  intros n H. rewrite !Z.shiftl_1_l, Z.pow_add_r by lia. lia.
Qed.

Lemma shiftl_1_pos : forall n, 0 <= n -> 1 <= Z.shiftl 1 n.
Proof.
  intros n H. rewrite Z.shiftl_1_l.
  pose proof (Z.pow_pos_nonneg 2 n ltac:(lia) H). lia.
Qed.

(** X1.  The handshake retransmission timeout is at least the granularity,
    is max(2 k_initial_rtt, k_granularity) 2^crypto_count before any sample
    and max(2 smoothed_rtt, k_granularity) 2^crypto_count afterwards, and
    doubles when crypto_count is incremented. *)
Theorem handshake_retransmit_timeout_backoff :
  forall r,
    0 <= QUICRTTMeasure.crypto_count r < 30 ->
    0 <= QUICRTTMeasure.k_granularity r ->
    QUICRTTMeasure.k_granularity r <= QUICRTTMeasure.handshake_retransmit_timeout r
    /\ (QUICRTTMeasure.smoothed_rtt r = 0 ->
        QUICRTTMeasure.handshake_retransmit_timeout r
        = Z.max (2 * QUICRTTMeasure.k_initial_rtt r) (QUICRTTMeasure.k_granularity r)
          * 2 ^ QUICRTTMeasure.crypto_count r)
    /\ (QUICRTTMeasure.smoothed_rtt r <> 0 ->
        QUICRTTMeasure.handshake_retransmit_timeout r
        = Z.max (2 * QUICRTTMeasure.smoothed_rtt r) (QUICRTTMeasure.k_granularity r)
          * 2 ^ QUICRTTMeasure.crypto_count r)
    /\ QUICRTTMeasure.handshake_retransmit_timeout
         (QUICRTTMeasure.set_crypto_count (QUICRTTMeasure.crypto_count r + 1) r)
       = 2 * QUICRTTMeasure.handshake_retransmit_timeout r.
Proof.
  intros r [C0 C1] G. unfold QUICRTTMeasure.handshake_retransmit_timeout.
  cbn [QUICRTTMeasure.set_crypto_count QUICRTTMeasure.smoothed_rtt
       QUICRTTMeasure.k_initial_rtt QUICRTTMeasure.k_granularity
       QUICRTTMeasure.crypto_count].
  pose proof (shiftl_1_pos (QUICRTTMeasure.crypto_count r) C0) as P.
  rewrite (shiftl_1_succ _ C0).
  rewrite <- (Z.shiftl_1_l (QUICRTTMeasure.crypto_count r)).
  destruct (Z.eqb_spec (QUICRTTMeasure.smoothed_rtt r) 0) as [E | E].
  - repeat split; try (intros; congruence); nia.
  - repeat split; try (intros; congruence); nia.
Qed.

Lemma handshake_retransmit_timeout_backoff_witness :
  let r := QUICRTTMeasure.update_rtt 30000000 0
             (new_rtt_measure Scenario.ld_config 25000000) in
  QUICRTTMeasure.handshake_retransmit_timeout r = 60000000
  /\ QUICRTTMeasure.handshake_retransmit_timeout
       (QUICRTTMeasure.set_crypto_count 1 r) = 120000000.
Proof.
  intros r.
  assert (C : 0 <= QUICRTTMeasure.crypto_count r < 30) by (vm_compute; split; [ discriminate | reflexivity ]).
  assert (G : 0 <= QUICRTTMeasure.k_granularity r) by (vm_compute; discriminate).
  destruct (handshake_retransmit_timeout_backoff r C G) as [_ [_ [S D]]].
  split.
  - rewrite S by (vm_compute; discriminate). vm_compute. reflexivity.
  - change (QUICRTTMeasure.set_crypto_count 1 r)
      with (QUICRTTMeasure.set_crypto_count (QUICRTTMeasure.crypto_count r + 1) r).
    rewrite D, S by (vm_compute; discriminate). vm_compute. reflexivity.
Defined.

(** X2.  The PTO period is at least the granularity, is
    max(smoothed_rtt + 4 rttvar + max_ack_delay, k_granularity) 2^pto_count,
    and doubles when pto_count is incremented. *)
Theorem current_pto_period_backoff :
  forall r,
    0 <= QUICRTTMeasure.pto_count r < 30 ->
    0 <= QUICRTTMeasure.k_granularity r ->
    QUICRTTMeasure.k_granularity r <= QUICRTTMeasure.current_pto_period r
    /\ QUICRTTMeasure.current_pto_period r
       = Z.max (QUICRTTMeasure.smoothed_rtt r + 4 * QUICRTTMeasure.rttvar r
                + QUICRTTMeasure.max_ack_delay r)
               (QUICRTTMeasure.k_granularity r)
         * 2 ^ QUICRTTMeasure.pto_count r
    /\ QUICRTTMeasure.current_pto_period
         (QUICRTTMeasure.set_pto_count (QUICRTTMeasure.pto_count r + 1) r)
       = 2 * QUICRTTMeasure.current_pto_period r.
Proof.
  intros r [C0 C1] G. unfold QUICRTTMeasure.current_pto_period.
  cbn [QUICRTTMeasure.set_pto_count QUICRTTMeasure.smoothed_rtt
       QUICRTTMeasure.rttvar QUICRTTMeasure.max_ack_delay
       QUICRTTMeasure.k_granularity QUICRTTMeasure.pto_count].
  pose proof (shiftl_1_pos (QUICRTTMeasure.pto_count r) C0) as P.
  rewrite (shiftl_1_succ _ C0).
  rewrite <- (Z.shiftl_1_l (QUICRTTMeasure.pto_count r)).
  repeat split; nia.
Qed.

Lemma current_pto_period_backoff_witness :
  let r := QUICRTTMeasure.mk 100000000 100000000 25000000 0 25000000 0 0
                             1000000 100000000 in
  QUICRTTMeasure.current_pto_period r = 225000000
  /\ QUICRTTMeasure.current_pto_period (QUICRTTMeasure.set_pto_count 1 r) = 450000000.
Proof.
  intros r.
  assert (C : 0 <= QUICRTTMeasure.pto_count r < 30) by (vm_compute; split; [ discriminate | reflexivity ]).
  assert (G : 0 <= QUICRTTMeasure.k_granularity r) by (vm_compute; discriminate).
  destruct (current_pto_period_backoff r C G) as [_ [S D]].
  split.
  - rewrite S. vm_compute. reflexivity.
  - change (QUICRTTMeasure.set_pto_count 1 r)
      with (QUICRTTMeasure.set_pto_count (QUICRTTMeasure.pto_count r + 1) r).
    rewrite D, S. vm_compute. reflexivity.
Defined.

(** ** Tracking and untracking a packet *)

Lemma put_get : forall A (a : PerSpace A) i, put a i (get a i) = a.
Proof. intros A [x y z] i. destruct i; reflexivity. Qed.

Lemma erase_insert_fresh :
  forall k v m,
    SentPackets.find k m = None -> SentPackets.erase k (SentPackets.insert k v m) = m.
Proof.
  intros k v m. induction m as [ | [k' v'] m IH]; simpl; intros H.
  - rewrite Z.eqb_refl. reflexivity.
  - destruct (k' =? k) eqn:E; [ discriminate | ].
    destruct (k <? k'); simpl.
    + rewrite Z.eqb_refl. reflexivity.
    + rewrite E, IH by exact H. reflexivity.
Qed.

Lemma find_insert_other :
  forall k k0 v m,
    k <> k0 -> SentPackets.find k (SentPackets.insert k0 v m) = SentPackets.find k m.
Proof.
  intros k k0 v m N. induction m as [ | [k' v'] m IH]; simpl.
  - destruct (Z.eqb_spec k0 k); [ congruence | reflexivity ].
  - destruct (k0 <? k'); simpl.
    + destruct (Z.eqb_spec k0 k); [ congruence | reflexivity ].
    + destruct (Z.eqb_spec k' k0) as [E | E]; simpl.
      * reflexivity.
      * rewrite IH. reflexivity.
Qed.

Lemma find_In : forall k p m, SentPackets.find k m = Some p -> In (k, p) m.
Proof.
  intros k p m. induction m as [ | [k' v] m IH]; simpl; intros H.
  - discriminate.
  - destruct (Z.eqb_spec k' k) as [E | E].
    + injection H as ->. subst. left. reflexivity.
    + right. apply IH, H.
Qed.

Lemma insert_existing :
  forall k v q m,
    ordered m -> SentPackets.find k m = Some q -> SentPackets.insert k v m = m.
Proof.
  intros k v q m. induction m as [ | [k' v'] m IH]; simpl; intros O H.
  - discriminate.
  - destruct O as [A O]. destruct (Z.eqb_spec k' k) as [E | E].
    + subst. rewrite Z.ltb_irrefl. reflexivity.
    + destruct (Z.ltb_spec k k') as [L | L].
      * exfalso. apply find_In in H.
        pose proof (proj1 (Forall_forall _ _) A _ H) as B. simpl in B. lia.
      * rewrite IH by assumption. reflexivity.
Qed.

(** X3.  Removing a packet number that is not tracked in the space changes
    nothing: no counter is decremented and the table is left as it is. *)
Theorem remove_untracked_packet :
  forall pn space ld,
    SentPackets.find pn (get (sent_packets ld) space) = None ->
    _remove_from_sent_packet_list pn space ld = ld.
Proof.
  intros pn space ld F. unfold _remove_from_sent_packet_list. cbv zeta.
  rewrite F. simpl. rewrite (find_none_erase _ _ F), put_get.
  destruct ld; reflexivity.
Qed.

Lemma remove_untracked_packet_witness :
  let ld := run Scenario.server [Scenario.send 1 0] Scenario.detector in
  _remove_from_sent_packet_list 7 ApplicationData ld = ld.
Proof.
  intros ld. apply remove_untracked_packet. vm_compute. reflexivity.
Defined.

(** X4.  Tracking a packet under a number that is not yet in the table of
    its space and removing it again gives the detector back: table and
    counters are restored (the counters being 32-bit values). *)
Theorem add_then_remove_packet :
  forall p ld,
    SentPackets.find (packet_number p) (get (sent_packets ld) (pn_space p)) = None ->
    0 <= ack_eliciting_outstanding ld < 2 ^ 32 ->
    0 <= crypto_outstanding ld < 2 ^ 32 ->
    _remove_from_sent_packet_list (packet_number p) (pn_space p)
      (_add_to_sent_packet_list (packet_number p) p ld) = ld.
Proof.
  intros p ld F A C.
  unfold _remove_from_sent_packet_list, _add_to_sent_packet_list. cbv zeta.
  cbn [sent_packets set_sent_packets]. rewrite get_put_same.
  rewrite (find_insert_fresh _ p _ F).
  assert (S : forall ld', sent_packets
                (if ack_eliciting p
                 then set_ack_eliciting_outstanding (u32 (ack_eliciting_outstanding ld' + 1)) ld'
                 else ld') = sent_packets ld')
    by (intros ld'; destruct (ack_eliciting p); reflexivity).
  assert (S' : forall ld', sent_packets
                (if is_crypto_packet p
                 then set_crypto_outstanding (u32 (crypto_outstanding ld' + 1)) ld'
                 else ld') = sent_packets ld')
    by (intros ld'; destruct (is_crypto_packet p); reflexivity).
  rewrite S, S'. cbn [sent_packets set_sent_packets]. rewrite get_put_same.
  rewrite (find_insert_fresh _ p _ F). simpl.
  assert (Ua : u32 (u32 (ack_eliciting_outstanding ld + 1) - 1)
               = ack_eliciting_outstanding ld).
  { rewrite u32_pred. replace (ack_eliciting_outstanding ld + 1 - 1)
      with (ack_eliciting_outstanding ld) by lia. apply u32_small, A. }
  assert (Uc : u32 (u32 (crypto_outstanding ld + 1) - 1) = crypto_outstanding ld).
  { rewrite u32_pred. replace (crypto_outstanding ld + 1 - 1)
      with (crypto_outstanding ld) by lia. apply u32_small, C. }
  destruct (is_crypto_packet p), (ack_eliciting p); simpl;
    rewrite ?Ua, ?Uc, ?S, ?S'; simpl;
    rewrite ?get_put_same, (erase_insert_fresh _ p _ F);
    destruct ld as [tables ? ? ? ? ? ? ? ? ? ? ? ? ?]; simpl in *;
    destruct tables, (pn_space p); reflexivity.
Qed.

Lemma add_then_remove_packet_witness :
  let ld := run Scenario.server [Scenario.send 1 0] Scenario.detector in
  let p := Scenario.packet 2 1000000 in
  _remove_from_sent_packet_list 2 ApplicationData (_add_to_sent_packet_list 2 p ld) = ld.
Proof.
  intros ld p.
  apply (add_then_remove_packet p ld).
  - vm_compute. reflexivity.
  - vm_compute. split; [ discriminate | reflexivity ].
  - vm_compute. split; [ discriminate | reflexivity ].
Defined.

Lemma sent_packets_on_packet_sent :
  forall ctx p fl ld,
    QUICPacketType.eqb (ptype p) QUICPacketType.VERSION_NEGOTIATION = false ->
    sent_packets (on_packet_sent ctx p fl ld)
    = put (sent_packets ld) (pn_space p)
          (SentPackets.insert (packet_number p) p (get (sent_packets ld) (pn_space p))).
Proof.
  intros ctx p fl ld V. unfold on_packet_sent. rewrite V. cbv zeta.
  destruct fl; [ | apply sent_packets_add ].
  apply (keep_set_loss_detection_timer
           (fun ld' => sent_packets ld'
                       = put (sent_packets ld) (pn_space p)
                             (SentPackets.insert (packet_number p) p
                                (get (sent_packets ld) (pn_space p)))));
    try (intros; assumption).
  simpl. rewrite <- sent_packets_add.
  destruct (is_crypto_packet p), (ack_eliciting p); reflexivity.
Qed.

(** X5.  [on_packet_sent] of a packet other than a version negotiation
    packet: if its number is not tracked in its space, a lookup of the
    number now gives the packet; if it is tracked (in an ordered table), the
    tables are unchanged and the descriptor already there is kept; lookups
    of other numbers, and the tables of the other spaces, are unaffected. *)
Theorem on_packet_sent_lookup :
  forall ctx p fl ld,
    QUICPacketType.eqb (ptype p) QUICPacketType.VERSION_NEGOTIATION = false ->
    let ld' := on_packet_sent ctx p fl ld in
    let table := get (sent_packets ld) (pn_space p) in
    let table' := get (sent_packets ld') (pn_space p) in
    (SentPackets.find (packet_number p) table = None ->
     SentPackets.find (packet_number p) table' = Some p)
    /\ (forall q, ordered table ->
                  SentPackets.find (packet_number p) table = Some q ->
                  sent_packets ld' = sent_packets ld)
    /\ (forall k, k <> packet_number p ->
                  SentPackets.find k table' = SentPackets.find k table)
    /\ (forall space, space <> pn_space p ->
                      get (sent_packets ld') space = get (sent_packets ld) space).
Proof.
  intros ctx p fl ld V ld' table table'. subst ld' table table'.
  rewrite (sent_packets_on_packet_sent ctx p fl ld V). rewrite get_put_same.
  split; [ apply find_insert_fresh | ].
  split; [ | split ].
  - intros q O F. rewrite (insert_existing _ p q _ O F). apply put_get.
  - intros k N. apply find_insert_other, N.
  - intros space N. apply get_put_other. intros C. apply N. symmetry. exact C.
Qed.

Lemma on_packet_sent_lookup_witness :
  let ld := run Scenario.server [Scenario.send 1 0] Scenario.detector in
  let p := Scenario.packet 2 1000000 in
  let ld' := on_packet_sent Scenario.server p true ld in
  SentPackets.find 2 (get (sent_packets ld') ApplicationData) = Some p
  /\ SentPackets.find 1 (get (sent_packets ld') ApplicationData)
     = SentPackets.find 1 (get (sent_packets ld) ApplicationData).
Proof.
  intros ld p ld'.
  assert (V : QUICPacketType.eqb (ptype p) QUICPacketType.VERSION_NEGOTIATION = false)
    by reflexivity.
  destruct (on_packet_sent_lookup Scenario.server p true ld V) as [F [_ [K _]]].
  split.
  - apply F. vm_compute. reflexivity.
  - apply (K 1). vm_compute. discriminate.
Defined.

(** ** Invariants of the tables *)

Lemma well_keyed_remove :
  forall pn space ld, well_keyed ld -> well_keyed (_remove_from_sent_packet_list pn space ld).
Proof.
  intros pn space ld H sp k p. rewrite sent_packets_remove. intros I.
  destruct space, sp; simpl in I; try (apply H; exact I);
    apply In_erase in I; apply H; exact I.
Qed.

Lemma well_keyed_step :
  forall ctx op ld, well_keyed ld -> well_keyed (step ctx ld op).
Proof.
  intros ctx op ld H.
  destruct op as [p fl | now level frame | now event | e | ]; simpl.
  - destruct (QUICPacketType.eqb (ptype p) QUICPacketType.VERSION_NEGOTIATION) eqn:V.
    + unfold on_packet_sent. rewrite V. exact H.
    + intros sp k q. rewrite (sent_packets_on_packet_sent ctx p fl ld V). intros I.
      assert (D : sp = pn_space p \/ sp <> pn_space p)
        by (destruct sp, (pn_space p); (left; reflexivity) || (right; discriminate)).
      destruct D as [-> | D].
      * rewrite get_put_same in I. apply In_insert in I.
        destruct I as [E | I]; [ injection E as -> ->; split; reflexivity | apply H, I ].
      * rewrite get_put_other in I by (intros C; apply D; symmetry; exact C).
        apply H, I.
  - destruct frame as [f | ty]; simpl; [ | exact H ].
    apply keep_on_ack_received; try (intros; assumption).
    apply well_keyed_remove.
  - apply keep_event_handler; try (intros; assumption).
    apply well_keyed_remove.
  - exact H.
  - intros sp k q. destruct sp; simpl; intros [].
Qed.

(** X6.  From the constructed detector, along every trace of operations
    whose ACK frames list no descriptor twice, each tracked descriptor is
    stored under its own packet number, in the table of its own space. *)
Theorem tracked_descriptors_are_well_keyed :
  forall ctx ld_config rtt ops,
    every_step ctx op_acks_once ops (new_loss_detector ld_config rtt) ->
    well_keyed (run ctx ops (new_loss_detector ld_config rtt)).
Proof.
  intros ctx ld_config rtt ops _. unfold run. apply fold_left_preserves.
  - intros s a. apply well_keyed_step.
  - intros sp k q. destruct sp; simpl; intros [].
Qed.

Lemma tracked_descriptors_are_well_keyed_witness :
  let ops := [Scenario.send 1 0; Scenario.send 2 1000000; Scenario.send 3 2000000;
              Scenario.ack 30000000 2 0] in
  let ld := run Scenario.server ops Scenario.detector in
  well_keyed ld /\ map fst (get (sent_packets ld) ApplicationData) = [3].
Proof.
  intros ops ld. split; [ | vm_compute; reflexivity ].
  apply (tracked_descriptors_are_well_keyed Scenario.server Scenario.ld_config
           (new_rtt_measure Scenario.ld_config (HRTIME_MSECONDS 25)) ops).
  evaluate.
Defined.

(** ** Expansion of an ACK frame *)

Lemma In_set_insert :
  forall r r0 s, In r (PacketNumberRange.set_insert r0 s) -> r = r0 \/ In r s.
Proof.
  intros r r0 s. induction s as [ | r' s IH]; simpl; intros H.
  - destruct H as [H | []]. left. symmetry. exact H.
  - destruct (PacketNumberRange.first r0 <? PacketNumberRange.first r').
    + destruct H as [H | H]; [ left; symmetry; exact H | right; exact H ].
    + destruct (PacketNumberRange.first r' =? PacketNumberRange.first r0);
        [ right; exact H | ].
      destruct H as [H | H]; [ right; left; exact H | ].
      destruct (IH H) as [G | G]; [ left; exact G | right; right; exact G ].
Qed.

Lemma set_insert_keeps :
  forall r r0 s, In r s -> In r (PacketNumberRange.set_insert r0 s).
Proof.
  intros r r0 s. induction s as [ | r' s IH]; simpl; intros H.
  - destruct H.
  - destruct (PacketNumberRange.first r0 <? PacketNumberRange.first r').
    + right. exact H.
    + destruct (PacketNumberRange.first r' =? PacketNumberRange.first r0);
        [ exact H | ].
      destruct H as [H | H]; [ left; exact H | right; apply IH, H ].
Qed.

Lemma set_insert_new :
  forall r0 s,
    (forall r, In r s -> PacketNumberRange.first r <> PacketNumberRange.first r0) ->
    In r0 (PacketNumberRange.set_insert r0 s).
Proof.
  intros r0 s. induction s as [ | r' s IH]; simpl; intros H.
  - left. reflexivity.
  - destruct (PacketNumberRange.first r0 <? PacketNumberRange.first r').
    + left. reflexivity.
    + destruct (Z.eqb_spec (PacketNumberRange.first r') (PacketNumberRange.first r0))
        as [E | E].
      * exfalso. apply (H r'); [ left; reflexivity | exact E ].
      * right. apply IH. intros r I. apply H. right. exact I.
Qed.

Lemma numbers_of_sound :
  forall blocks x numbers r,
    In r (numbers_of x numbers blocks) ->
    In r numbers \/ In r (ack_block_ranges x blocks).
Proof.
  induction blocks as [ | [gap length] blocks IH]; intros x numbers r H.
  - left. exact H.
  - unfold numbers_of in H. simpl in H.
    apply IH in H. simpl. destruct H as [H | H].
    + apply In_set_insert in H. destruct H as [-> | H];
        [ right; left; reflexivity | left; exact H ].
    + right. right. exact H.
Qed.

Lemma numbers_of_keeps :
  forall blocks x numbers r, In r numbers -> In r (numbers_of x numbers blocks).
Proof.
  induction blocks as [ | [gap length] blocks IH]; intros x numbers r H.
  - exact H.
  - unfold numbers_of. simpl. apply IH, set_insert_keeps, H.
Qed.

Lemma numbers_of_complete :
  forall blocks x numbers r,
    (forall r1 r2, In r1 numbers -> In r2 (ack_block_ranges x blocks) ->
                   PacketNumberRange.first r1 <> PacketNumberRange.first r2) ->
    NoDup (map PacketNumberRange.first (ack_block_ranges x blocks)) ->
    In r (ack_block_ranges x blocks) ->
    In r (numbers_of x numbers blocks).
Proof.
  induction blocks as [ | [gap length] blocks IH]; intros x numbers r D N H.
  - destruct H.
  - simpl in H, D, N. unfold numbers_of. simpl.
    set (x1 := u64 (x - (gap + 1))) in *.
    set (r1 := PacketNumberRange.mk x1 (u64 (x1 - length))) in *.
    inversion N as [ | ? ? N1 N' ]; subst.
    assert (I1 : In r1 (PacketNumberRange.set_insert r1 numbers)).
    { apply set_insert_new. intros r' I. apply D; [ exact I | left; reflexivity ]. }
    destruct H as [<- | H].
    + apply numbers_of_keeps, I1.
    + apply IH; [ | exact N' | exact H ].
      intros ra rb Ia Ib. apply In_set_insert in Ia. destruct Ia as [-> | Ia].
      * intros E. apply N1. unfold r1 in E. simpl in E.
        pose proof (in_map PacketNumberRange.first _ _ Ib) as G.
        rewrite <- E in G. exact G.
      * apply D; [ exact Ia | right; exact Ib ].
Qed.

Lemma determine_newly_acked_packets_eq :
  forall ack_frame index ld,
    _determine_newly_acked_packets ack_frame index ld
    = flat_map
        (fun range =>
           map snd
             (filter (fun ite => PacketNumberRange.contains range (fst ite))
                     (rev (get (sent_packets ld) index))))
        (numbers_of (u64 (largest_acknowledged ack_frame
                          - (first_ack_block ack_frame + 1)))
                    [PacketNumberRange.mk (largest_acknowledged ack_frame)
                       (u64 (largest_acknowledged ack_frame
                             - first_ack_block ack_frame))]
                    (ack_blocks ack_frame)).
Proof.
  intros ack_frame index ld. unfold _determine_newly_acked_packets, numbers_of.
  cbv zeta. simpl PacketNumberRange.set_insert.
  match goal with |- context [fold_left ?f ?l ?a] => destruct (fold_left f l a) end.
  reflexivity.
Qed.

Lemma In_newly_acked :
  forall ack_frame index ld p,
    In p (_determine_newly_acked_packets ack_frame index ld)
    <-> exists r k,
        In r (numbers_of (u64 (largest_acknowledged ack_frame
                               - (first_ack_block ack_frame + 1)))
                         [PacketNumberRange.mk (largest_acknowledged ack_frame)
                            (u64 (largest_acknowledged ack_frame
                                  - first_ack_block ack_frame))]
                         (ack_blocks ack_frame))
        /\ In (k, p) (get (sent_packets ld) index)
        /\ PacketNumberRange.contains r k = true.
Proof.
  intros ack_frame index ld p. rewrite determine_newly_acked_packets_eq.
  rewrite in_flat_map. split.
  - intros [r [Ir Ip]]. apply in_map_iff in Ip. destruct Ip as [[k q] [E Ip]].
    simpl in E. subst q. apply filter_In in Ip. destruct Ip as [Ik C].
    apply in_rev in Ik. exists r, k. split; [ exact Ir | split; assumption ].
  - intros [r [k [Ir [Ik C]]]]. exists r. split; [ exact Ir | ].
    apply in_map_iff. exists (k, p). split; [ reflexivity | ].
    apply filter_In. split; [ apply in_rev in Ik; exact Ik | exact C ].
Qed.

Lemma u64_small : forall z, 0 <= z < 2 ^ 64 -> u64 z = z.
Proof. intros z H. unfold u64. apply Z.mod_small; exact H. Qed.

Lemma u64_sub_l : forall a b, u64 (u64 a - b) = u64 (a - b).
Proof. intros a b. unfold u64. apply Zminus_mod_idemp_l. Qed.

(** When no step goes below zero the ranges are those of plain integer
    arithmetic, each below the previous one. *)
Lemma blocks_fit_ranges :
  forall blocks xz,
    xz < 2 ^ 64 ->
    blocks_fit xz blocks ->
    (forall r, In r (ack_block_ranges (u64 xz) blocks) ->
               PacketNumberRange.first r < xz)
    /\ (forall k, (exists r, In r (ack_block_ranges (u64 xz) blocks)
                             /\ PacketNumberRange.contains r k = true)
                  <-> acked_by_blocks xz blocks k)
    /\ NoDup (map PacketNumberRange.first (ack_block_ranges (u64 xz) blocks)).
Proof.
  induction blocks as [ | [gap length] blocks IH]; intros xz B F; simpl.
  - split; [ intros r [] | ]. split; [ | constructor ].
    intros k. split; [ intros [r [[] _]] | intros [] ].
  - destruct F as [G [L [X F]]].
    assert (E1 : u64 (u64 xz - (gap + 1)) = xz - gap - 1).
    { rewrite u64_sub_l. replace (xz - (gap + 1)) with (xz - gap - 1) by lia.
      apply u64_small. lia. }
    rewrite E1.
    assert (E2 : u64 (xz - gap - 1 - length) = xz - gap - 1 - length)
      by (apply u64_small; lia).
    rewrite E2.
    replace (xz - gap - 1 - (length + 1)) with (xz - gap - 1 - length - 1) by lia.
    destruct (IH (xz - gap - 1 - length - 1) ltac:(lia) F) as [I1 [I2 I3]].
    split; [ | split ].
    + intros r [<- | I]; [ simpl; lia | ]. specialize (I1 r I). lia.
    + intros k. split.
      * intros [r [[<- | I] C]].
        -- left. unfold PacketNumberRange.contains in C. simpl in C.
           apply andb_true_iff in C. destruct C as [C1 C2].
           apply Z.leb_le in C1. apply Z.leb_le in C2. lia.
        -- right. apply I2. exists r. split; assumption.
      * intros [C | C].
        -- eexists. split; [ left; reflexivity | ].
           unfold PacketNumberRange.contains. simpl.
           apply andb_true_iff. split; apply Z.leb_le; lia.
        -- apply I2 in C. destruct C as [r [I C]]. exists r.
           split; [ right; exact I | exact C ].
    + constructor; [ | exact I3 ].
      intros I. apply in_map_iff in I. destruct I as [r [E I]].
      specialize (I1 r I). lia.
Qed.

(** X7.  Whatever the frame, every descriptor that
    [_determine_newly_acked_packets] returns is tracked in the space, under
    a number that one of the ranges of the frame (computed modulo 2^64)
    contains: a packet that is not tracked is never reported as newly
    acknowledged. *)
Theorem newly_acked_packets_are_tracked :
  forall ack_frame index ld p,
    In p (_determine_newly_acked_packets ack_frame index ld) ->
    exists k r,
      In (k, p) (get (sent_packets ld) index)
      /\ In r (ack_ranges ack_frame)
      /\ PacketNumberRange.contains r k = true.
Proof.
  intros ack_frame index ld p H.
  apply In_newly_acked in H. destruct H as [r [k [Ir [Ik C]]]].
  exists k, r. split; [ exact Ik | ]. split; [ | exact C ].
  apply numbers_of_sound in Ir. unfold ack_ranges. cbv zeta.
  destruct Ir as [[<- | []] | Ir]; [ left; reflexivity | right; exact Ir ].
Qed.

Lemma newly_acked_packets_are_tracked_witness :
  let ld := run Scenario.server [Scenario.send 1 0; Scenario.send 2 1000000]
                Scenario.detector in
  let ack_frame := mkAckFrame 2 0 0 [] None in
  exists k r,
    In (k, Scenario.packet 2 1000000) (get (sent_packets ld) ApplicationData)
    /\ In r (ack_ranges ack_frame)
    /\ PacketNumberRange.contains r k = true.
Proof.
  intros ld ack_frame.
  apply (newly_acked_packets_are_tracked ack_frame ApplicationData ld).
  vm_compute. left. reflexivity.
Defined.

(** X8.  For an ACK frame whose expansion never goes below zero, the newly
    acknowledged descriptors are exactly the tracked descriptors of the
    space whose number the frame acknowledges: the numbers from
    largest_acknowledged down to largest_acknowledged - first_ack_block and,
    for each further block, after a gap of gap + 1 numbers, the next
    length + 1 numbers, both ends included. *)
Theorem newly_acked_packets_of_fitting_ack :
  forall ack_frame index ld p,
    ack_fits ack_frame ->
    (In p (_determine_newly_acked_packets ack_frame index ld)
     <-> exists k, In (k, p) (get (sent_packets ld) index) /\ acked_by ack_frame k).
Proof.
  intros ack_frame index ld p [[F0 F1] [F2 F3]].
  set (l := largest_acknowledged ack_frame) in *.
  set (fb := first_ack_block ack_frame) in *.
  assert (E0 : u64 (l - fb) = l - fb) by (apply u64_small; lia).
  assert (E1 : u64 (l - (fb + 1)) = u64 (l - fb - 1)) by (f_equal; lia).
  destruct (blocks_fit_ranges (ack_blocks ack_frame) (l - fb - 1) ltac:(lia) F3)
    as [B1 [B2 B3]].
  rewrite In_newly_acked. fold l fb. rewrite E0, E1. unfold acked_by. fold l fb.
  split.
  - intros [r [k [Ir [Ik C]]]]. exists k. split; [ exact Ik | ].
    apply numbers_of_sound in Ir. destruct Ir as [[<- | []] | Ir].
    + left. unfold PacketNumberRange.contains in C. simpl in C.
      apply andb_true_iff in C. destruct C as [C1 C2].
      apply Z.leb_le in C1. apply Z.leb_le in C2. lia.
    + right. apply B2. exists r. split; assumption.
  - intros [k [Ik [C | C]]].
    + exists (PacketNumberRange.mk l (l - fb)), k.
      split; [ apply numbers_of_keeps; left; reflexivity | ].
      split; [ exact Ik | ].
      unfold PacketNumberRange.contains. simpl.
      apply andb_true_iff. split; apply Z.leb_le; lia.
    + apply B2 in C. destruct C as [r [Ir C]]. exists r, k.
      split; [ | split; assumption ].
      apply numbers_of_complete; [ | exact B3 | exact Ir ].
      intros r1 r2 [<- | []] I2. specialize (B1 r2 I2). simpl. lia.
Qed.

Lemma newly_acked_packets_of_fitting_ack_witness :
  let ld := run Scenario.server
                [Scenario.send 1 0; Scenario.send 2 1000000; Scenario.send 3 2000000;
                 Scenario.send 4 3000000; Scenario.send 5 4000000]
                Scenario.detector in
  let ack_frame := mkAckFrame 5 0 0 [(1, 1)] None in
  In (Scenario.packet 2 1000000)
     (_determine_newly_acked_packets ack_frame ApplicationData ld).
Proof.
  intros ld ack_frame.
  assert (F : ack_fits ack_frame).
  { unfold ack_fits. simpl. repeat split; try lia. }
  destruct (newly_acked_packets_of_fitting_ack ack_frame ApplicationData ld
              (Scenario.packet 2 1000000) F) as [_ H].
  apply H. exists 2. split.
  - vm_compute. right. left. reflexivity.
  - right. simpl. left. lia.
Defined.

(** ** What an ACK does to the tables *)

Lemma not_In_erase :
  forall k q m, ordered m -> ~ In (k, q) (SentPackets.erase k m).
Proof.
  intros k q m. induction m as [ | [k' v] m IH]; simpl; intros O I.
  - exact I.
  - destruct O as [A O]. destruct (Z.eqb_spec k' k) as [E | E].
    + subst. pose proof (proj1 (Forall_forall _ _) A _ I) as B. simpl in B. lia.
    + destruct I as [I | I]; [ congruence | exact (IH O I) ].
Qed.

Lemma untracked_remove :
  forall k sp pn space ld,
    untracked k sp ld -> untracked k sp (_remove_from_sent_packet_list pn space ld).
Proof.
  intros k sp pn space ld H q. rewrite sent_packets_remove. intros I.
  destruct space, sp; simpl in I; try (apply (H q); exact I);
    apply In_erase in I; apply (H q); exact I.
Qed.

Lemma tables_within_remove :
  forall ld0 pn space ld,
    tables_within ld0 ld -> tables_within ld0 (_remove_from_sent_packet_list pn space ld).
Proof.
  intros ld0 pn space ld H sp e. rewrite sent_packets_remove. intros I.
  destruct space, sp; simpl in I; try (apply H; exact I);
    apply In_erase in I; apply H; exact I.
Qed.

Lemma sent_packets_on_packet_acked :
  forall p ld,
    sent_packets (_on_packet_acked p ld)
    = put (sent_packets ld) (pn_space p)
          (SentPackets.erase (packet_number p) (get (sent_packets ld) (pn_space p))).
Proof.
  intros p ld. unfold _on_packet_acked. cbv zeta. rewrite sent_packets_remove.
  match goal with
  | |- put (sent_packets ?x) _ (SentPackets.erase _ (get (sent_packets ?x) _)) = _ =>
      assert (S : sent_packets x = sent_packets ld)
  end.
  { apply fold_left_preserves.
    - intros s a Hs. destruct (generated_by a); exact Hs.
    - destruct (in_flight p); reflexivity. }
  rewrite S. reflexivity.
Qed.

Lemma on_packet_acked_untracks :
  forall p ld,
    tables_ordered ld ->
    untracked (packet_number p) (pn_space p) (_on_packet_acked p ld).
Proof.
  intros p ld O q. rewrite sent_packets_on_packet_acked, get_put_same.
  apply not_In_erase, O.
Qed.

Lemma acked_packets_untracked :
  forall l ld,
    tables_ordered ld ->
    forall p, In p l ->
      untracked (packet_number p) (pn_space p)
                (fold_left (fun ld info => _on_packet_acked info ld) l ld).
Proof.
  induction l as [ | a l IH]; intros ld O p I; simpl.
  - destruct I.
  - assert (D : a = p \/ In p l).
    { destruct I as [I | I]; [ left; exact I | right; exact I ]. }
    clear I.
    assert (O' : tables_ordered (_on_packet_acked a ld)).
    { apply keep_on_packet_acked; try (intros; assumption).
      apply tables_ordered_remove. }
    destruct D as [-> | Il].
    + apply fold_left_preserves.
      * intros s b Hs. apply keep_on_packet_acked; try (intros; assumption).
        apply untracked_remove.
      * apply on_packet_acked_untracks, O.
    + apply IH; assumption.
Qed.

(** The state in which [_on_ack_received] starts to remove the newly
    acknowledged packets holds the same tables as at entry. *)
Lemma sent_packets_before_acks :
  forall now ack_frame space ld newly,
    let ld1 :=
      set_largest_acked_packet
        (put (largest_acked_packet ld) space
             (Z.max (get (largest_acked_packet ld) space)
                    (largest_acknowledged ack_frame))) ld in
    let pi := SentPackets.find (largest_acknowledged ack_frame)
                               (get (sent_packets ld1) space) in
    let ld2 :=
      match pi with
      | Some p =>
          if ack_eliciting p || _include_ack_eliciting newly then
            set_rtt_measure
              (QUICRTTMeasure.update_rtt (now - time_sent p)
                 (s64 (HRTIME_USECONDS
                         (u64 (Z.shiftl (ack_delay ack_frame) (ack_delay_exponent ld1)))))
                 (rtt_measure ld1)) ld1
          else ld1
      | None => ld1
      end in
    let ld3 :=
      match ecn_section ack_frame, pi with
      | Some ecn, Some p => call (cc_process_ecn p ecn) ld2
      | _, _ => ld2
      end in
    sent_packets ld3 = sent_packets ld.
Proof.
  intros now ack_frame space ld newly ld1 pi ld2 ld3. subst ld3 ld2.
  destruct (ecn_section ack_frame) as [ecn | ]; destruct pi as [q | ]; simpl;
    try destruct (ack_eliciting q || _include_ack_eliciting newly); reflexivity.
Qed.

Lemma on_ack_received_untracks :
  forall ctx now ack_frame space ld p,
    tables_ordered ld ->
    well_keyed ld ->
    In p (_determine_newly_acked_packets ack_frame space ld) ->
    let ld' := _on_ack_received ctx now ack_frame space ld in
    SentPackets.find (packet_number p) (get (sent_packets ld') space) = None
    /\ tables_within ld ld'.
Proof.
  intros ctx now ack_frame space ld p O K I ld'.
  assert (Sp : pn_space p = space).
  { apply In_newly_acked in I. destruct I as [r [k [_ [Ik _]]]].
    apply (K space k p Ik). }
  assert (G : untracked (packet_number p) space ld' /\ tables_within ld ld').
  { subst ld'. unfold _on_ack_received. cbv zeta.
    change (_determine_newly_acked_packets ack_frame space
              (set_largest_acked_packet
                 (put (largest_acked_packet ld) space
                      (Z.max (get (largest_acked_packet ld) space)
                             (largest_acknowledged ack_frame))) ld))
      with (_determine_newly_acked_packets ack_frame space ld).
    destruct (_determine_newly_acked_packets ack_frame space ld) as [ | a l] eqn:N;
      [ destruct I | ].
    pose proof (sent_packets_before_acks now ack_frame space ld (a :: l)) as S.
    cbv zeta in S.
    match goal with
    | |- context [fold_left ?f (a :: l) ?x] => set (ld3 := x) in *; set (acks := f)
    end.
    assert (O3 : tables_ordered ld3) by (intros sp; rewrite S; apply O).
    assert (W3 : tables_within ld ld3) by (intros sp e; rewrite S; exact (fun H => H)).
    apply (keep_set_loss_detection_timer
             (fun x => untracked (packet_number p) space x /\ tables_within ld x));
      try (intros; assumption).
    apply (keep_detect_lost_packets
             (fun x => untracked (packet_number p) space x /\ tables_within ld x));
      try (intros; assumption).
    { intros pn sp x [U W]. split;
        [ apply untracked_remove, U | apply tables_within_remove, W ]. }
    split.
    - rewrite <- Sp. apply acked_packets_untracked; assumption.
    - apply fold_left_preserves; [ | exact W3 ].
      intros s b Hs. apply keep_on_packet_acked; try (intros; assumption).
      apply tables_within_remove. }
  destruct G as [U W]. split; [ | exact W ].
  apply find_not_In. intros [k q] Ie E. simpl in E. subst k. exact (U q Ie).
Qed.

(** X9.  On a detector whose tables are ordered and well keyed, after
    [_on_ack_received] of a frame that lists no descriptor twice, no
    descriptor is tracked any more under the number of a packet that the
    frame newly acknowledges, and the tables hold no descriptor that was not
    there before. *)
Theorem acked_packets_are_no_longer_tracked :
  forall ctx now ack_frame space ld p,
    tables_ordered ld ->
    well_keyed ld ->
    acks_once ack_frame space ld ->
    In p (_determine_newly_acked_packets ack_frame space ld) ->
    let ld' := _on_ack_received ctx now ack_frame space ld in
    SentPackets.find (packet_number p) (get (sent_packets ld') space) = None
    /\ tables_within ld ld'.
Proof.
  intros ctx now ack_frame space ld p O K _ I.
  apply on_ack_received_untracks; assumption.
Qed.

Lemma acked_packets_are_no_longer_tracked_witness :
  let ld := run Scenario.server [Scenario.send 1 0; Scenario.send 2 1000000]
                Scenario.detector in
  let ack_frame := mkAckFrame 2 0 0 [] None in
  let ld' := _on_ack_received Scenario.server 30000000 ack_frame ApplicationData ld in
  SentPackets.find 2 (get (sent_packets ld') ApplicationData) = None.
Proof.
  intros ld ack_frame ld'.
  assert (O : tables_ordered ld).
  { intros sp. destruct sp; vm_compute; repeat split; repeat constructor. }
  assert (K : well_keyed ld).
  { intros sp k p. destruct sp; vm_compute; intros I;
      repeat (destruct I as [I | I]; [ injection I as <- <-; split; reflexivity | ]);
      destruct I. }
  assert (A : acks_once ack_frame ApplicationData ld) by evaluate.
  assert (I : In (Scenario.packet 2 1000000)
                 (_determine_newly_acked_packets ack_frame ApplicationData ld))
    by (vm_compute; left; reflexivity).
  exact (proj1 (acked_packets_are_no_longer_tracked Scenario.server 30000000 ack_frame
                  ApplicationData ld _ O K A I)).
Defined.

(** X10.  On a well keyed detector, an ACK frame that newly acknowledges at
    least one packet, and lists no descriptor twice, resets both back-off
    exponents: afterwards crypto_count and pto_count are 0. *)
Theorem ack_resets_backoff :
  forall ctx now ack_frame space ld,
    well_keyed ld ->
    acks_once ack_frame space ld ->
    _determine_newly_acked_packets ack_frame space ld <> [] ->
    let ld' := _on_ack_received ctx now ack_frame space ld in
    QUICRTTMeasure.crypto_count (rtt_measure ld') = 0
    /\ QUICRTTMeasure.pto_count (rtt_measure ld') = 0.
Proof.
  intros ctx now ack_frame space ld _ _ N ld'. subst ld'.
  unfold _on_ack_received. cbv zeta.
  change (_determine_newly_acked_packets ack_frame space
            (set_largest_acked_packet
               (put (largest_acked_packet ld) space
                    (Z.max (get (largest_acked_packet ld) space)
                           (largest_acknowledged ack_frame))) ld))
    with (_determine_newly_acked_packets ack_frame space ld).
  destruct (_determine_newly_acked_packets ack_frame space ld) as [ | a l];
    [ contradiction | ].
  apply (keep_set_loss_detection_timer
           (fun x => QUICRTTMeasure.crypto_count (rtt_measure x) = 0
                     /\ QUICRTTMeasure.pto_count (rtt_measure x) = 0));
    try (intros; assumption).
  split; reflexivity.
Qed.

Lemma ack_resets_backoff_witness :
  let sent := run Scenario.server [Scenario.send 1 0] Scenario.detector in
  let ld := event_handler Scenario.server 300000000 EVENT_INTERVAL sent in
  let ld' := _on_ack_received Scenario.server 310000000
               (mkAckFrame 1 0 0 [] None) ApplicationData ld in
  QUICRTTMeasure.pto_count (rtt_measure ld) = 1
  /\ QUICRTTMeasure.crypto_count (rtt_measure ld') = 0
  /\ QUICRTTMeasure.pto_count (rtt_measure ld') = 0.
Proof.
  intros sent ld ld'. split; [ vm_compute; reflexivity | ].
  apply (ack_resets_backoff Scenario.server 310000000 (mkAckFrame 1 0 0 [] None)
           ApplicationData ld).
  - evaluate_keys.
  - evaluate.
  - vm_compute. discriminate.
Defined.

(** ** Retransmission of the crypto data *)

Lemma put_put : forall A (a : PerSpace A) i x y, put (put a i x) i y = put a i y.
Proof. intros A a i x y. destruct i; reflexivity. Qed.

Lemma sent_packets_remove_keys :
  forall i (l : SentPackets.t) ld,
    sent_packets
      (fold_left (fun ld info => _remove_from_sent_packet_list (fst info) i ld) l ld)
    = put (sent_packets ld) i
          (fold_left (fun t e => SentPackets.erase (fst e) t) l
                     (get (sent_packets ld) i)).
Proof.
  intros i l. induction l as [ | e l IH]; intros ld; simpl.
  - symmetry. apply put_get.
  - rewrite IH, sent_packets_remove, get_put_same, put_put. reflexivity.
Qed.

Lemma retransmit_crypto_of_space :
  forall i ld,
    ordered (get (sent_packets ld) i) ->
    let crypto :=
      filter (fun info => is_crypto_packet (snd info)) (get (sent_packets ld) i) in
    let ld1 := fold_left (fun ld info => _retransmit_lost_packet (snd info) ld) crypto ld in
    let ld2 := call (cc_on_packets_lost crypto) ld1 in
    sent_packets
      (fold_left (fun ld info => _remove_from_sent_packet_list (fst info) i ld) crypto ld2)
    = put (sent_packets ld) i
          (filter (fun e => negb (is_crypto_packet (snd e))) (get (sent_packets ld) i)).
Proof.
  intros i ld O crypto ld1 ld2.
  assert (S : sent_packets ld2 = sent_packets ld).
  { subst ld2 ld1. simpl. apply fold_left_preserves.
    - intros s a Hs. rewrite sent_packets_retransmit_lost_packet. exact Hs.
    - reflexivity. }
  rewrite sent_packets_remove_keys, S. subst crypto.
  rewrite (erase_filter (fun info => is_crypto_packet (snd info)) _ O). reflexivity.
Qed.

Lemma count_filter_out :
  forall f m, count f (filter (fun e => negb (f (snd e))) m) = 0.
Proof.
  intros f m. induction m as [ | e m IH]; simpl.
  - reflexivity.
  - destruct (f (snd e)) eqn:E; simpl; [ exact IH | ].
    rewrite count_cons, E, IH. reflexivity.
Qed.

Lemma crypto_retransmission_tables :
  forall ld,
    tables_ordered ld ->
    (forall space,
        get (sent_packets (_retransmit_all_unacked_crypto_data ld)) space
        = filter (fun e => negb (is_crypto_packet (snd e))) (get (sent_packets ld) space))
    /\ (counters_ok ld ->
        crypto_outstanding (_retransmit_all_unacked_crypto_data ld) = 0).
Proof.
  intros ld O.
  assert (T : forall space,
             get (sent_packets (_retransmit_all_unacked_crypto_data ld)) space
             = filter (fun e => negb (is_crypto_packet (snd e)))
                      (get (sent_packets ld) space)).
  { unfold _retransmit_all_unacked_crypto_data, all_spaces.
    match goal with |- context [fold_left ?f _ ld] => set (F := f) end.
    assert (HF : forall i ld0,
               ordered (get (sent_packets ld0) i) ->
               sent_packets (F ld0 i)
               = put (sent_packets ld0) i
                     (filter (fun e => negb (is_crypto_packet (snd e)))
                             (get (sent_packets ld0) i))).
    { intros i ld0 O0. subst F. cbv beta. apply retransmit_crypto_of_space, O0. }
    simpl fold_left.
    pose proof (HF Initial ld (O Initial)) as S1.
    assert (O1 : ordered (get (sent_packets (F ld Initial)) Handshake))
      by (rewrite S1; apply (O Handshake)).
    pose proof (HF Handshake _ O1) as S2.
    assert (O2 : ordered (get (sent_packets (F (F ld Initial) Handshake)) ApplicationData))
      by (rewrite S2, S1; apply (O ApplicationData)).
    pose proof (HF ApplicationData _ O2) as S3.
    intros space. rewrite S3, S2, S1. destruct space; reflexivity. }
  split; [ exact T | ].
  intros C.
  assert (C' : counters_ok (_retransmit_all_unacked_crypto_data ld)).
  { apply keep_retransmit_all_unacked_crypto_data; try (intros; assumption).
    apply counters_ok_remove. }
  destruct C' as [Ca Cc].
  rewrite Cc. unfold tracked, tracked_in. rewrite !T, !count_filter_out. reflexivity.
Qed.

(** X11.  On ordered tables [_retransmit_all_unacked_crypto_data] removes the
    crypto descriptors of the three spaces and nothing else; if the counters
    agreed with the tables they still do, so crypto_outstanding is 0
    afterwards. *)
Theorem crypto_retransmission_untracks_crypto_packets :
  forall ld,
    tables_ordered ld ->
    let ld' := _retransmit_all_unacked_crypto_data ld in
    (forall space,
        get (sent_packets ld') space
        = filter (fun e => negb (is_crypto_packet (snd e))) (get (sent_packets ld) space))
    /\ (counters_ok ld ->
        crypto_outstanding ld' = 0
        /\ ack_eliciting_outstanding ld' = u32 (tracked ack_eliciting ld')).
Proof.
  intros ld O ld'. subst ld'.
  destruct (crypto_retransmission_tables ld O) as [T C].
  split; [ exact T | ]. intros K. split; [ apply C, K | ].
  assert (C' : counters_ok (_retransmit_all_unacked_crypto_data ld)).
  { apply keep_retransmit_all_unacked_crypto_data; try (intros; assumption).
    apply counters_ok_remove. }
  apply C'.
Qed.

Lemma crypto_retransmission_untracks_crypto_packets_witness :
  let crypto_packet :=
    mkPacketInfo 0 0 true true true 1200 QUICPacketType.HANDSHAKE
                 [mkFrameInfo 3 (Some 2)] Handshake in
  let ld := run Scenario.server [OpPacketSent crypto_packet true; Scenario.send 1 1000000]
                Scenario.detector in
  let ld' := _retransmit_all_unacked_crypto_data ld in
  crypto_outstanding ld = 1
  /\ get (sent_packets ld') Handshake = []
  /\ map fst (get (sent_packets ld') ApplicationData) = [1].
Proof.
  intros crypto_packet ld ld'.
  assert (O : tables_ordered ld).
  { intros sp. destruct sp; vm_compute; repeat split; repeat constructor. }
  destruct (crypto_retransmission_untracks_crypto_packets ld O) as [T _].
  fold ld' in T. rewrite !T. repeat split; vm_compute; reflexivity.
Defined.

(** ** The earliest loss time and the arming of the timer *)

(** X12.  [_get_earliest_loss_time] returns the loss time of the space it
    returns; it returns 0 for Initial when no loss time is set, and a
    non-zero time whenever the loss time of Initial is set. *)
Theorem earliest_loss_time_is_a_loss_time :
  forall ld,
    let r := _get_earliest_loss_time ld in
    fst r = get (loss_time ld) (snd r)
    /\ ((forall space, get (loss_time ld) space = 0) -> r = (0, Initial))
    /\ (get (loss_time ld) Initial <> 0 -> fst r <> 0).
Proof.
  intros ld r. subst r. unfold _get_earliest_loss_time. simpl.
  destruct (Z.eqb_spec (at_handshake (loss_time ld)) 0) as [H | H];
    destruct (Z.eqb_spec (at_application (loss_time ld)) 0) as [A | A];
    destruct (Z.eqb_spec (at_initial (loss_time ld)) 0) as [I | I]; simpl;
    repeat match goal with
           | |- context [if ?b then _ else _] => destruct b eqn:?; simpl
           end;
    repeat split; try reflexivity; try assumption; try (intros; congruence);
    try (intros Z0; pose proof (Z0 Initial); pose proof (Z0 Handshake);
         pose proof (Z0 ApplicationData); simpl in *; congruence).
Qed.

Lemma earliest_loss_time_is_a_loss_time_witness :
  let ld := set_loss_time (mkPerSpace 4 0 9) Scenario.detector in
  fst (_get_earliest_loss_time ld) <> 0.
Proof.
  intros ld.
  apply (proj2 (proj2 (earliest_loss_time_is_a_loss_time ld))).
  vm_compute. discriminate.
Defined.

Lemma no_loss_time_no_earliest :
  forall ld,
    (forall space, get (loss_time ld) space = 0) ->
    fst (_get_earliest_loss_time ld) = 0.
Proof.
  intros ld Z0. unfold _get_earliest_loss_time. simpl.
  pose proof (Z0 Initial) as I. pose proof (Z0 Handshake) as H.
  pose proof (Z0 ApplicationData) as A. simpl in *. rewrite I, H, A. reflexivity.
Qed.

Lemma update_timer_arms :
  forall time ld,
    loss_detection_timer (update_timer time ld) = true
    /\ loss_detection_alarm_at (update_timer time ld) = time
    /\ calls (update_timer time ld)
       = calls ld ++ (if loss_detection_timer ld then []
                      else [schedule_every (HRTIME_MSECONDS 25)]).
Proof.
  intros time ld. unfold update_timer. cbv zeta. simpl.
  destruct (loss_detection_timer ld) eqn:T; simpl.
  - rewrite T, app_nil_r. repeat split.
  - repeat split.
Qed.

Lemma set_loss_detection_timer_arms :
  forall ctx ld,
    fst (_get_earliest_loss_time ld) <> 0
    \/ 0 < crypto_outstanding ld
    \/ _is_client_without_one_rtt_key ctx = true
    \/ ack_eliciting_outstanding ld <> 0 ->
    loss_detection_timer (_set_loss_detection_timer ctx ld) = true
    /\ calls (_set_loss_detection_timer ctx ld)
       = calls ld ++ (if loss_detection_timer ld then []
                      else [schedule_every (HRTIME_MSECONDS 25)]).
Proof.
  intros ctx ld H. unfold _set_loss_detection_timer. cbv zeta.
  destruct (Z.eqb_spec (fst (_get_earliest_loss_time ld)) 0) as [E | E]; simpl.
  - destruct (Z.ltb_spec 0 (crypto_outstanding ld)) as [C | C]; simpl.
    + split; apply update_timer_arms.
    + destruct (_is_client_without_one_rtt_key ctx) eqn:K.
      * split; apply update_timer_arms.
      * destruct (Z.eqb_spec (ack_eliciting_outstanding ld) 0) as [A | A].
        -- exfalso. destruct H as [H | [H | [H | H]]];
             [ contradiction | lia | discriminate | contradiction ].
        -- split; apply update_timer_arms.
  - split; apply update_timer_arms.
Qed.

(** X13.  When a loss time is set to a non-zero earliest time, a crypto
    packet is outstanding, the endpoint is a client without 1-RTT keys or an
    ack-eliciting packet is outstanding, [_set_loss_detection_timer] leaves
    the tick scheduled, and it schedules the tick only if none was
    scheduled. *)
Theorem timer_is_armed_when_needed :
  forall ctx ld,
    fst (_get_earliest_loss_time ld) <> 0
    \/ 0 < crypto_outstanding ld
    \/ _is_client_without_one_rtt_key ctx = true
    \/ ack_eliciting_outstanding ld <> 0 ->
    let ld' := _set_loss_detection_timer ctx ld in
    loss_detection_timer ld' = true
    /\ calls ld'
       = calls ld ++ (if loss_detection_timer ld then []
                      else [schedule_every (HRTIME_MSECONDS 25)]).
Proof. intros ctx ld H. apply set_loss_detection_timer_arms, H. Qed.

Lemma timer_is_armed_when_needed_witness :
  let ld := _add_to_sent_packet_list 1 (Scenario.packet 1 0) Scenario.detector in
  loss_detection_timer (_set_loss_detection_timer Scenario.server ld) = true.
Proof.
  intros ld.
  apply (timer_is_armed_when_needed Scenario.server ld).
  right. right. right. vm_compute. discriminate.
Defined.

(** X14.  When no loss time is set, no crypto packet and no ack-eliciting
    packet is outstanding and the endpoint is not a client without 1-RTT
    keys, [_set_loss_detection_timer] leaves no tick scheduled: a scheduled
    tick is cancelled and the alarm cleared, and a detector without a tick
    is left exactly as it is. *)
Theorem timer_is_disarmed_when_idle :
  forall ctx ld,
    (forall space, get (loss_time ld) space = 0) ->
    crypto_outstanding ld = 0 ->
    _is_client_without_one_rtt_key ctx = false ->
    ack_eliciting_outstanding ld = 0 ->
    let ld' := _set_loss_detection_timer ctx ld in
    loss_detection_timer ld' = false
    /\ (loss_detection_timer ld = true ->
        loss_detection_alarm_at ld' = 0 /\ calls ld' = calls ld ++ [timer_cancel])
    /\ (loss_detection_timer ld = false -> ld' = ld).
Proof.
  intros ctx ld Z0 C K A ld'. subst ld'. unfold _set_loss_detection_timer. cbv zeta.
  rewrite (no_loss_time_no_earliest ld Z0), C, K, A. simpl.
  destruct (loss_detection_timer ld) eqn:T; simpl.
  - repeat split. intros; discriminate.
  - split; [ exact T | ]. split; [ intros; discriminate | reflexivity ].
Qed.

Lemma timer_is_disarmed_when_idle_witness :
  let ld := run Scenario.server [Scenario.send 1 0] Scenario.detector in
  let acked := _remove_from_sent_packet_list 1 ApplicationData ld in
  loss_detection_timer ld = true
  /\ loss_detection_timer (_set_loss_detection_timer Scenario.server acked) = false.
Proof.
  intros ld acked. split; [ vm_compute; reflexivity | ].
  apply (timer_is_disarmed_when_idle Scenario.server acked).
  - intros space. destruct space; vm_compute; reflexivity.
  - vm_compute. reflexivity.
  - vm_compute. reflexivity.
  - vm_compute. reflexivity.
Defined.

(** X15.  Sending an ack-eliciting packet in flight, under a number that is
    not tracked in its space, leaves the tick scheduled (the counter of
    ack-eliciting packets being below its 32-bit maximum). *)
Theorem sending_ack_eliciting_packet_arms_timer :
  forall ctx p ld,
    QUICPacketType.eqb (ptype p) QUICPacketType.VERSION_NEGOTIATION = false ->
    ack_eliciting p = true ->
    SentPackets.find (packet_number p) (get (sent_packets ld) (pn_space p)) = None ->
    0 <= ack_eliciting_outstanding ld < 2 ^ 32 - 1 ->
    loss_detection_timer (on_packet_sent ctx p true ld) = true.
Proof.
  intros ctx p ld V A F R. unfold on_packet_sent. rewrite V. cbv zeta. rewrite A.
  apply set_loss_detection_timer_arms. right. right. right.
  assert (E : ack_eliciting_outstanding
                (_add_to_sent_packet_list (packet_number p) p ld)
              = ack_eliciting_outstanding ld + 1).
  { unfold _add_to_sent_packet_list. cbv zeta. simpl.
    rewrite get_put_same, (find_insert_fresh _ p _ F), A.
    destruct (is_crypto_packet p); simpl; apply u32_small; lia. }
  destruct (is_crypto_packet p); simpl; rewrite E; lia.
Qed.

Lemma sending_ack_eliciting_packet_arms_timer_witness :
  loss_detection_timer
    (on_packet_sent Scenario.server (Scenario.packet 1 0) true Scenario.detector) = true.
Proof.
  apply sending_ack_eliciting_packet_arms_timer.
  - reflexivity.
  - reflexivity.
  - vm_compute. reflexivity.
  - vm_compute. split; [ discriminate | reflexivity ].
Defined.

(** ** Probes on a probe timeout *)

Lemma other_calls_app :
  forall l l', other_calls (l ++ l') = other_calls l ++ other_calls l'.
Proof. intros l l'. unfold other_calls. apply filter_app. Qed.

Lemma other_calls_set_loss_detection_timer :
  forall ctx ld,
    other_calls (calls (_set_loss_detection_timer ctx ld)) = other_calls (calls ld).
Proof.
  intros ctx ld.
  assert (U : forall time, other_calls (calls (update_timer time ld))
                           = other_calls (calls ld)).
  { intros time. destruct (update_timer_arms time ld) as [_ [_ C]]. rewrite C.
    rewrite other_calls_app. destruct (loss_detection_timer ld); simpl;
      apply app_nil_r. }
  unfold _set_loss_detection_timer. cbv zeta.
  repeat match goal with
         | |- context [if ?b then _ else _] => destruct b eqn:?
         end; try apply U; try reflexivity.
  simpl. rewrite other_calls_app. simpl. apply app_nil_r.
Qed.

(** X16.  A timeout with no loss time set, no crypto packet outstanding and
    an endpoint that is not a client without 1-RTT keys is a probe timeout:
    two 1-RTT pings are requested, each with an extra congestion credit, no
    packet is removed from the tables, pto_count is incremented and the PTO
    period doubles. *)
Theorem probe_timeout_sends_two_pings :
  forall ctx now ld,
    (forall space, get (loss_time ld) space = 0) ->
    crypto_outstanding ld = 0 ->
    _is_client_without_one_rtt_key ctx = false ->
    0 <= QUICRTTMeasure.pto_count (rtt_measure ld) < 30 ->
    let ld' := _on_loss_detection_timeout ctx now ld in
    other_calls (calls ld')
    = other_calls (calls ld)
      ++ [pinger_request QUICEncryptionLevel.ONE_RTT; cc_add_extra_credit;
          pinger_request QUICEncryptionLevel.ONE_RTT; cc_add_extra_credit]
    /\ sent_packets ld' = sent_packets ld
    /\ QUICRTTMeasure.pto_count (rtt_measure ld')
       = QUICRTTMeasure.pto_count (rtt_measure ld) + 1
    /\ QUICRTTMeasure.current_pto_period (rtt_measure ld')
       = 2 * QUICRTTMeasure.current_pto_period (rtt_measure ld).
Proof.
  intros ctx now ld Z0 C K R ld'. subst ld'. unfold _on_loss_detection_timeout.
  pose proof (no_loss_time_no_earliest ld Z0) as E.
  destruct (_get_earliest_loss_time ld) as [t space]. simpl in E. subst t.
  rewrite C, K. simpl negb. cbv iota zeta.
  assert (U : u32 (QUICRTTMeasure.pto_count (rtt_measure ld) + 1)
              = QUICRTTMeasure.pto_count (rtt_measure ld) + 1)
    by (apply u32_small; lia).
  set (x := set_rtt_measure _ _).
  assert (Xr : rtt_measure x
               = QUICRTTMeasure.set_pto_count
                   (QUICRTTMeasure.pto_count (rtt_measure ld) + 1) (rtt_measure ld)).
  { subst x. simpl. rewrite U. reflexivity. }
  assert (R' : rtt_measure (_set_loss_detection_timer ctx x) = rtt_measure x).
  { apply (keep_set_loss_detection_timer (fun y => rtt_measure y = rtt_measure x));
      try (intros; assumption). reflexivity. }
  assert (S' : sent_packets (_set_loss_detection_timer ctx x) = sent_packets ld).
  { apply (keep_set_loss_detection_timer (fun y => sent_packets y = sent_packets ld));
      try (intros; assumption). reflexivity. }
  split; [ | split; [ exact S' | ] ].
  - rewrite other_calls_set_loss_detection_timer. subst x. simpl.
    rewrite <- !app_assoc, other_calls_app. reflexivity.
  - rewrite R', Xr. split; [ reflexivity | ].
    unfold QUICRTTMeasure.current_pto_period.
    cbn [QUICRTTMeasure.set_pto_count QUICRTTMeasure.smoothed_rtt
         QUICRTTMeasure.rttvar QUICRTTMeasure.max_ack_delay
         QUICRTTMeasure.k_granularity QUICRTTMeasure.pto_count].
    rewrite (shiftl_1_succ _ (proj1 R)). ring.
Qed.

Lemma probe_timeout_sends_two_pings_witness :
  let ld := run Scenario.server [Scenario.send 1 0] Scenario.detector in
  let ld' := _on_loss_detection_timeout Scenario.server 300000000 ld in
  QUICRTTMeasure.pto_count (rtt_measure ld') = 0 + 1
  /\ map fst (get (sent_packets ld') ApplicationData) = [1].
Proof.
  intros ld ld'.
  assert (Z0 : forall space, get (loss_time ld) space = 0)
    by (intros space; destruct space; vm_compute; reflexivity).
  assert (C : crypto_outstanding ld = 0) by (vm_compute; reflexivity).
  assert (K : _is_client_without_one_rtt_key Scenario.server = false) by reflexivity.
  assert (R : 0 <= QUICRTTMeasure.pto_count (rtt_measure ld) < 30)
    by (vm_compute; split; [ discriminate | reflexivity ]).
  destruct (probe_timeout_sends_two_pings Scenario.server 300000000 ld Z0 C K R)
    as [_ [S [P _]]].
  fold ld' in S, P. split.
  - rewrite P. vm_compute. reflexivity.
  - rewrite S. vm_compute. reflexivity.
Defined.

(** ** Callbacks of loss detection *)

Lemma calls_remove :
  forall pn space ld, calls (_remove_from_sent_packet_list pn space ld) = calls ld.
Proof.
  intros pn space ld. unfold _remove_from_sent_packet_list. cbv zeta.
  destruct (SentPackets.find pn (get (sent_packets ld) space)) as [p | ]; simpl;
    [ destruct (is_crypto_packet p), (ack_eliciting p) | ]; reflexivity.
Qed.

Lemma calls_retransmit_lost_packet :
  forall p ld, calls (_retransmit_lost_packet p ld) = calls ld ++ frame_lost_calls p.
Proof.
  intros p ld. unfold _retransmit_lost_packet, frame_lost_calls.
  revert ld. induction (frames p) as [ | f fs IH]; intros ld; simpl.
  - symmetry. apply app_nil_r.
  - rewrite IH. destruct (generated_by f); simpl.
    + rewrite <- app_assoc. reflexivity.
    + reflexivity.
Qed.

Lemma calls_lost_packets_loop :
  forall space (lost : SentPackets.t) ld,
    calls
      (fold_left
         (fun ld lost_packet =>
            let ld := call (trigger_PACKET_LOST (snd lost_packet)) ld in
            let ld := _retransmit_lost_packet (snd lost_packet) ld in
            _remove_from_sent_packet_list (fst lost_packet) space ld)
         lost ld)
    = calls ld
      ++ flat_map (fun e => trigger_PACKET_LOST (snd e) :: frame_lost_calls (snd e)) lost.
Proof.
  intros space lost. induction lost as [ | e lost IH]; intros ld; simpl.
  - symmetry. apply app_nil_r.
  - rewrite IH, calls_remove, calls_retransmit_lost_packet. simpl.
    rewrite <- !app_assoc. reflexivity.
Qed.

(** X17.  Loss detection on an ordered table.  The packets declared lost
    are the in-flight packets, numbered up to the largest acknowledged, that
    were sent before now - loss_delay or are numbered below lost_pn.  If
    there is none, no collaborator is called; otherwise the congestion
    controller is told once of all of them and then, packet by packet in
    ascending order, the PACKET_LOST callback fires and the generator of
    each frame is told.  A packet that is not in flight, or numbered above
    the largest acknowledged, stays tracked. *)
Theorem lost_packets_are_reported :
  forall now space ld,
    ordered (get (sent_packets ld) space) ->
    let r := rtt_measure ld in
    let loss_delay :=
      Z.min (Double.to_int64
               (Double.mul (k_time_threshold ld)
                  (Double.of_int64
                     (Z.max (QUICRTTMeasure.latest_rtt r)
                            (QUICRTTMeasure.smoothed_rtt r)))))
            (QUICRTTMeasure.k_granularity r) in
    let largest := get (largest_acked_packet ld) space in
    let lost_pn := u64 (largest - k_packet_threshold ld) in
    let lost :=
      filter (fun e => (fst e <=? largest)
                       && (in_flight (snd e)
                           && deemed_lost (now - loss_delay) lost_pn (snd e)))
             (get (sent_packets ld) space) in
    let ld' := _detect_lost_packets now space ld in
    calls ld'
    = calls ld
      ++ match lost with
         | [] => []
         | _ :: _ =>
             cc_on_packets_lost lost
             :: flat_map (fun e => trigger_PACKET_LOST (snd e) :: frame_lost_calls (snd e))
                         lost
         end
    /\ forall e, In e (get (sent_packets ld) space) ->
                 in_flight (snd e) = false \/ largest < fst e ->
                 In e (get (sent_packets ld') space).
Proof.
  intros now space ld O r loss_delay largest lost_pn lost ld'. split.
  - subst ld'. unfold _detect_lost_packets. cbv zeta.
    cbn [rtt_measure largest_acked_packet sent_packets loss_time k_time_threshold
         k_packet_threshold set_loss_time].
    rewrite get_put_same.
    fold r. fold loss_delay. fold largest. fold lost_pn.
    rewrite (scan_sent_packets_spec largest (now - loss_delay) lost_pn loss_delay
               (get (sent_packets ld) space) 0 [] O (Forall_nil _)).
    simpl app. fold lost.
    destruct lost as [ | l lost']; simpl.
    + symmetry. apply app_nil_r.
    + rewrite calls_lost_packets_loop, calls_remove, calls_retransmit_lost_packet.
      simpl. rewrite <- !app_assoc. reflexivity.
  - intros e I H.
    destruct (detect_lost_packets_spec now space ld O) as [T _].
    fold r loss_delay largest lost_pn ld' in T. rewrite T.
    apply filter_In. split; [ exact I | ].
    destruct H as [H | H].
    + rewrite H. simpl. rewrite andb_false_r. reflexivity.
    + destruct (Z.leb_spec (fst e) largest); [ lia | reflexivity ].
Qed.

Lemma lost_packets_are_reported_witness :
  let sent := run Scenario.server
                  [Scenario.send 1 0; Scenario.send 2 1000000; Scenario.send 3 25000000;
                   Scenario.send 4 25500000]
                  Scenario.detector in
  let ld :=
    set_rtt_measure (QUICRTTMeasure.update_rtt 20000000 0 (rtt_measure sent))
      (set_largest_acked_packet (mkPerSpace 0 0 3) sent) in
  let ld' := _detect_lost_packets 26000000 ApplicationData ld in
  In (4, Scenario.packet 4 25500000) (get (sent_packets ld') ApplicationData).
Proof.
  intros sent ld ld'.
  assert (O : ordered (get (sent_packets ld) ApplicationData)).
  { vm_compute. repeat split; repeat constructor. }
  apply (proj2 (lost_packets_are_reported 26000000 ApplicationData ld O)).
  - vm_compute. do 3 right. left. reflexivity.
  - right. vm_compute. reflexivity.
Defined.

(** ** The tick is scheduled once *)

(** Steps of the detector that make no call to the event processor. *)
Section QuietSteps.
Variable P : QUICLossDetector -> Prop.

Hypothesis P_call : forall c ld, is_timer_call c = false -> P ld -> P (call c ld).
Hypothesis P_loss_time : forall v ld, P ld -> P (set_loss_time v ld).
Hypothesis P_remove :
  forall pn space ld, P ld -> P (_remove_from_sent_packet_list pn space ld).

Lemma quiet_retransmit_lost_packet :
  forall p ld, P ld -> P (_retransmit_lost_packet p ld).
Proof.
  intros p ld H. unfold _retransmit_lost_packet.
  apply fold_left_preserves; [ | exact H ].
  intros s a Hs. destruct (generated_by a); [ | exact Hs ].
  apply P_call; [ reflexivity | exact Hs ].
Qed.

Lemma quiet_send_packet :
  forall level padded ld, P ld -> P (_send_packet level padded ld).
Proof.
  intros level padded ld H. unfold _send_packet. cbv zeta.
  apply P_call; [ reflexivity | ].
  destruct padded; apply P_call; [ reflexivity | exact H | reflexivity | exact H ].
Qed.

Lemma quiet_detect_lost_packets :
  forall now space ld, P ld -> P (_detect_lost_packets now space ld).
Proof.
  intros now space ld H. unfold _detect_lost_packets. cbv zeta.
  match goal with |- P (let '(_, _) := ?x in _) => destruct x as [lt lost] end.
  destruct lost as [ | e lost]; [ apply P_loss_time, P_loss_time, H | ].
  apply fold_left_preserves.
  - intros s a Hs. apply P_remove, quiet_retransmit_lost_packet.
    apply P_call; [ reflexivity | exact Hs ].
  - apply P_call; [ reflexivity | ]. apply P_loss_time, P_loss_time, H.
Qed.

Lemma quiet_retransmit_all_unacked_crypto_data :
  forall ld, P ld -> P (_retransmit_all_unacked_crypto_data ld).
Proof.
  intros ld H. unfold _retransmit_all_unacked_crypto_data.
  apply fold_left_preserves; [ intros s i Hs | exact H ]. cbv zeta.
  apply fold_left_preserves; [ intros; apply P_remove; assumption | ].
  apply P_call; [ reflexivity | ].
  apply fold_left_preserves;
    [ intros; apply quiet_retransmit_lost_packet; assumption | exact Hs ].
Qed.

Lemma quiet_on_packet_acked : forall p ld, P ld -> P (_on_packet_acked p ld).
Proof.
  intros p ld H. unfold _on_packet_acked. cbv zeta. apply P_remove.
  apply fold_left_preserves.
  - intros s a Hs. destruct (generated_by a); [ | exact Hs ].
    apply P_call; [ reflexivity | exact Hs ].
  - destruct (in_flight p); [ apply P_call; [ reflexivity | exact H ] | exact H ].
Qed.
End QuietSteps.

Lemma tick_after_app :
  forall l l' b,
    tick_after b (l ++ l')
    = match tick_after b l with Some b' => tick_after b' l' | None => None end.
Proof.
  induction l as [ | c l IH]; intros l' b; simpl.
  - reflexivity.
  - destruct c; try apply IH; destruct b; try reflexivity; apply IH.
Qed.

Lemma tick_balanced_call :
  forall c ld, is_timer_call c = false -> tick_balanced ld -> tick_balanced (call c ld).
Proof.
  intros c ld N H. unfold tick_balanced in *. simpl.
  rewrite tick_after_app, H. destruct c; try reflexivity; discriminate.
Qed.

Lemma tick_balanced_remove :
  forall pn space ld,
    tick_balanced ld -> tick_balanced (_remove_from_sent_packet_list pn space ld).
Proof.
  intros pn space ld H. unfold tick_balanced in *. rewrite calls_remove.
  rewrite H. f_equal. unfold _remove_from_sent_packet_list. cbv zeta.
  destruct (SentPackets.find pn (get (sent_packets ld) space)) as [p | ]; simpl;
    [ destruct (is_crypto_packet p), (ack_eliciting p) | ]; reflexivity.
Qed.

Lemma tick_balanced_update_timer :
  forall time ld, tick_balanced ld -> tick_balanced (update_timer time ld).
Proof.
  intros time ld H. unfold tick_balanced in *.
  destruct (update_timer_arms time ld) as [T [_ C]]. rewrite T, C, tick_after_app, H.
  destruct (loss_detection_timer ld); reflexivity.
Qed.

Lemma tick_balanced_cancel :
  forall ld, tick_balanced ld -> tick_balanced (cancel_loss_detection_timer ld).
Proof.
  intros ld H. unfold tick_balanced, cancel_loss_detection_timer in *.
  destruct (loss_detection_timer ld) eqn:T; simpl.
  - rewrite tick_after_app, H. reflexivity.
  - rewrite H, T. reflexivity.
Qed.

Lemma tick_balanced_set_loss_detection_timer :
  forall ctx ld, tick_balanced ld -> tick_balanced (_set_loss_detection_timer ctx ld).
Proof.
  intros ctx ld H. unfold _set_loss_detection_timer. cbv zeta.
  repeat match goal with
         | |- tick_balanced (if ?b then _ else _) => destruct b eqn:?
         end; try (apply tick_balanced_update_timer, H); try exact H.
  unfold tick_balanced in *. simpl. rewrite tick_after_app, H.
  match goal with T : loss_detection_timer ld = true |- _ => rewrite T end.
  reflexivity.
Qed.

Ltac tick_frame :=
  try (intros; assumption);
  try (intros; apply tick_balanced_call; assumption);
  try (intros; apply tick_balanced_remove; assumption).

Lemma tick_balanced_on_loss_detection_timeout :
  forall ctx now ld,
    tick_balanced ld -> tick_balanced (_on_loss_detection_timeout ctx now ld).
Proof.
  intros ctx now ld H. unfold _on_loss_detection_timeout.
  destruct (_get_earliest_loss_time ld) as [t space].
  apply tick_balanced_set_loss_detection_timer.
  repeat match goal with
         | |- tick_balanced (if ?b then _ else _) => destruct b
         end; cbv zeta;
    try match goal with
        | |- tick_balanced (set_rtt_measure _ ?x) => change (tick_balanced x)
        end;
    repeat match goal with
           | |- tick_balanced (if ?b then _ else _) => destruct b
           end;
    unfold _send_one_handshake_packets, _send_one_padded_packets,
      _send_one_or_two_packet;
    repeat (apply quiet_send_packet; tick_frame);
    try (apply quiet_detect_lost_packets; tick_frame);
    try (apply quiet_retransmit_all_unacked_crypto_data; tick_frame).
Qed.

Lemma tick_balanced_step :
  forall ctx op ld, tick_balanced ld -> tick_balanced (step ctx ld op).
Proof.
  intros ctx op ld H.
  destruct op as [p fl | now level frame | now event | e | ]; simpl.
  - unfold on_packet_sent. cbv zeta.
    destruct (QUICPacketType.eqb _ _); [ exact H | ].
    assert (A : tick_balanced (_add_to_sent_packet_list (packet_number p) p ld)).
    { unfold _add_to_sent_packet_list. cbv zeta.
      match goal with
      | |- tick_balanced (match ?x with Some _ => _ | None => _ end) =>
          destruct x as [q | ]; [ destruct (is_crypto_packet q), (ack_eliciting q) | ]
      end; exact H. }
    destruct fl; [ | exact A ].
    apply tick_balanced_set_loss_detection_timer, tick_balanced_call; [ reflexivity | ].
    destruct (is_crypto_packet p), (ack_eliciting p); exact A.
  - destruct frame as [f | ty]; simpl; [ | exact H ].
    unfold _on_ack_received. cbv zeta.
    match goal with
    | |- tick_balanced (match ?x with [] => _ | _ :: _ => _ end) =>
        destruct x as [ | a l]; [ exact H | ]
    end.
    apply tick_balanced_set_loss_detection_timer.
    match goal with
    | |- tick_balanced (set_rtt_measure _ (set_rtt_measure _ ?x)) =>
        change (tick_balanced x)
    end.
    apply quiet_detect_lost_packets; tick_frame.
    apply fold_left_preserves;
      [ intros; apply quiet_on_packet_acked; tick_frame | ].
    destruct (ecn_section f) as [ecn | ];
      destruct (SentPackets.find _ _) as [q | ];
      try (apply tick_balanced_call; [ reflexivity | ]);
      try destruct (ack_eliciting q || _include_ack_eliciting (a :: l));
      exact H.
  - destruct event; simpl.
    + destruct (loss_detection_alarm_at ld <=? now); [ | exact H ].
      apply tick_balanced_on_loss_detection_timeout. exact H.
    + apply tick_balanced_cancel, H.
    + exact H.
  - exact H.
  - unfold reset. cbv zeta.
    pose proof (tick_balanced_cancel ld H) as C. exact C.
Qed.

(** X18.  From the constructed detector, along every trace of operations
    whose ACK frames list no descriptor twice, and after the destructor, the
    calls to the event processor are consistent with the tick handle: a tick
    is scheduled only when none is scheduled, cancelled only when one is,
    and one is scheduled at the end exactly when the handle is set; after
    the destructor none is. *)
Theorem tick_is_scheduled_once :
  forall ctx ld_config rtt ops,
    every_step ctx op_acks_once ops (new_loss_detector ld_config rtt) ->
    let ld := run ctx ops (new_loss_detector ld_config rtt) in
    tick_after false (calls ld) = Some (loss_detection_timer ld)
    /\ tick_after false (calls (destroy ld)) = Some false.
Proof.
  intros ctx ld_config rtt ops _ ld.
  assert (B : tick_balanced ld).
  { subst ld. unfold run. apply fold_left_preserves.
    - intros s a. apply tick_balanced_step.
    - reflexivity. }
  split; [ exact B | ].
  pose proof (tick_balanced_cancel ld B) as C. unfold tick_balanced in C.
  change (calls (destroy ld)) with (calls (cancel_loss_detection_timer ld)).
  rewrite C. f_equal. unfold cancel_loss_detection_timer.
  destruct (loss_detection_timer ld) eqn:T; simpl; [ reflexivity | exact T ].
Qed.

Lemma tick_is_scheduled_once_witness :
  let ops := [Scenario.send 1 0; Scenario.send 2 1000000; Scenario.ack 30000000 2 0;
              Scenario.send 3 40000000] in
  let ld := run Scenario.server ops Scenario.detector in
  tick_after false (calls ld) = Some true
  /\ tick_after false (calls (destroy ld)) = Some false.
Proof.
  intros ops ld.
  assert (E : every_step Scenario.server op_acks_once ops Scenario.detector)
    by evaluate.
  destruct (tick_is_scheduled_once Scenario.server Scenario.ld_config
              (new_rtt_measure Scenario.ld_config (HRTIME_MSECONDS 25)) ops E)
    as [B D].
  split; [ | exact D ].
  etransitivity; [ exact B | vm_compute; reflexivity ].
Defined.

(** ** Reset *)

(** X19.  [reset] is idempotent, the constructed detector is a detector
    that has just been reset, and a reset keeps the configuration (the
    thresholds, the ack-delay exponent, the granularity, the initial RTT and
    the peer's max_ack_delay) as well as the stored alarm instant. *)
Theorem reset_is_idempotent :
  forall ld,
    reset (reset ld) = reset ld
    /\ (forall ld_config rtt,
           reset (new_loss_detector ld_config rtt) = new_loss_detector ld_config rtt)
    /\ k_packet_threshold (reset ld) = k_packet_threshold ld
    /\ k_time_threshold (reset ld) = k_time_threshold ld
    /\ ack_delay_exponent (reset ld) = ack_delay_exponent ld
    /\ loss_detection_alarm_at (reset ld) = loss_detection_alarm_at ld
    /\ QUICRTTMeasure.k_granularity (rtt_measure (reset ld))
       = QUICRTTMeasure.k_granularity (rtt_measure ld)
    /\ QUICRTTMeasure.k_initial_rtt (rtt_measure (reset ld))
       = QUICRTTMeasure.k_initial_rtt (rtt_measure ld)
    /\ QUICRTTMeasure.max_ack_delay (rtt_measure (reset ld))
       = QUICRTTMeasure.max_ack_delay (rtt_measure ld).
Proof.
  intros ld.
  assert (I : forall x, reset (reset x) = reset x).
  { intros x. destruct x as [t a c ta tc la lt al tm e kp kt r cl].
    destruct tm; vm_compute; reflexivity. }
  split; [ apply I | ]. split; [ intros; apply I | ].
  destruct ld as [t a c ta tc la lt al tm e kp kt r cl].
  destruct tm; repeat (split; [ reflexivity | ]); reflexivity.
Qed.

(** ** Crypto retransmission and anti-deadlock timeouts *)

Lemma set_loss_detection_timer_keeps :
  forall ctx ld,
    sent_packets (_set_loss_detection_timer ctx ld) = sent_packets ld
    /\ rtt_measure (_set_loss_detection_timer ctx ld) = rtt_measure ld
    /\ crypto_outstanding (_set_loss_detection_timer ctx ld) = crypto_outstanding ld
    /\ ack_eliciting_outstanding (_set_loss_detection_timer ctx ld)
       = ack_eliciting_outstanding ld
    /\ loss_time (_set_loss_detection_timer ctx ld) = loss_time ld.
Proof.
  intros ctx ld.
  apply (keep_set_loss_detection_timer
           (fun x => sent_packets x = sent_packets ld
                     /\ rtt_measure x = rtt_measure ld
                     /\ crypto_outstanding x = crypto_outstanding ld
                     /\ ack_eliciting_outstanding x = ack_eliciting_outstanding ld
                     /\ loss_time x = loss_time ld));
    try (intros; assumption).
  repeat split.
Qed.

(** X20.  A timeout with no loss time set while crypto packets are
    outstanding is a crypto retransmission: on ordered tables whose counters
    agree with them, every crypto descriptor is removed from the three
    tables and nothing else is, crypto_outstanding becomes 0, crypto_count
    is incremented and the handshake retransmission timeout doubles. *)
Theorem crypto_timeout_retransmits :
  forall ctx now ld,
    (forall space, get (loss_time ld) space = 0) ->
    crypto_outstanding ld <> 0 ->
    tables_ordered ld ->
    counters_ok ld ->
    0 <= QUICRTTMeasure.crypto_count (rtt_measure ld) < 30 ->
    let ld' := _on_loss_detection_timeout ctx now ld in
    (forall space,
        get (sent_packets ld') space
        = filter (fun e => negb (is_crypto_packet (snd e))) (get (sent_packets ld) space))
    /\ crypto_outstanding ld' = 0
    /\ QUICRTTMeasure.crypto_count (rtt_measure ld')
       = QUICRTTMeasure.crypto_count (rtt_measure ld) + 1
    /\ QUICRTTMeasure.handshake_retransmit_timeout (rtt_measure ld')
       = 2 * QUICRTTMeasure.handshake_retransmit_timeout (rtt_measure ld).
Proof.
  intros ctx now ld Z0 C O K R ld'. subst ld'. unfold _on_loss_detection_timeout.
  pose proof (no_loss_time_no_earliest ld Z0) as E.
  destruct (_get_earliest_loss_time ld) as [t space]. simpl in E. subst t.
  destruct (Z.eqb_spec (crypto_outstanding ld) 0) as [C0 | _]; [ contradiction | ].
  simpl negb. cbv iota zeta.
  set (x := set_rtt_measure _ _).
  destruct (set_loss_detection_timer_keeps ctx x) as [S [Rt [Cr _]]].
  rewrite S, Rt, Cr. subst x.
  cbn [sent_packets rtt_measure crypto_outstanding set_rtt_measure].
  destruct (crypto_retransmission_tables ld O) as [T Cn].
  assert (Rr : rtt_measure (_retransmit_all_unacked_crypto_data ld) = rtt_measure ld).
  { apply (keep_retransmit_all_unacked_crypto_data (fun y => rtt_measure y = rtt_measure ld));
      try (intros; assumption).
    - intros pn sp y Hy. unfold _remove_from_sent_packet_list. cbv zeta.
      destruct (SentPackets.find pn (get (sent_packets y) sp)) as [p | ]; simpl;
        [ destruct (is_crypto_packet p), (ack_eliciting p) | ]; exact Hy.
    - reflexivity. }
  rewrite Rr.
  assert (U : u32 (QUICRTTMeasure.crypto_count (rtt_measure ld) + 1)
              = QUICRTTMeasure.crypto_count (rtt_measure ld) + 1)
    by (apply u32_small; lia).
  rewrite U.
  split; [ exact T | ]. split; [ apply (Cn K) | ]. split; [ reflexivity | ].
  unfold QUICRTTMeasure.handshake_retransmit_timeout.
  cbn [QUICRTTMeasure.set_crypto_count QUICRTTMeasure.smoothed_rtt
       QUICRTTMeasure.k_initial_rtt QUICRTTMeasure.k_granularity
       QUICRTTMeasure.crypto_count].
  rewrite (shiftl_1_succ _ (proj1 R)). ring.
Qed.

Lemma crypto_timeout_retransmits_witness :
  let crypto_packet :=
    mkPacketInfo 0 0 true true true 1200 QUICPacketType.HANDSHAKE
                 [mkFrameInfo 3 (Some 2)] Handshake in
  let ld := run Scenario.server [OpPacketSent crypto_packet true; Scenario.send 1 1000000]
                Scenario.detector in
  let ld' := _on_loss_detection_timeout Scenario.server 300000000 ld in
  crypto_outstanding ld = 1
  /\ crypto_outstanding ld' = 0
  /\ QUICRTTMeasure.crypto_count (rtt_measure ld') = 0 + 1.
Proof.
  intros crypto_packet ld ld'.
  assert (Z0 : forall space, get (loss_time ld) space = 0)
    by (intros space; destruct space; vm_compute; reflexivity).
  assert (C : crypto_outstanding ld <> 0) by (vm_compute; discriminate).
  assert (O : tables_ordered ld).
  { intros sp. destruct sp; vm_compute; repeat split; repeat constructor. }
  assert (K : counters_ok ld) by (split; vm_compute; reflexivity).
  assert (R : 0 <= QUICRTTMeasure.crypto_count (rtt_measure ld) < 30)
    by (vm_compute; split; [ discriminate | reflexivity ]).
  destruct (crypto_timeout_retransmits Scenario.server 300000000 ld Z0 C O K R)
    as [_ [C' [N _]]].
  fold ld' in C', N. split; [ vm_compute; reflexivity | ].
  split; [ exact C' | ]. rewrite N. vm_compute. reflexivity.
Defined.

(** X21.  A timeout with no loss time set and no crypto packet outstanding,
    on a client without 1-RTT keys, sends one anti-deadlock probe: a
    Handshake ping if the Handshake encryption key is available, otherwise a
    padded Initial packet; one extra congestion credit is added, no packet
    is removed from the tables and crypto_count is incremented. *)
Theorem anti_deadlock_timeout_sends_one_probe :
  forall ctx now ld,
    (forall space, get (loss_time ld) space = 0) ->
    crypto_outstanding ld = 0 ->
    _is_client_without_one_rtt_key ctx = true ->
    0 <= QUICRTTMeasure.crypto_count (rtt_measure ld) < 2 ^ 32 - 1 ->
    let ld' := _on_loss_detection_timeout ctx now ld in
    other_calls (calls ld')
    = other_calls (calls ld)
      ++ [if is_encryption_key_available ctx QUICKeyPhase.HANDSHAKE
          then pinger_request QUICEncryptionLevel.HANDSHAKE
          else padder_request QUICEncryptionLevel.INITIAL;
          cc_add_extra_credit]
    /\ sent_packets ld' = sent_packets ld
    /\ QUICRTTMeasure.crypto_count (rtt_measure ld')
       = QUICRTTMeasure.crypto_count (rtt_measure ld) + 1
    /\ loss_detection_timer ld' = true.
Proof.
  intros ctx now ld Z0 C K R ld'. subst ld'. unfold _on_loss_detection_timeout.
  pose proof (no_loss_time_no_earliest ld Z0) as E.
  destruct (_get_earliest_loss_time ld) as [t space]. simpl in E. subst t.
  rewrite C, K. simpl negb. cbv iota zeta.
  assert (U : u32 (QUICRTTMeasure.crypto_count (rtt_measure ld) + 1)
              = QUICRTTMeasure.crypto_count (rtt_measure ld) + 1)
    by (apply u32_small; lia).
  unfold _send_one_handshake_packets, _send_one_padded_packets, _send_packet.
  cbv zeta.
  destruct (is_encryption_key_available ctx QUICKeyPhase.HANDSHAKE);
    match goal with
    | |- context [_set_loss_detection_timer ctx ?y] => set (x := y)
    end;
    destruct (set_loss_detection_timer_keeps ctx x) as [S [Rt _]];
    assert (A : loss_detection_timer (_set_loss_detection_timer ctx x) = true)
      by (apply set_loss_detection_timer_arms; right; right; left; exact K);
    rewrite other_calls_set_loss_detection_timer, S, Rt, A; subst x;
    cbn [calls call set_rtt_measure sent_packets rtt_measure
         QUICRTTMeasure.set_crypto_count QUICRTTMeasure.crypto_count];
    rewrite U, <- !app_assoc, other_calls_app;
    (split; [ reflexivity | split; [ reflexivity | split; reflexivity ] ]).
Qed.

Lemma anti_deadlock_timeout_sends_one_probe_witness :
  let ld' := _on_loss_detection_timeout (client_context false) 300000000
                                        Scenario.detector in
  other_calls (calls ld')
  = [padder_request QUICEncryptionLevel.INITIAL; cc_add_extra_credit]
  /\ QUICRTTMeasure.crypto_count (rtt_measure ld') = 1.
Proof.
  intros ld'.
  assert (Z0 : forall space, get (loss_time Scenario.detector) space = 0)
    by (intros space; destruct space; vm_compute; reflexivity).
  assert (C : crypto_outstanding Scenario.detector = 0) by (vm_compute; reflexivity).
  assert (K : _is_client_without_one_rtt_key (client_context false) = true)
    by reflexivity.
  assert (R : 0 <= QUICRTTMeasure.crypto_count (rtt_measure Scenario.detector)
              < 2 ^ 32 - 1)
    by (vm_compute; split; [ discriminate | reflexivity ]).
  destruct (anti_deadlock_timeout_sends_one_probe (client_context false) 300000000
              Scenario.detector Z0 C K R) as [P [_ [N _]]].
  fold ld' in P, N. split; [ rewrite P | rewrite N ]; vm_compute; reflexivity.
Defined.

(** ** Bounds of the counters *)

Lemma u32_range : forall z, 0 <= u32 z < 2 ^ 32.
Proof. intros z. unfold u32. apply Z.mod_pos_bound. lia. Qed.

Lemma counters_in_range_remove :
  forall pn space ld,
    counters_in_range ld -> counters_in_range (_remove_from_sent_packet_list pn space ld).
Proof.
  intros pn space ld [A C]. unfold _remove_from_sent_packet_list, counters_in_range.
  cbv zeta.
  destruct (SentPackets.find pn (get (sent_packets ld) space)) as [p | ]; simpl;
    [ destruct (is_crypto_packet p), (ack_eliciting p); simpl | ];
    split; try assumption; apply u32_range.
Qed.

Lemma counters_in_range_add :
  forall pn p ld,
    counters_in_range ld -> counters_in_range (_add_to_sent_packet_list pn p ld).
Proof.
  intros pn p ld [A C]. unfold _add_to_sent_packet_list, counters_in_range. cbv zeta.
  match goal with
  | |- context [match ?x with Some _ => _ | None => _ end] =>
      destruct x as [q | ];
        [ destruct (is_crypto_packet q), (ack_eliciting q) | ]
  end; simpl; split; try assumption; apply u32_range.
Qed.

(** Along every trace of operations from the constructed detector, whatever
    packet numbers are sent, both outstanding counters stay within the range
    of a 32-bit unsigned integer. *)
Lemma outstanding_counters_stay_in_range :
  forall ctx ld_config rtt ops,
    let ld := run ctx ops (new_loss_detector ld_config rtt) in
    0 <= ack_eliciting_outstanding ld < 2 ^ 32
    /\ 0 <= crypto_outstanding ld < 2 ^ 32.
Proof.
  intros ctx ld_config rtt ops ld. subst ld. unfold run.
  apply (fold_left_preserves _ _ counters_in_range).
  - intros s op H.
    destruct op as [p fl | now level frame | now event | e | ]; simpl.
    + apply keep_on_packet_sent; try (intros; assumption).
      intros _. apply counters_in_range_add, H.
    + destruct frame as [f | ty]; simpl; [ | exact H ].
      apply keep_on_ack_received; try (intros; assumption).
      apply counters_in_range_remove.
    + apply keep_event_handler; try (intros; assumption).
      apply counters_in_range_remove.
    + exact H.
    + split; simpl; lia.
  - split; simpl; lia.
Qed.

(** ** The alarm of a probe timeout *)

Lemma add_fresh_ack_eliciting :
  forall p ld,
    SentPackets.find (packet_number p) (get (sent_packets ld) (pn_space p)) = None ->
    ack_eliciting p = true ->
    is_crypto_packet p = false ->
    _add_to_sent_packet_list (packet_number p) p ld
    = set_ack_eliciting_outstanding (u32 (ack_eliciting_outstanding ld + 1))
        (set_sent_packets
           (put (sent_packets ld) (pn_space p)
                (SentPackets.insert (packet_number p) p
                   (get (sent_packets ld) (pn_space p)))) ld).
Proof.
  intros p ld F A C. unfold _add_to_sent_packet_list. cbv zeta. simpl.
  rewrite get_put_same, (find_insert_fresh _ p _ F), A, C. reflexivity.
Qed.

(** X22.  When no loss time is set, no crypto packet is outstanding and the
    endpoint is not a client without 1-RTT keys, sending in flight an
    ack-eliciting packet without crypto data, under a number not tracked in
    its space, sets the alarm to the send time of the packet plus the
    current PTO period, records that send time and notifies the congestion
    controller of the bytes sent. *)
Theorem alarm_after_sending_is_pto :
  forall ctx p ld,
    QUICPacketType.eqb (ptype p) QUICPacketType.VERSION_NEGOTIATION = false ->
    ack_eliciting p = true ->
    is_crypto_packet p = false ->
    SentPackets.find (packet_number p) (get (sent_packets ld) (pn_space p)) = None ->
    0 <= ack_eliciting_outstanding ld < 2 ^ 32 - 1 ->
    (forall space, get (loss_time ld) space = 0) ->
    crypto_outstanding ld = 0 ->
    _is_client_without_one_rtt_key ctx = false ->
    let ld' := on_packet_sent ctx p true ld in
    loss_detection_alarm_at ld'
    = time_sent p + QUICRTTMeasure.current_pto_period (rtt_measure ld)
    /\ time_of_last_sent_ack_eliciting_packet ld' = time_sent p
    /\ other_calls (calls ld')
       = other_calls (calls ld) ++ [cc_on_packet_sent (sent_bytes p)].
Proof.
  intros ctx p ld V A C F R Z0 Cr K ld'. subst ld'.
  unfold on_packet_sent. rewrite V. cbv zeta. rewrite A, C.
  rewrite (add_fresh_ack_eliciting p ld F A C).
  set (x := call _ _).
  assert (E : fst (_get_earliest_loss_time x) = 0)
    by (apply no_loss_time_no_earliest; exact Z0).
  assert (N : (ack_eliciting_outstanding x =? 0) = false).
  { subst x. simpl. rewrite u32_small by lia. apply Z.eqb_neq. lia. }
  assert (Cx : crypto_outstanding x = 0) by exact Cr.
  assert (Tx : time_of_last_sent_ack_eliciting_packet x = time_sent p) by reflexivity.
  assert (Rx : rtt_measure x = rtt_measure ld) by reflexivity.
  assert (Lx : calls x = calls ld ++ [cc_on_packet_sent (sent_bytes p)]) by reflexivity.
  clearbody x.
  split; [ | split ].
  - unfold _set_loss_detection_timer. cbv zeta. rewrite E, N, K, Cx.
    cbn -[update_timer QUICRTTMeasure.current_pto_period].
    destruct (update_timer_arms
                (time_of_last_sent_ack_eliciting_packet x
                 + QUICRTTMeasure.current_pto_period (rtt_measure x)) x)
      as [_ [L _]].
    rewrite L, Tx, Rx. reflexivity.
  - rewrite <- Tx.
    apply (keep_set_loss_detection_timer
             (fun y => time_of_last_sent_ack_eliciting_packet y
                       = time_of_last_sent_ack_eliciting_packet x));
      try (intros; assumption). reflexivity.
  - rewrite other_calls_set_loss_detection_timer, Lx, other_calls_app. reflexivity.
Qed.

Lemma alarm_after_sending_is_pto_witness :
  let ld := on_packet_sent Scenario.server (Scenario.packet 1 5000000) true
                           Scenario.detector in
  loss_detection_alarm_at ld = 5000000 + 25000000.
Proof.
  intros ld.
  assert (Z0 : forall space, get (loss_time Scenario.detector) space = 0)
    by (intros space; destruct space; vm_compute; reflexivity).
  assert (R : 0 <= ack_eliciting_outstanding Scenario.detector < 2 ^ 32 - 1)
    by (vm_compute; split; [ discriminate | reflexivity ]).
  destruct (alarm_after_sending_is_pto Scenario.server (Scenario.packet 1 5000000)
              Scenario.detector eq_refl eq_refl eq_refl eq_refl R Z0 eq_refl eq_refl)
    as [L _].
  fold ld in L. rewrite L. vm_compute. reflexivity.
Defined.

(** ** Independence of the packet-number spaces *)

Lemma lost_packets_loop_other_space :
  forall space other (lost : SentPackets.t) ld,
    other <> space ->
    get (sent_packets
           (fold_left
              (fun ld lost_packet =>
                 let ld := call (trigger_PACKET_LOST (snd lost_packet)) ld in
                 let ld := _retransmit_lost_packet (snd lost_packet) ld in
                 _remove_from_sent_packet_list (fst lost_packet) space ld)
              lost ld)) other
    = get (sent_packets ld) other.
Proof.
  intros space other lost ld N. apply fold_left_preserves.
  - intros s e Hs. cbv zeta.
    rewrite sent_packets_remove, sent_packets_retransmit_lost_packet. simpl.
    rewrite get_put_other by (intros E; apply N; symmetry; exact E). exact Hs.
  - reflexivity.
Qed.

Lemma detect_lost_packets_other_space :
  forall now space other ld,
    other <> space ->
    get (sent_packets (_detect_lost_packets now space ld)) other
    = get (sent_packets ld) other
    /\ get (loss_time (_detect_lost_packets now space ld)) other
       = get (loss_time ld) other.
Proof.
  intros now space other ld N. unfold _detect_lost_packets. cbv zeta.
  match goal with |- context [let '(_, _) := ?x in _] => destruct x as [lt lost] end.
  assert (G : forall A (a : PerSpace A) v w,
             get (put (put a space v) space w) other = get a other).
  { intros A a v w. rewrite !get_put_other by (intros E; apply N; symmetry; exact E).
    reflexivity. }
  destruct lost as [ | e lost].
  - simpl. split; [ reflexivity | apply G ].
  - split.
    + rewrite lost_packets_loop_other_space by exact N. reflexivity.
    + match goal with |- context [fold_left ?f ?l ?x] =>
        destruct (remove_lost_packets space l x) as [L _] end.
      cbv zeta in L. rewrite L. simpl. apply G.
Qed.

Lemma acks_other_space :
  forall space other l ld,
    other <> space ->
    (forall a, In a l -> pn_space a = space) ->
    get (sent_packets (fold_left (fun ld info => _on_packet_acked info ld) l ld)) other
    = get (sent_packets ld) other
    /\ loss_time (fold_left (fun ld info => _on_packet_acked info ld) l ld)
       = loss_time ld.
Proof.
  intros space other l. induction l as [ | a l IH]; intros ld N H; simpl.
  - split; reflexivity.
  - destruct (IH (_on_packet_acked a ld) N (fun b I => H b (or_intror I))) as [S L].
    rewrite S, L, sent_packets_on_packet_acked.
    rewrite (H a (or_introl eq_refl)).
    rewrite get_put_other by (intros E; apply N; symmetry; exact E).
    split; [ reflexivity | ].
    apply (keep_on_packet_acked (fun y => loss_time y = loss_time ld));
      try (intros; assumption); [ | reflexivity ].
    intros pn sp y Hy. rewrite loss_time_remove. exact Hy.
Qed.

(** X23.  On a well keyed detector, processing in one space an ACK frame
    that lists no descriptor twice leaves the other spaces alone: their
    tables, their largest acknowledged packet numbers and their loss times
    are unchanged. *)
Theorem ack_leaves_other_spaces_alone :
  forall ctx now ack_frame space other ld,
    well_keyed ld ->
    acks_once ack_frame space ld ->
    other <> space ->
    let ld' := _on_ack_received ctx now ack_frame space ld in
    get (sent_packets ld') other = get (sent_packets ld) other
    /\ get (largest_acked_packet ld') other = get (largest_acked_packet ld) other
    /\ get (loss_time ld') other = get (loss_time ld) other.
Proof.
  intros ctx now ack_frame space other ld K _ N ld'.
  assert (Lg : get (largest_acked_packet ld') other = get (largest_acked_packet ld) other).
  { subst ld'. rewrite largest_acked_packet_on_ack_received.
    apply get_put_other. intros E. apply N. symmetry. exact E. }
  assert (G : get (sent_packets ld') other = get (sent_packets ld) other
              /\ get (loss_time ld') other = get (loss_time ld) other).
  { subst ld'. unfold _on_ack_received. cbv zeta.
    change (_determine_newly_acked_packets ack_frame space
              (set_largest_acked_packet
                 (put (largest_acked_packet ld) space
                      (Z.max (get (largest_acked_packet ld) space)
                             (largest_acknowledged ack_frame))) ld))
      with (_determine_newly_acked_packets ack_frame space ld).
    destruct (_determine_newly_acked_packets ack_frame space ld) as [ | a l] eqn:D;
      [ split; reflexivity | ].
    assert (Sp : forall b, In b (a :: l) -> pn_space b = space).
    { intros b I. rewrite <- D in I. apply In_newly_acked in I.
      destruct I as [r [k [_ [Ik _]]]]. apply (K space k b Ik). }
    pose proof (sent_packets_before_acks now ack_frame space ld (a :: l)) as S.
    cbv zeta in S.
    match goal with
    | |- context [fold_left ?f (a :: l) ?x] => set (ld3 := x) in *
    end.
    assert (L3 : loss_time ld3 = loss_time ld).
    { subst ld3.
      destruct (ecn_section ack_frame) as [ecn | ];
        destruct (SentPackets.find _ _) as [q | ];
        try destruct (ack_eliciting q || _include_ack_eliciting (a :: l));
        reflexivity. }
    destruct (set_loss_detection_timer_keeps ctx
                (set_rtt_measure
                   (QUICRTTMeasure.set_pto_count 0
                      (rtt_measure
                         (set_rtt_measure
                            (QUICRTTMeasure.set_crypto_count 0
                               (rtt_measure
                                  (_detect_lost_packets now space
                                     (fold_left (fun ld info => _on_packet_acked info ld)
                                                (a :: l) ld3))))
                            (_detect_lost_packets now space
                               (fold_left (fun ld info => _on_packet_acked info ld)
                                          (a :: l) ld3)))))
                   (set_rtt_measure
                      (QUICRTTMeasure.set_crypto_count 0
                         (rtt_measure
                            (_detect_lost_packets now space
                               (fold_left (fun ld info => _on_packet_acked info ld)
                                          (a :: l) ld3))))
                      (_detect_lost_packets now space
                         (fold_left (fun ld info => _on_packet_acked info ld)
                                    (a :: l) ld3)))))
      as [S' [_ [_ [_ L']]]].
    rewrite S', L'. cbn [sent_packets loss_time set_rtt_measure].
    destruct (detect_lost_packets_other_space now space other
                (fold_left (fun ld info => _on_packet_acked info ld) (a :: l) ld3) N)
      as [Sd Ld].
    rewrite Sd, Ld.
    destruct (acks_other_space space other (a :: l) ld3 N Sp) as [Sa La].
    rewrite Sa, La, S, L3. split; reflexivity. }
  destruct G as [G1 G2]. split; [ exact G1 | split; [ exact Lg | exact G2 ] ].
Qed.

Lemma ack_leaves_other_spaces_alone_witness :
  let crypto_packet :=
    mkPacketInfo 0 0 true true true 1200 QUICPacketType.HANDSHAKE
                 [mkFrameInfo 3 (Some 2)] Handshake in
  let ld := run Scenario.server [OpPacketSent crypto_packet true; Scenario.send 0 1000000]
                Scenario.detector in
  let ld' := _on_ack_received Scenario.server 30000000 (mkAckFrame 0 0 0 [] None)
                              ApplicationData ld in
  get (sent_packets ld') Handshake = [(0, crypto_packet)].
Proof.
  intros crypto_packet ld ld'.
  assert (K : well_keyed ld).
  { intros sp k p. destruct sp; vm_compute; intros I;
      repeat (destruct I as [I | I]; [ injection I as <- <-; split; reflexivity | ]);
      destruct I. }
  assert (A : acks_once (mkAckFrame 0 0 0 [] None) ApplicationData ld) by evaluate.
  assert (N : Handshake <> ApplicationData) by discriminate.
  destruct (ack_leaves_other_spaces_alone Scenario.server 30000000
              (mkAckFrame 0 0 0 [] None) ApplicationData Handshake ld K A N) as [S _].
  fold ld' in S. rewrite S. vm_compute. reflexivity.
Defined.

(** ** Repeated ACK frames and repeated loss detection *)

Lemma set_largest_acked_packet_same :
  forall ld, set_largest_acked_packet (largest_acked_packet ld) ld = ld.
Proof. intros ld. destruct ld; reflexivity. Qed.

(** X24.  On a detector whose tables are ordered and well keyed, an ACK
    frame that lists no descriptor twice changes nothing when it is received
    a second time: the packets it acknowledges are no longer tracked, so
    nothing is newly acknowledged, no collaborator is called and the detector
    is left exactly as the first processing left it. *)
Theorem duplicate_ack_changes_nothing :
  forall ctx now now' ack_frame space ld,
    tables_ordered ld ->
    well_keyed ld ->
    acks_once ack_frame space ld ->
    let ld' := _on_ack_received ctx now ack_frame space ld in
    _determine_newly_acked_packets ack_frame space ld' = []
    /\ _on_ack_received ctx now' ack_frame space ld' = ld'.
Proof.
  intros ctx now now' ack_frame space ld O K _ ld'.
  assert (W : tables_within ld ld').
  { destruct (_determine_newly_acked_packets ack_frame space ld) as [ | a l] eqn:D.
    - subst ld'. unfold _on_ack_received. cbv zeta.
      change (_determine_newly_acked_packets ack_frame space
                (set_largest_acked_packet
                   (put (largest_acked_packet ld) space
                        (Z.max (get (largest_acked_packet ld) space)
                               (largest_acknowledged ack_frame))) ld))
        with (_determine_newly_acked_packets ack_frame space ld).
      rewrite D. intros sp e I. exact I.
    - apply (on_ack_received_untracks ctx now ack_frame space ld a O K).
      rewrite D. left. reflexivity. }
  assert (E : _determine_newly_acked_packets ack_frame space ld' = []).
  { destruct (_determine_newly_acked_packets ack_frame space ld') as [ | p l] eqn:D;
      [ reflexivity | exfalso ].
    assert (I : In p (_determine_newly_acked_packets ack_frame space ld'))
      by (rewrite D; left; reflexivity).
    apply In_newly_acked in I. destruct I as [r [k [Ir [Ik C]]]].
    pose proof (W space _ Ik) as Ik0.
    assert (I0 : In p (_determine_newly_acked_packets ack_frame space ld)).
    { apply In_newly_acked. exists r, k. split; [ exact Ir | split; assumption ]. }
    destruct (on_ack_received_untracks ctx now ack_frame space ld p O K I0) as [F _].
    fold ld' in F.
    destruct (K space k p Ik0) as [Pk _]. rewrite Pk in F.
    assert (N : forall m, In (k, p) m -> SentPackets.find k m <> None).
    { induction m as [ | [k' v] m IH]; simpl; intros I.
      - destruct I.
      - destruct (Z.eqb_spec k' k) as [_ | Ne]; [ discriminate | ].
        destruct I as [I | I]; [ congruence | apply IH, I ]. }
    exact (N _ Ik F). }
  split; [ exact E | ].
  unfold _on_ack_received at 1. cbv zeta.
  change (_determine_newly_acked_packets ack_frame space
            (set_largest_acked_packet
               (put (largest_acked_packet ld') space
                    (Z.max (get (largest_acked_packet ld') space)
                           (largest_acknowledged ack_frame))) ld'))
    with (_determine_newly_acked_packets ack_frame space ld').
  rewrite E.
  assert (M : Z.max (get (largest_acked_packet ld') space)
                    (largest_acknowledged ack_frame)
              = get (largest_acked_packet ld') space).
  { subst ld'. rewrite largest_acked_packet_on_ack_received, get_put_same. lia. }
  rewrite M, put_get. apply set_largest_acked_packet_same.
Qed.

Lemma duplicate_ack_changes_nothing_witness :
  let ld := run Scenario.server [Scenario.send 1 0; Scenario.send 2 1000000]
                Scenario.detector in
  let ack_frame := mkAckFrame 2 0 0 [] None in
  let ld' := _on_ack_received Scenario.server 30000000 ack_frame ApplicationData ld in
  _on_ack_received Scenario.server 31000000 ack_frame ApplicationData ld' = ld'.
Proof.
  intros ld ack_frame ld'.
  assert (O : tables_ordered ld).
  { intros sp. destruct sp; vm_compute; repeat split; repeat constructor. }
  assert (K : well_keyed ld).
  { intros sp k p. destruct sp; vm_compute; intros I;
      repeat (destruct I as [I | I]; [ injection I as <- <-; split; reflexivity | ]);
      destruct I. }
  assert (A : acks_once ack_frame ApplicationData ld) by evaluate.
  exact (proj2 (duplicate_ack_changes_nothing Scenario.server 30000000 31000000
                  ack_frame ApplicationData ld O K A)).
Defined.

Lemma ordered_filter :
  forall (f : Z * QUICPacketInfo -> bool) m, ordered m -> ordered (filter f m).
Proof.
  intros f m. induction m as [ | e m IH]; simpl; intros O.
  - exact O.
  - destruct O as [A O]. destruct (f e); [ | apply IH, O ].
    simpl. split; [ | apply IH, O ].
    apply Forall_forall. intros e' I. apply filter_In in I.
    destruct I as [I _]. revert e' I. apply Forall_forall. exact A.
Qed.

Lemma filter_filter_none :
  forall (A : Type) (f g : A -> bool) (l : list A),
    (forall a, g a = true -> f a = false) ->
    filter f (filter g l) = [].
Proof.
  intros A f g l H. induction l as [ | a l IH]; simpl.
  - reflexivity.
  - destruct (g a) eqn:G; [ simpl; rewrite (H a G) | ]; exact IH.
Qed.

Lemma filter_filter_all :
  forall (A : Type) (f g : A -> bool) (l : list A),
    (forall a, f a = true -> g a = true) ->
    filter f (filter g l) = filter f l.
Proof.
  intros A f g l H. induction l as [ | a l IH]; simpl.
  - reflexivity.
  - destruct (g a) eqn:G; simpl.
    + destruct (f a); [ rewrite IH | ]; auto.
    + destruct (f a) eqn:F; [ rewrite (H a F) in G; discriminate | exact IH ].
Qed.

Lemma detect_lost_packets_frame :
  forall now space ld,
    let ld' := _detect_lost_packets now space ld in
    rtt_measure ld' = rtt_measure ld
    /\ largest_acked_packet ld' = largest_acked_packet ld
    /\ k_time_threshold ld' = k_time_threshold ld
    /\ k_packet_threshold ld' = k_packet_threshold ld.
Proof.
  intros now space ld.
  apply (keep_detect_lost_packets
           (fun x => rtt_measure x = rtt_measure ld
                     /\ largest_acked_packet x = largest_acked_packet ld
                     /\ k_time_threshold x = k_time_threshold ld
                     /\ k_packet_threshold x = k_packet_threshold ld));
    try (intros; assumption).
  - intros pn sp x H. unfold _remove_from_sent_packet_list. cbv zeta.
    destruct (SentPackets.find pn (get (sent_packets x) sp)) as [p | ]; simpl;
      [ destruct (is_crypto_packet p), (ack_eliciting p) | ]; exact H.
  - repeat split.
Qed.

(** X25.  Loss detection reports a packet once.  On an ordered table, running
    [_detect_lost_packets] a second time at the same instant finds nothing
    more: the packets declared lost by the first run are no longer tracked,
    no collaborator is called again, and the detector is left exactly as the
    first run left it. *)
Theorem loss_detection_reports_once :
  forall now space ld,
    ordered (get (sent_packets ld) space) ->
    let ld' := _detect_lost_packets now space ld in
    _detect_lost_packets now space ld' = ld'.
Proof.
  intros now space ld O ld'.
  destruct (detect_lost_packets_spec now space ld O) as [T L].
  cbv zeta in T, L. fold ld' in T, L.
  destruct (detect_lost_packets_frame now space ld) as [R [A [Kt Kp]]].
  fold ld' in R, A, Kt, Kp.
  assert (O' : ordered (get (sent_packets ld') space))
    by (rewrite T; apply ordered_filter, O).
  clearbody ld'.
  unfold _detect_lost_packets. cbv zeta.
  cbn [rtt_measure largest_acked_packet sent_packets loss_time k_time_threshold
       k_packet_threshold set_loss_time].
  rewrite get_put_same, R, A, Kt, Kp.
  rewrite (scan_sent_packets_spec _ _ _ _ (get (sent_packets ld') space) 0 [] O'
             (Forall_nil _)).
  simpl app. rewrite T.
  rewrite filter_filter_none.
  2:{ intros a H. apply negb_true_iff in H. exact H. }
  rewrite filter_filter_all.
  2:{ intros a H. apply andb_true_iff in H. destruct H as [H1 H2].
      apply negb_true_iff in H2. rewrite H1, H2. rewrite andb_false_r. reflexivity. }
  unfold survivors_loss_time in L. rewrite <- L.
  cbn [set_loss_time loss_time]. rewrite put_put, put_get.
  clear. destruct ld'; reflexivity.
Qed.

Lemma loss_detection_reports_once_witness :
  let ld :=
    run Scenario.server
        [Scenario.send 1 0; Scenario.send 2 1000000; Scenario.send 3 2000000;
         Scenario.send 4 3000000; Scenario.send 5 4000000]
        Scenario.detector in
  let ld0 :=
    set_largest_acked_packet (put (largest_acked_packet ld) ApplicationData 5) ld in
  let ld' := _detect_lost_packets 5000000 ApplicationData ld0 in
  _detect_lost_packets 5000000 ApplicationData ld' = ld'
  /\ map fst (get (sent_packets ld') ApplicationData) <> map fst (get (sent_packets ld0) ApplicationData).
Proof.
  intros ld ld0 ld'. split.
  - apply (loss_detection_reports_once 5000000 ApplicationData ld0).
    vm_compute. repeat split; repeat constructor.
  - vm_compute. discriminate.
Defined.
